(** * pitcrew-incidents: the session-addressed HTTP router of [src/index.ts]

    A shallow embedding of [getSessionIdHeader], [ensureAcceptHeader],
    [writeJsonError], [createSessionState], [handleHttpRequest] and
    [shutdown], with the pieces of the JavaScript runtime they rely on
    (strings, [JSON.stringify], [Map], [ServerResponse]).  The MCP SDK objects
    ([McpServer], [StreamableHTTPServerTransport]) and the Node listener are
    external collaborators: their behaviour is a parameter of the development
    (class [Sdk]) and every call the router makes on them is recorded in a
    trace.  The two things the router leaves to the SDK, drawing session ids
    and closing the transport of a handler that is closed, are stated as
    contracts ([unique_session_ids], [close_contract]).

    Conventions.  An awaited promise settles, fulfilled or rejected.  One
    dispatch runs at a time: the interleaving of dispatches at their [await]
    points is outside this model.  Strings are byte strings; [toUpperCase]
    acts on ASCII letters, which is all an HTTP method token contains.

    The command line ([parseCliOptions], [main]), the time frames of
    [query_logs] ([parseTimeframeMinutes]) and the text helpers of
    [agent-runner.js] take arbitrary text: they are modelled on UTF-16 code
    units (module [JsText]). *)

From Stdlib Require Import List String Ascii ZArith Bool Lia DecimalString DecimalNat.
Import ListNotations.
Local Open Scope string_scope.
Local Open Scope Z_scope.

Set Implicit Arguments.

(* ------------------------------------------------------------------ *)
(** ** JavaScript strings (ASCII view) *)

Module JsString.

(** [c.toUpperCase()] on one ASCII character; other bytes are left alone
    (HTTP method tokens are ASCII). *)
Definition upper_ascii (c : ascii) : ascii :=
  let n := nat_of_ascii c in
  if ((97 <=? n)%nat && (n <=? 122)%nat)%bool
  then ascii_of_nat (n - 32) else c.

(** [s.toUpperCase()] *)
Fixpoint toUpperCase (s : string) : string :=
  match s with
  | EmptyString => EmptyString
  | String c r => String (upper_ascii c) (toUpperCase r)
  end.

(** [s.startsWith(p)] *)
Fixpoint startsWith (p s : string) : bool :=
  match p, s with
  | EmptyString, _ => true
  | String a p', String b s' => (Ascii.eqb a b && startsWith p' s')%bool
  | String _ _, EmptyString => false
  end.

(** [s.includes(p)] *)
Fixpoint includes (s p : string) : bool :=
  (startsWith p s ||
   match s with
   | EmptyString => false
   | String _ r => includes r p
   end)%bool.

(** [s.split(sep)[0]] for a one-character separator: the text before the
    first occurrence of [sep], the whole string when there is none. *)
Fixpoint split_head (sep : ascii) (s : string) : string :=
  match s with
  | EmptyString => EmptyString
  | String c r => if Ascii.eqb c sep then EmptyString
                  else String c (split_head sep r)
  end.

(** Truthiness of a [string | undefined] value: [undefined] and the empty
    string are falsy. *)
Definition truthy (v : option string) : bool :=
  match v with
  | None => false
  | Some EmptyString => false
  | Some (String _ _) => true
  end.

End JsString.

(* ------------------------------------------------------------------ *)
(** ** JSON values and [JSON.stringify] *)

Module Json.

#[warnings="-register-all"] Inductive value : Type :=
| JNull
| JNumber (n : Z)
| JString (s : string)
| JObject (members : list (string * value)).

Definition dquote : ascii := ascii_of_nat 34.
Definition backslash : ascii := ascii_of_nat 92.

Definition hex_digit (n : nat) : ascii :=
  if (n <? 10)%nat then ascii_of_nat (48 + n) else ascii_of_nat (87 + n).

(** One character of QuoteJSONString. *)
Definition quote_char (c : ascii) : string :=
  let n := nat_of_ascii c in
  if (n =? 8)%nat then String backslash "b"
  else if (n =? 9)%nat then String backslash "t"
  else if (n =? 10)%nat then String backslash "n"
  else if (n =? 12)%nat then String backslash "f"
  else if (n =? 13)%nat then String backslash "r"
  else if (n =? 34)%nat then String backslash (String dquote EmptyString)
  else if (n =? 92)%nat then String backslash (String backslash EmptyString)
  else if (n <? 32)%nat then
    String backslash
      ("u00" ++ String (hex_digit (n / 16))
                  (String (hex_digit (n mod 16)) EmptyString))
  else String c EmptyString.

Fixpoint quote_body (s : string) : string :=
  match s with
  | EmptyString => EmptyString
  | String c r => quote_char c ++ quote_body r
  end.

Definition quote (s : string) : string :=
  String dquote (quote_body s ++ String dquote EmptyString).

(** The characters QuoteJSONString copies as they are: everything from
    U+0020 on except the quote and the backslash. *)
Definition copied (c : ascii) : bool :=
  let n := nat_of_ascii c in
  ((32 <=? n)%nat && negb (n =? 34)%nat && negb (n =? 92)%nat)%bool.

(** Integers print in decimal, as [Number::toString] does for them up to
    1e21; from there on JavaScript prints an exponent, and only the integers
    up to 2^53 are all numbers of JavaScript. *)
Definition number_to_string (n : Z) : string :=
  NilZero.string_of_int (Z.to_int n).

Fixpoint stringify (v : value) : string :=
  match v with
  | JNull => "null"
  | JNumber n => number_to_string n
  | JString s => quote s
  | JObject ms =>
      let fix members (first : bool) (l : list (string * value)) : string :=
        match l with
        | [] => EmptyString
        | (k, x) :: r =>
            (if first then EmptyString else ",") ++
            quote k ++ ":" ++ stringify x ++ members false r
        end in
      "{" ++ members true ms ++ "}"
  end.

End Json.

(* ------------------------------------------------------------------ *)
(** ** [Map<string, V>]

    The entries list of ECMAScript's [Map]: [set] appends a new key at the
    end, [delete] empties the slot in place, so positions are stable and a
    running iterator (an index into the list) is not disturbed. *)

Module JsMap.
Section WithValue.
Variable V : Type.

Definition t := list (option (string * V)).

Definition empty : t := [].

Fixpoint get (k : string) (m : t) : option V :=
  match m with
  | [] => None
  | Some (k', v) :: r => if String.eqb k' k then Some v else get k r
  | None :: r => get k r
  end.

Definition has (k : string) (m : t) : bool :=
  match get k m with Some _ => true | None => false end.

Fixpoint set (k : string) (v : V) (m : t) : t :=
  match m with
  | [] => [Some (k, v)]
  | Some (k', v') :: r =>
      if String.eqb k' k then Some (k, v) :: r
      else Some (k', v') :: set k v r
  | None :: r => None :: set k v r
  end.

Fixpoint delete (k : string) (m : t) : t :=
  match m with
  | [] => []
  | Some (k', v') :: r =>
      if String.eqb k' k then None :: r
      else Some (k', v') :: delete k r
  | None :: r => None :: delete k r
  end.

(** The live entries, in insertion order. *)
Fixpoint entries (m : t) : list (string * V) :=
  match m with
  | [] => []
  | Some e :: r => e :: entries r
  | None :: r => entries r
  end.

Definition size (m : t) : nat := List.length (entries m).

(** At most one live slot per key: what [set] maintains. *)
Definition wf (m : t) : Prop := NoDup (map fst (entries m)).

End WithValue.
End JsMap.


(* ------------------------------------------------------------------ *)
(** ** Node's [http] objects *)

(** A response is idle (nothing sent), streaming (headers sent, not ended)
    or ended; [headersSent] and [writableEnded] are views of that phase. *)
Inductive Phase : Type := Idle | Streaming | Ended.

Record ServerResponse : Type := mkResponse {
  statusCode : Z;
  res_headers : list (string * string);
  phase : Phase;
  body : list string   (* the chunks written so far *)
}.

Definition headersSent (res : ServerResponse) : bool :=
  match phase res with Idle => false | _ => true end.

Definition writableEnded (res : ServerResponse) : bool :=
  match phase res with Ended => true | _ => false end.

(** What [http.createServer] hands to its listener. *)
Definition fresh_response : ServerResponse :=
  {| statusCode := 200; res_headers := []; phase := Idle; body := [] |}.

(** [res.statusCode = n] *)
Definition set_statusCode (n : Z) (res : ServerResponse) : ServerResponse :=
  {| statusCode := n; res_headers := res_headers res;
     phase := phase res; body := body res |}.

(** [res.setHeader(name, value)]; Node throws once the headers are sent, the
    only call site (in [writeJsonError]) is behind the [headersSent] test. *)
Definition setHeader (name value : string) (res : ServerResponse)
  : ServerResponse :=
  {| statusCode := statusCode res;
     res_headers :=
       (name, value) ::
       filter (fun h => negb (String.eqb (fst h) name)) (res_headers res);
     phase := phase res; body := body res |}.

(** [res.end(chunk)]: flushes the headers, writes the chunk and ends the
    response; nothing is written to a response that has ended.  This is
    [end] for a status code from 100 to 999; for any other Node throws
    instead of writing. *)
Definition res_end (chunk : string) (res : ServerResponse) : ServerResponse :=
  match phase res with
  | Ended => res
  | _ => {| statusCode := statusCode res; res_headers := res_headers res;
            phase := Ended; body := body res ++ [chunk] |}
  end.

Definition getHeader (name : string) (res : ServerResponse) : option string :=
  match find (fun h => String.eqb (fst h) name) (res_headers res) with
  | Some h => Some (snd h)
  | None => None
  end.

(** A header of an incoming message is a string or, when repeated, an array. *)
Inductive HeaderValue : Type :=
| HString (s : string)
| HArray (l : list string).

Record IncomingHttpHeaders : Type := mkHeaders {
  accept : option string;
  mcp_session_id : option HeaderValue
}.

Record IncomingMessage : Type := mkRequest {
  url : option string;
  method : option string;
  req_headers : IncomingHttpHeaders
}.

(* ------------------------------------------------------------------ *)
(** ** The SDK objects and the outside world *)

(** Objects are told apart by their identity. *)
Record McpServer : Type := mkServer { server_oid : nat }.
Record StreamableHTTPServerTransport : Type := mkTransport { transport_oid : nat }.
Inductive HttpServer : Type := TheHttpServer.

(** [type SessionState = { server; transport }] *)
Record SessionState : Type := mkSession {
  server : McpServer;
  transport : StreamableHTTPServerTransport
}.

(** How an awaited promise settles. *)
Inductive Settled : Type := Fulfilled | Rejected.

(** The collaborators the router calls but does not implement.  [Ext] is
    their private state; each operation may change it and may reject. *)
Class Sdk : Type := {
  Ext : Type;
  (** [server.connect(transport)] *)
  sdk_connect : McpServer -> StreamableHTTPServerTransport -> Ext -> Settled * Ext;
  (** [transport.handleRequest(req, res)]: may write to [res] *)
  sdk_handleRequest : StreamableHTTPServerTransport -> IncomingMessage ->
                      ServerResponse -> Ext -> Settled * ServerResponse * Ext;
  (** [transport.sessionId] *)
  sdk_sessionId : StreamableHTTPServerTransport -> Ext -> option string;
  (** [transport.close()] *)
  sdk_transport_close : StreamableHTTPServerTransport -> Ext -> Settled * Ext;
  (** [server.close()] *)
  sdk_server_close : McpServer -> Ext -> Settled * Ext;
  (** [httpServer.close(cb)]: [Rejected] when [cb] receives an error *)
  node_http_close : HttpServer -> Ext -> Settled * Ext
}.

(** Calls made on the collaborators, in the order they are made. *)
Inductive Event : Type :=
| EvConnect (s : McpServer) (t : StreamableHTTPServerTransport)
| EvHandleRequest (t : StreamableHTTPServerTransport) (req : IncomingMessage)
| EvTransportClose (t : StreamableHTTPServerTransport)
| EvServerClose (s : McpServer)
| EvHttpClose
| EvConsoleError (msg : string)
| EvExit (code : Z).

(* ------------------------------------------------------------------ *)
(** ** Asynchronous computations: state and exceptions *)

Inductive Completion (A : Type) : Type :=
| Normal (a : A)
| Throw
| OutOfFuel.
Arguments Normal {A} a.
Arguments Throw {A}.
Arguments OutOfFuel {A}.

Definition Async (S A : Type) : Type := S -> Completion A * S.

Definition ret {S A : Type} (a : A) : Async S A := fun s => (Normal a, s).

Definition bind {S A B : Type} (m : Async S A) (f : A -> Async S B)
  : Async S B :=
  fun s => match m s with
           | (Normal a, s') => f a s'
           | (Throw, s') => (Throw, s')
           | (OutOfFuel, s') => (OutOfFuel, s')
           end.

(** [try { body } catch (error) { handler }] *)
Definition try_catch {S A : Type} (body handler : Async S A) : Async S A :=
  fun s => match body s with
           | (Throw, s') => handler s'
           | r => r
           end.

(** [await p.catch(() => undefined)] *)
Definition swallow {S : Type} (m : Async S unit) : Async S unit :=
  try_catch m (ret tt).

Definition settle {A : Type} (o : Settled) (a : A) : Completion A :=
  match o with Fulfilled => Normal a | Rejected => Throw end.

Section Router.
Context {sdk : Sdk}.

(** The module-level variables of [index.ts], the allocator of object
    identities, the collaborators' state and the trace. *)
Record World : Type := mkWorld {
  activeSessions : JsMap.t SessionState;
  activeHttpServer : option HttpServer;
  activeStdioServer : option McpServer;
  next_oid : nat;
  ext : Ext;
  trace : list Event
}.

Definition with_sessions (m : JsMap.t SessionState) (w : World) : World :=
  {| activeSessions := m; activeHttpServer := activeHttpServer w;
     activeStdioServer := activeStdioServer w; next_oid := next_oid w;
     ext := ext w; trace := trace w |}.

(** One collaborator call: its new state and the event it leaves. *)
Definition called (e : Event) (x : Ext) (w : World) : World :=
  {| activeSessions := activeSessions w; activeHttpServer := activeHttpServer w;
     activeStdioServer := activeStdioServer w; next_oid := next_oid w;
     ext := x; trace := trace w ++ [e] |}.

(** The state of one dispatch: the response being written and the world. *)
Record Dispatch : Type := mkDispatch {
  res : ServerResponse;
  world : World
}.

(** Run a computation on the world inside a dispatch. *)
Definition in_world {A : Type} (m : Async World A) : Async Dispatch A :=
  fun d => let (r, w) := m (world d) in (r, {| res := res d; world := w |}).

(** Apply a write to the response of a dispatch. *)
Definition on_res (f : ServerResponse -> ServerResponse) : Async Dispatch unit :=
  fun d => (Normal tt, {| res := f (res d); world := world d |}).

End Router.

Declare Scope async_scope.
Delimit Scope async_scope with async.
Notation "x <- m ;; k" := (bind m (fun x => k))
  (at level 61, m at next level, right associativity) : async_scope.
Notation "m ;;; k" := (bind m (fun _ => k))
  (at level 61, right associativity) : async_scope.

Section Handlers.
Context {sdk : Sdk}.
Local Open Scope async_scope.

(* ------------------------------------------------------------------ *)
(** ** Calls on the collaborators *)

(** [await state.transport.handleRequest(req, res)] *)
Definition transport_handleRequest (t : StreamableHTTPServerTransport)
  (req : IncomingMessage) : Async Dispatch unit :=
  fun d =>
    let '(o, r, x) := sdk_handleRequest t req (res d) (ext (world d)) in
    (settle o tt,
     {| res := r; world := called (EvHandleRequest t req) x (world d) |}).

(** [state.transport.sessionId] *)
Definition transport_sessionId (t : StreamableHTTPServerTransport)
  : Async World (option string) :=
  fun w => (Normal (sdk_sessionId t (ext w)), w).

(** [state.transport.close()] *)
Definition transport_close (t : StreamableHTTPServerTransport)
  : Async World unit :=
  fun w => let (o, x) := sdk_transport_close t (ext w) in
           (settle o tt, called (EvTransportClose t) x w).

(** [state.server.close()] *)
Definition server_close (s : McpServer) : Async World unit :=
  fun w => let (o, x) := sdk_server_close s (ext w) in
           (settle o tt, called (EvServerClose s) x w).

(** [console.error(msg, error)] *)
Definition console_error (msg : string) : Async World unit :=
  fun w => (Normal tt, called (EvConsoleError msg) (ext w) w).

(** [activeSessions.get(k)], [.has(k)], [.set(k, v)], [.delete(k)] *)
Definition activeSessions_get (k : string) : Async World (option SessionState) :=
  fun w => (Normal (JsMap.get k (activeSessions w)), w).

Definition activeSessions_has (k : string) : Async World bool :=
  fun w => (Normal (JsMap.has k (activeSessions w)), w).

Definition activeSessions_set (k : string) (v : SessionState)
  : Async World unit :=
  fun w => (Normal tt, with_sessions (JsMap.set k v (activeSessions w)) w).

Definition activeSessions_delete (k : string) : Async World unit :=
  fun w => (Normal tt, with_sessions (JsMap.delete k (activeSessions w)) w).

(* ------------------------------------------------------------------ *)
(** ** The functions of [index.ts] *)

(** [getSessionIdHeader]: the first element of a repeated header. *)
Definition getSessionIdHeader (req : IncomingMessage) : option string :=
  match mcp_session_id (req_headers req) with
  | Some (HArray l) => hd_error l
  | Some (HString s) => Some s
  | None => None
  end.

(** [ensureAcceptHeader]: overwrite [accept] unless it names both media types. *)
Definition ensureAcceptHeader (req : IncomingMessage) : IncomingMessage :=
  let a := accept (req_headers req) in
  if (negb (JsString.truthy a)
      || negb (JsString.includes (match a with Some s => s | None => EmptyString end)
                                 "application/json")
      || negb (JsString.includes (match a with Some s => s | None => EmptyString end)
                                 "text/event-stream"))%bool
  then {| url := url req; method := method req;
          req_headers := {| accept := Some "application/json, text/event-stream";
                            mcp_session_id := mcp_session_id (req_headers req) |} |}
  else req.

(** The object [{ jsonrpc: "2.0", error: { code, message }, id: null }]. *)
Definition jsonrpc_error (code : Z) (message : string) : Json.value :=
  Json.JObject
    [("jsonrpc", Json.JString "2.0");
     ("error", Json.JObject [("code", Json.JNumber code);
                             ("message", Json.JString message)]);
     ("id", Json.JNull)].

(** [writeJsonError] *)
Definition writeJsonError (res : ServerResponse) (statusCode code : Z)
  (message : string) : ServerResponse :=
  if headersSent res then res
  else
    let res := set_statusCode statusCode res in
    let res := setHeader "content-type" "application/json" res in
    res_end (Json.stringify (jsonrpc_error code message)) res.

(** [createSessionState]: two fresh objects, connected. *)
Definition createSessionState : Async World SessionState :=
  fun w =>
    let server := mkServer (next_oid w) in
    let transport := mkTransport (S (next_oid w)) in
    let (o, x) := sdk_connect server transport (ext w) in
    (settle o {| server := server; transport := transport |},
     {| activeSessions := activeSessions w;
        activeHttpServer := activeHttpServer w;
        activeStdioServer := activeStdioServer w;
        next_oid := S (S (next_oid w));
        ext := x;
        trace := trace w ++ [EvConnect server transport] |}).

(** The body of the [try] block of [handleHttpRequest]. *)
Definition forward (req : IncomingMessage) (method : string)
  (sessionId : option string) (state : SessionState)
  (createdForRequest : bool) : Async Dispatch unit :=
  transport_handleRequest (transport state) req ;;;
  establishedSessionId <- in_world (transport_sessionId (transport state)) ;;
  match establishedSessionId with
  | Some (String _ _ as id) =>
      present <- in_world (activeSessions_has id) ;;
      if negb present then in_world (activeSessions_set id state) else ret tt
  | _ => ret tt
  end ;;;
  (if (createdForRequest && negb (JsString.truthy establishedSessionId))%bool
   then in_world (transport_close (transport state)) ;;;
        in_world (server_close (server state))
   else ret tt) ;;;
  match sessionId with
  | Some (String _ _ as id) =>
      if String.eqb method "DELETE"
      then in_world (activeSessions_delete id) ;;;
           in_world (server_close (server state))
      else ret tt
  | _ => ret tt
  end.

(** The [catch] block of [handleHttpRequest]. *)
Definition on_fault (state : SessionState) (createdForRequest : bool)
  : Async Dispatch unit :=
  (if createdForRequest
   then in_world (swallow (transport_close (transport state))) ;;;
        in_world (swallow (server_close (server state)))
   else ret tt) ;;;
  in_world (console_error "HTTP transport request error:") ;;;
  on_res (fun r => writeJsonError r 500 (-32603) "Internal server error").

(** The method the router compares: [(req.method ?? "GET").toUpperCase()]. *)
Definition http_method (req : IncomingMessage) : string :=
  JsString.toUpperCase (match method req with Some m => m | None => "GET" end).

(** The path the router compares: [(req.url ?? "/").split("?")[0]]. *)
Definition http_path (req : IncomingMessage) : string :=
  JsString.split_head "?" (match url req with Some u => u | None => "/" end).

(** [handleHttpRequest(req, res)]; [res] is the response of the dispatch. *)
Definition handleHttpRequest (req : IncomingMessage) : Async Dispatch unit :=
  let path := http_path req in
  if negb (String.eqb path "/mcp") then
    on_res (fun r => res_end "Not found" (set_statusCode 404 r))
  else
    let req := ensureAcceptHeader req in
    let method := http_method req in
    let sessionId := getSessionIdHeader req in
    resolved <-
      match sessionId with
      | Some (String _ _ as id) =>
          state <- in_world (activeSessions_get id) ;;
          match state with
          | None =>
              on_res (fun r => writeJsonError r 404 (-32001) "Session not found") ;;;
              ret None
          | Some state => ret (Some (state, false))
          end
      | _ =>
          if String.eqb method "POST" then
            state <- in_world createSessionState ;;
            ret (Some (state, true))
          else
            on_res (fun r => writeJsonError r 400 (-32000)
                     "Bad Request: Mcp-Session-Id header is required") ;;;
            ret None
      end ;;
    match resolved with
    | None => ret tt
    | Some (state, createdForRequest) =>
        try_catch (forward req method sessionId state createdForRequest)
                  (on_fault state createdForRequest)
    end.

(** The listener given to [http.createServer]: a dispatch on a fresh
    response. *)
Definition serve (req : IncomingMessage) (w : World) : Completion unit * Dispatch :=
  handleHttpRequest req {| res := fresh_response; world := w |}.

(** [httpServer.close(cb)] wrapped in a promise. *)
Definition httpServer_close (h : HttpServer) : Async World unit :=
  fun w => let (o, x) := node_http_close h (ext w) in
           (settle o tt, called EvHttpClose x w).

(** [process.exit(code)] *)
Definition process_exit (code : Z) : Async World unit :=
  fun w => (Normal tt, called (EvExit code) (ext w) w).

(** [for (const [sessionId, state] of activeSessions) body]: the iterator is
    an index into the entries list, read again from the live map at every
    step; empty slots are skipped. *)
Fixpoint for_of_activeSessions (fuel index : nat)
  (loop_body : string -> SessionState -> Async World unit) : Async World unit :=
  fun w =>
    match nth_error (activeSessions w) index with
    | None => (Normal tt, w)
    | Some slot =>
        match fuel with
        | O => (OutOfFuel, w)
        | S fuel' =>
            match slot with
            | None => for_of_activeSessions fuel' (S index) loop_body w
            | Some (sessionId, state) =>
                (loop_body sessionId state ;;;
                 for_of_activeSessions fuel' (S index) loop_body) w
            end
        end
    end.

(** The body of the loop of [shutdown]. *)
Definition drain_one (sessionId : string) (state : SessionState)
  : Async World unit :=
  activeSessions_delete sessionId ;;;
  swallow (transport_close (transport state)) ;;;
  swallow (server_close (server state)).

(** [shutdown] *)
Definition shutdown (fuel : nat) : Async World unit :=
  fun w =>
    ((match activeHttpServer w with
      | Some h => httpServer_close h
      | None => ret tt
      end) ;;;
     for_of_activeSessions fuel 0 drain_one ;;;
     (fun w' => match activeStdioServer w' with
                | Some s => swallow (server_close s) w'
                | None => ret tt w'
                end) ;;;
     process_exit 0) w.

End Handlers.

(* ------------------------------------------------------------------ *)
(** ** A scripted collaborator, for running the router on concrete inputs *)

Module Scripted.

(** What the collaborators will do: how [connect], [handleRequest] and the
    listener's [close] settle, what [handleRequest] writes, which session id
    each transport reports, and which objects fail to close. *)
Inductive Writing : Type :=
| Silent                    (* writes nothing *)
| Replies (chunk : string)  (* [res.writeHead(200).end(chunk)] *)
| Streams (chunk : string). (* [res.writeHead(200); res.write(chunk)]: started, still open *)

Record Script : Type := mkScript {
  connect_settles : Settled;
  handle_settles : Settled;
  handle_writes : Writing;
  session_ids : list (nat * string);
  broken : list nat;
  listener_settles : Settled
}.

Definition write (wr : Writing) (r : ServerResponse) : ServerResponse :=
  match wr with
  | Silent => r
  | Replies chunk => res_end chunk (set_statusCode 200 r)
  | Streams chunk =>
      match phase r with
      | Ended => r
      | _ => {| statusCode := 200; res_headers := res_headers r;
                phase := Streaming; body := body r ++ [chunk] |}
      end
  end.

Definition lookup_id (oid : nat) (ids : list (nat * string)) : option string :=
  match find (fun p => Nat.eqb (fst p) oid) ids with
  | Some p => Some (snd p)
  | None => None
  end.

Definition close_settles (oid : nat) (s : Script) : Settled :=
  if existsb (Nat.eqb oid) (broken s) then Rejected else Fulfilled.

Definition scripted : Sdk := {|
  Ext := Script;
  sdk_connect := fun _ _ x => (connect_settles x, x);
  sdk_handleRequest := fun _ _ r x => (handle_settles x, write (handle_writes x) r, x);
  sdk_sessionId := fun t x => lookup_id (transport_oid t) (session_ids x);
  sdk_transport_close := fun t x => (close_settles (transport_oid t) x, x);
  sdk_server_close := fun s x => (close_settles (server_oid s) x, x);
  node_http_close := fun _ x => (listener_settles x, x)
|}.

Definition session (n : nat) : SessionState :=
  {| server := mkServer n; transport := mkTransport (S n) |}.

Definition request (m : string) (sid : option string) : IncomingMessage :=
  {| url := Some "/mcp"; method := Some m;
     req_headers := {| accept := Some "application/json, text/event-stream";
                       mcp_session_id := option_map HString sid |} |}.

Definition world_of (table : JsMap.t SessionState) (listening : bool)
  (next : nat) (x : Script) : @World scripted :=
  @mkWorld scripted table
    (if listening then Some TheHttpServer else None) None next x [].

(** A collaborator on which every call is fulfilled: [handleRequest] answers
    200 with one chunk, and the transports listed in [ids] report a session
    id. *)
Definition calm (ids : list (nat * string)) : Script :=
  {| connect_settles := Fulfilled; handle_settles := Fulfilled;
     handle_writes := Replies "ok"; session_ids := ids; broken := [];
     listener_settles := Fulfilled |}.

(** A transport that starts streaming a 200 response and then fails. *)
Definition faulty_stream : Script :=
  {| connect_settles := Fulfilled; handle_settles := Rejected;
     handle_writes := Streams "partial"; session_ids := [(1%nat, "abc")];
     broken := []; listener_settles := Fulfilled |}.

(** A transport that fails before writing anything. *)
Definition faulty_silent : Script :=
  {| connect_settles := Fulfilled; handle_settles := Rejected;
     handle_writes := Silent; session_ids := [(1%nat, "abc")];
     broken := []; listener_settles := Fulfilled |}.

(** A listener whose [close] reports an error. *)
Definition deaf_listener : Script :=
  {| connect_settles := Fulfilled; handle_settles := Fulfilled;
     handle_writes := Replies "ok"; session_ids := [(1%nat, "abc")];
     broken := []; listener_settles := Rejected |}.

(** Objects 0 and 1, the first session, fail to close. *)
Definition stubborn : Script :=
  {| connect_settles := Fulfilled; handle_settles := Fulfilled;
     handle_writes := Replies "ok";
     session_ids := [(1%nat, "abc"); (3%nat, "def")];
     broken := [0%nat; 1%nat]; listener_settles := Fulfilled |}.

(** A table holding the session of objects 0 and 1 under the id [abc]. *)
Definition one_session : JsMap.t SessionState := [Some ("abc", session 0)].

(** A table with two live sessions around an emptied slot. *)
Definition two_sessions : JsMap.t SessionState :=
  [Some ("abc", session 0); None; Some ("def", session 2)].

End Scripted.

(* ------------------------------------------------------------------ *)
(** ** Vocabulary for the statements *)

Section TableChanges.
Context {sdk : Sdk}.

(** The table after an optional registration followed by an optional
    removal: the only two mutations a dispatch performs. *)
Definition registered (ins : option (string * SessionState))
  (m : JsMap.t SessionState) : JsMap.t SessionState :=
  match ins with
  | Some (k, st) => JsMap.set k st m
  | None => m
  end.

Definition removed (del : option string) (m : JsMap.t SessionState)
  : JsMap.t SessionState :=
  match del with
  | Some k => JsMap.delete k m
  | None => m
  end.

(** How one dispatch of [req] may change the table from [m] to [m']: a
    registration happens only under a non-empty id that the session's
    transport reports after a fulfilled forwarding and that the table does
    not hold; a removal happens only for the id carried by a [DELETE]
    request whose forwarding was fulfilled. *)
Definition table_change (req : IncomingMessage)
  (m m' : JsMap.t SessionState) : Prop :=
  exists ins del,
    m' = removed del (registered ins m)
    /\ (forall e s, ins = Some (e, s) ->
          e <> EmptyString /\ JsMap.has e m = false /\
          exists r0 x0 r1 x1,
            sdk_handleRequest (transport s) (ensureAcceptHeader req) r0 x0
              = (Fulfilled, r1, x1)
            /\ sdk_sessionId (transport s) x1 = Some e)
    /\ (forall k, del = Some k ->
          http_method req = "DELETE" /\ getSessionIdHeader req = Some k /\
          k <> EmptyString /\
          exists st r0 x0 r1 x1,
            JsMap.get k m = Some st
            /\ sdk_handleRequest (transport st) (ensureAcceptHeader req) r0 x0
                 = (Fulfilled, r1, x1)).

(** The session [createSessionState] builds in world [w]. *)
Definition fresh_session (w : World) : SessionState :=
  {| server := mkServer (next_oid w); transport := mkTransport (S (next_oid w)) |}.

(** The worlds a listening server goes through, one dispatch after another,
    starting with an empty table. *)
Inductive reachable : World -> Prop :=
| reach_start (x : Ext) :
    reachable {| activeSessions := JsMap.empty SessionState;
                 activeHttpServer := Some TheHttpServer;
                 activeStdioServer := None;
                 next_oid := 0; ext := x; trace := [] |}
| reach_dispatch (req : IncomingMessage) (r : ServerResponse) (w : World) :
    reachable w ->
    reachable (world (snd (handleHttpRequest req {| res := r; world := w |}))).

(** The two calls that tear one session down. *)
Definition teardown (st : SessionState) : list Event :=
  [EvTransportClose (transport st); EvServerClose (server st)].

End TableChanges.

(* ------------------------------------------------------------------ *)
(** ** What the router relies on from the SDK

    [index.ts] hands two things over to the SDK: the choice of session ids
    ([sessionIdGenerator: randomUUID] in [createSessionState]) and the
    release of a session's resources ([state.server.close()], the only call
    the termination path makes). *)

Section Contracts.
Context {sdk : Sdk}.


(** What can be observed of the SDK objects: the transport a handler is
    connected to, and which objects have been closed. *)
Record Lifecycle : Type := mkLifecycle {
  attached : McpServer -> StreamableHTTPServerTransport -> Ext -> Prop;
  transport_released : StreamableHTTPServerTransport -> Ext -> Prop;
  server_released : McpServer -> Ext -> Prop
}.

(** Closing the handler [s] will leave the transport [t] closed: [t] is the
    transport [s] is connected to, or it is closed already. *)
Definition held (L : Lifecycle) (s : McpServer)
  (t : StreamableHTTPServerTransport) (x : Ext) : Prop :=
  attached L s t x \/ transport_released L t x.

(** The SDK's side of the bargain.  [server.connect(transport)] attaches the
    transport to the handler; a transport leaves its handler only by being
    closed, whatever is called on the other objects; and
    [server.close()] closes the handler together with the transport it is
    connected to. *)
Record close_contract (L : Lifecycle) : Prop := mkContract {
  connect_attaches :
    forall s t x x',
      sdk_connect s t x = (Fulfilled, x') -> held L s t x';
  connect_keeps :
    forall s t s' t' x o x',
      sdk_connect s' t' x = (o, x') -> s' <> s -> held L s t x -> held L s t x';
  handleRequest_keeps :
    forall s t t' req r x o r' x',
      sdk_handleRequest t' req r x = (o, r', x') -> held L s t x -> held L s t x';
  transport_close_keeps :
    forall s t t' x o x',
      sdk_transport_close t' x = (o, x') -> held L s t x -> held L s t x';
  server_close_keeps :
    forall s t s' x o x',
      sdk_server_close s' x = (o, x') -> held L s t x -> held L s t x';
  server_close_releases :
    forall s t x x',
      sdk_server_close s x = (Fulfilled, x') -> held L s t x ->
      server_released L s x' /\ transport_released L t x'
}.

End Contracts.

(* ------------------------------------------------------------------ *)
(** ** A collaborator that keeps its books

    A small SDK on which every call is fulfilled: it records which transport
    each handler is connected to and which objects are closed, a [POST]
    without a session id is a handshake, and the session id of a transport
    is minted from the transport's identity. *)

Module Linked.

Record Books : Type := mkBooks {
  links : list (nat * nat);        (* handler, transport: [connect] *)
  initialized : list nat;          (* transports that have a session id *)
  closed_transports : list nat;
  closed_servers : list nat
}.

Definition opening : Books :=
  {| links := []; initialized := []; closed_transports := [];
     closed_servers := [] |}.

(** The id of the session of transport [oid]. *)
Definition minted (oid : nat) : string :=
  "session-" ++ NilEmpty.string_of_uint (Nat.to_uint oid).

Definition connect (s t : nat) (x : Books) : Books :=
  {| links := (s, t) :: links x; initialized := initialized x;
     closed_transports := closed_transports x;
     closed_servers := closed_servers x |}.

Definition is_handshake (req : IncomingMessage) : bool :=
  (String.eqb (JsString.toUpperCase
                 (match method req with Some m => m | None => "GET" end)) "POST"
   && match mcp_session_id (req_headers req) with
      | None => true
      | Some _ => false
      end)%bool.

Definition handle (t : nat) (req : IncomingMessage) (x : Books) : Books :=
  if is_handshake req
  then {| links := links x; initialized := t :: initialized x;
          closed_transports := closed_transports x;
          closed_servers := closed_servers x |}
  else x.

Definition close_transport (t : nat) (x : Books) : Books :=
  {| links := filter (fun l => negb (Nat.eqb (snd l) t)) (links x);
     initialized := initialized x;
     closed_transports := t :: closed_transports x;
     closed_servers := closed_servers x |}.

Definition close_server (s : nat) (x : Books) : Books :=
  {| links := filter (fun l => negb (Nat.eqb (fst l) s)) (links x);
     initialized := initialized x;
     closed_transports :=
       (map snd (filter (fun l => Nat.eqb (fst l) s) (links x))
        ++ closed_transports x)%list;
     closed_servers := s :: closed_servers x |}.

Definition linked : Sdk := {|
  Ext := Books;
  sdk_connect := fun s t x => (Fulfilled, connect (server_oid s) (transport_oid t) x);
  sdk_handleRequest := fun t req r x =>
    (Fulfilled, Scripted.write (Scripted.Replies "ok") r, handle (transport_oid t) req x);
  sdk_sessionId := fun t x =>
    if existsb (Nat.eqb (transport_oid t)) (initialized x)
    then Some (minted (transport_oid t)) else None;
  sdk_transport_close := fun t x => (Fulfilled, close_transport (transport_oid t) x);
  sdk_server_close := fun s x => (Fulfilled, close_server (server_oid s) x);
  node_http_close := fun _ x => (Fulfilled, x)
|}.

Definition lifecycle : @Lifecycle linked :=
  @mkLifecycle linked
    (fun s t (x : Books) => In (server_oid s, transport_oid t) (links x))
    (fun t (x : Books) => In (transport_oid t) (closed_transports x))
    (fun s (x : Books) => In (server_oid s) (closed_servers x)).

(** The server as it starts listening, and after one handshake. *)
Definition listening : @World linked :=
  @mkWorld linked (JsMap.empty SessionState) (Some TheHttpServer) None 0 opening [].

Definition after_handshake : @World linked :=
  world (snd (@handleHttpRequest linked (Scripted.request "POST" None)
                {| res := fresh_response; world := listening |})).

End Linked.

(* ------------------------------------------------------------------ *)
(** ** JavaScript strings as UTF-16 code units

    The command line, the tool arguments and the agent texts are arbitrary
    strings, so they are modelled unit by unit.  White space is the set that
    [String.prototype.trim], [parseInt] and the regular expression class
    [\s] share. *)

Module JsText.

Definition t : Type := list N.

(** An ASCII literal of the source. *)
Definition lit (s : string) : t := map N_of_ascii (list_ascii_of_string s).

(** [a === b] *)
Fixpoint eqb (a b : t) : bool :=
  match a, b with
  | [], [] => true
  | x :: a', y :: b' => (N.eqb x y && eqb a' b')%bool
  | _, _ => false
  end.

(** WhiteSpace and LineTerminator of ECMAScript: TAB, LF, VT, FF, CR, SP,
    NBSP, U+1680, U+2000..U+200A, LS, PS, U+202F, U+205F, U+3000, U+FEFF. *)
Definition is_space (c : N) : bool :=
  ((c =? 9) || (c =? 10) || (c =? 11) || (c =? 12) || (c =? 13) || (c =? 32)
   || (c =? 160) || (c =? 5760) || ((8192 <=? c) && (c <=? 8202))
   || (c =? 8232) || (c =? 8233) || (c =? 8239) || (c =? 8287)
   || (c =? 12288) || (c =? 65279))%N%bool.

(** [\d]: the ASCII digits. *)
Definition is_digit (c : N) : bool := ((48 <=? c) && (c <=? 57))%N%bool.

Definition nonempty (s : t) : bool :=
  match s with [] => false | _ :: _ => true end.

(** [s.trimStart()], [s.trimEnd()], [s.trim()] *)
Fixpoint trimStart (s : t) : t :=
  match s with
  | [] => []
  | c :: r => if is_space c then trimStart r else s
  end.

Fixpoint trimEnd (s : t) : t :=
  match s with
  | [] => []
  | c :: r =>
      match trimEnd r with
      | [] => if is_space c then [] else [c]
      | r' => c :: r'
      end
  end.

Definition trim (s : t) : t := trimEnd (trimStart s).

(** [s.startsWith(p)], [s.includes(p)] *)
Fixpoint startsWith (p s : t) : bool :=
  match p, s with
  | [], _ => true
  | a :: p', b :: s' => (N.eqb a b && startsWith p' s')%bool
  | _ :: _, [] => false
  end.

Fixpoint includes (s p : t) : bool :=
  (startsWith p s ||
   match s with
   | [] => false
   | _ :: r => includes r p
   end)%bool.

(** [s.split(sep)] for a separator of one unit: one part more than there are
    separators, so never the empty array. *)
Fixpoint split (sep : N) (s : t) : list t :=
  match s with
  | [] => [[]]
  | c :: r =>
      if (c =? sep)%N then [] :: split sep r
      else match split sep r with
           | p :: ps => (c :: p) :: ps
           | [] => [[c]]
           end
  end.

(** [parts.join(sep)] *)
Fixpoint join (sep : t) (parts : list t) : t :=
  match parts with
  | [] => []
  | [p] => p
  | p :: ps => (p ++ sep ++ join sep ps)%list
  end.

(** [s.toLowerCase()].  Besides the ASCII capitals, the only units whose
    lower case contains an ASCII letter are KELVIN SIGN (k) and U+0130
    (i followed by U+0307); every other unit stands for its own lower case,
    which is exact for the comparisons with ASCII literals made on the
    result. *)
Definition lower_unit (c : N) : t :=
  if ((65 <=? c) && (c <=? 90))%N%bool then [c + 32]%N
  else if (c =? 8490)%N then [107%N]
  else if (c =? 304)%N then [105%N; 775%N]
  else [c].

Definition toLowerCase (s : t) : t := flat_map lower_unit s.

(** [s.toUpperCase()] on ASCII text, the only text it is applied to. *)
Definition upper_unit (c : N) : N :=
  if ((97 <=? c) && (c <=? 122))%N%bool then (c - 32)%N else c.

Definition toUpperCase (s : t) : t := map upper_unit s.

(** The longest prefix of units satisfying [f]. *)
Fixpoint takeWhile (f : N -> bool) (s : t) : t :=
  match s with
  | [] => []
  | c :: r => if f c then c :: takeWhile f r else []
  end.

Fixpoint dropWhile (f : N -> bool) (s : t) : t :=
  match s with
  | [] => []
  | c :: r => if f c then dropWhile f r else s
  end.

(** The value of a run of decimal digits. *)
Definition decimal (ds : t) : Z :=
  fold_left (fun acc c => acc * 10 + (Z.of_N c - 48)) ds 0.

(** [Number.parseInt(s, 10)]; [None] is [NaN].  The value is the exact
    integer, which is what the double holds up to 2^53. *)
Definition parseInt10 (s : t) : option Z :=
  let s := trimStart s in
  let negative :=
    match s with
    | c :: _ => (c =? 45)%N
    | [] => false
    end in
  let s :=
    match s with
    | c :: r => if ((c =? 45) || (c =? 43))%N%bool then r else s
    | [] => s
    end in
  match takeWhile is_digit s with
  | [] => None
  | ds => Some (if negative then - decimal ds else decimal ds)
  end.

End JsText.

(* ------------------------------------------------------------------ *)
(** ** Command line options ([parseCliOptions]) *)

Module Cli.

Inductive CliTransport : Type := stdio | http | streamable_http.

Record CliOptions : Type := mkOptions {
  transport : CliTransport;
  port : Z;
  host : JsText.t
}.

(** The initial values of the three variables of [parseCliOptions]. *)
Definition defaults : CliOptions :=
  {| transport := stdio; port := 45451; host := JsText.lit "0.0.0.0" |}.

(** [arg.split("=")[1]] *)
Definition option_value (arg : JsText.t) : option JsText.t :=
  nth_error (JsText.split 61 arg) 1.

(** The test [value === "stdio" || value === "http" || value === "streamable-http"]. *)
Definition transport_named (value : option JsText.t) : option CliTransport :=
  match value with
  | None => None
  | Some v =>
      if JsText.eqb v (JsText.lit "stdio") then Some stdio
      else if JsText.eqb v (JsText.lit "http") then Some http
      else if JsText.eqb v (JsText.lit "streamable-http") then Some streamable_http
      else None
  end.

(** The [for] loop of [parseCliOptions] from the values [o] of its three
    variables; [inr] is the message of the [Error] thrown. *)
Fixpoint parse_from (o : CliOptions) (argv : list JsText.t)
  : CliOptions + string :=
  match argv with
  | [] => inl o
  | arg :: rest =>
      if JsText.startsWith (JsText.lit "--transport=") arg then
        let value :=
          option_map (fun v => JsText.toLowerCase (JsText.trim v))
                     (option_value arg) in
        match transport_named value with
        | Some tr => parse_from {| transport := tr; port := port o; host := host o |} rest
        | None => inr "Invalid --transport value. Use stdio, http, or streamable-http."
        end
      else if JsText.startsWith (JsText.lit "--port=") arg then
        let raw := option_map JsText.trim (option_value arg) in
        let parsed :=
          match raw with
          | Some ((_ :: _) as r) => JsText.parseInt10 r
          | _ => None
          end in
        match parsed with
        | Some n =>
            if ((n <? 1) || (n >? 65535))%bool
            then inr "Invalid --port value. Use an integer between 1 and 65535."
            else parse_from {| transport := transport o; port := n; host := host o |} rest
        | None => inr "Invalid --port value. Use an integer between 1 and 65535."
        end
      else if JsText.startsWith (JsText.lit "--host=") arg then
        let raw := option_map JsText.trim (option_value arg) in
        match raw with
        | Some ((_ :: _) as r) =>
            parse_from {| transport := transport o; port := port o; host := r |} rest
        | _ => inr "Invalid --host value. Use a non-empty host string."
        end
      else parse_from o rest
  end.

Definition parseCliOptions (argv : list JsText.t) : CliOptions + string :=
  parse_from defaults argv.

(** An argument the loop acts on. *)
Definition is_option (arg : JsText.t) : bool :=
  (JsText.startsWith (JsText.lit "--transport=") arg
   || JsText.startsWith (JsText.lit "--port=") arg
   || JsText.startsWith (JsText.lit "--host=") arg)%bool.

(** The values a parse can return: a port in range and a trimmed, non-empty
    host. *)
Definition valid (o : CliOptions) : Prop :=
  1 <= port o <= 65535 /\ host o <> [] /\ JsText.trim (host o) = host o.

End Cli.

(* ------------------------------------------------------------------ *)
(** ** Time frames ([parseTimeframeMinutes] and the schema of [query_logs]) *)

Module Timeframe.

(** [m], [h] and, under the [i] flag, [M] and [H]. *)
Definition is_unit (c : N) : bool :=
  ((c =? 109) || (c =? 104) || (c =? 77) || (c =? 72))%N%bool.

(** [s.match(/^(\d+)(m|h)$/i)]: the two groups.  [\d+] is greedy and no digit
    is a unit, so the digits are the longest run of digits. *)
Definition match_timeframe (s : JsText.t) : option (JsText.t * JsText.t) :=
  match JsText.takeWhile JsText.is_digit s, JsText.dropWhile JsText.is_digit s with
  | (_ :: _) as digits, [u] => if is_unit u then Some (digits, [u]) else None
  | _, _ => None
  end.

(** [n * 60] on a number that may be [NaN]. *)
Definition times (n : option Z) (k : Z) : option Z :=
  option_map (fun v => v * k) n.

(** [parseTimeframeMinutes]; [inr] is the message of the [Error] thrown,
    [inl None] would be [NaN]. *)
Definition parseTimeframeMinutes (timeframe : JsText.t) : option Z + string :=
  match match_timeframe (JsText.trim timeframe) with
  | None => inr "Invalid timeframe. Use values like 5m, 15m, or 1h."
  | Some (digits, unit) =>
      let value := JsText.parseInt10 digits in
      let unit := JsText.toLowerCase unit in
      inl (if JsText.eqb unit (JsText.lit "h") then times value 60 else value)
  end.

(** The schema of the [timeframe] argument of [query_logs]:
    [z.string().regex(/^\d+(m|h)$/i)]. *)
Definition timeframe_schema (timeframe : JsText.t) : bool :=
  match match_timeframe timeframe with
  | Some _ => true
  | None => false
  end.

End Timeframe.

(* ------------------------------------------------------------------ *)
(** ** Start-up ([main] and its [catch]) *)

Record StdioServerTransport : Type := mkStdioTransport { stdio_oid : nat }.

(** The two calls [main] makes outside the router's collaborators:
    [server.connect(new StdioServerTransport())] and
    [httpServer.listen(port, host, cb)], rejected when the server emits
    [error] before it listens. *)
Class Host {sdk : Sdk} : Type := {
  sdk_connect_stdio : McpServer -> StdioServerTransport -> Ext -> Settled * Ext;
  node_listen : HttpServer -> Z -> JsText.t -> Ext -> Settled * Ext
}.

Inductive StartEvent : Type :=
| EvConnectStdio (s : McpServer) (t : StdioServerTransport)
| EvListen (h : HttpServer) (port : Z) (host : JsText.t)
| EvConsoleLog (msg : JsText.t).

Section Startup.
Context {sdk : Sdk} {node : Host}.

(** The process: the world of the router and what start-up did. *)
Record Process : Type := mkProcess {
  proc_world : World;
  started : list StartEvent
}.

(** The value of a [CliTransport] as text. *)
Definition transport_name (tr : Cli.CliTransport) : JsText.t :=
  match tr with
  | Cli.stdio => JsText.lit "stdio"
  | Cli.http => JsText.lit "http"
  | Cli.streamable_http => JsText.lit "streamable-http"
  end.

(** The message logged once the listener is up. *)
Definition http_started_message (options : Cli.CliOptions) : JsText.t :=
  (JsText.lit "pitcrew-mcp server started on HTTP transport (" ++
   transport_name (Cli.transport options) ++ JsText.lit ") at http://" ++
   Cli.host options ++ JsText.lit ":" ++
   JsText.lit (Json.number_to_string (Cli.port options)) ++
   JsText.lit "/mcp")%list.

(** [main], given [process.argv].  The final [throw] of the source is for a
    transport outside [CliTransport] and has no counterpart here. *)
Definition main (process_argv : list JsText.t) : Async Process unit :=
  fun p =>
    match Cli.parseCliOptions (skipn 2 process_argv) with
    | inr _ => (Throw, p)
    | inl options =>
        let w := proc_world p in
        match Cli.transport options with
        | Cli.stdio =>
            let server := mkServer (next_oid w) in
            let transport := mkStdioTransport (S (next_oid w)) in
            let (o, x) := sdk_connect_stdio server transport (ext w) in
            match o with
            | Rejected =>
                (Throw,
                 {| proc_world :=
                      {| activeSessions := activeSessions w;
                         activeHttpServer := activeHttpServer w;
                         activeStdioServer := activeStdioServer w;
                         next_oid := S (S (next_oid w));
                         ext := x; trace := trace w |};
                    started := (started p ++ [EvConnectStdio server transport])%list |})
            | Fulfilled =>
                (Normal tt,
                 {| proc_world :=
                      {| activeSessions := activeSessions w;
                         activeHttpServer := activeHttpServer w;
                         activeStdioServer := Some server;
                         next_oid := S (S (next_oid w));
                         ext := x; trace := trace w |};
                    started :=
                      (started p ++
                       [EvConnectStdio server transport;
                        EvConsoleLog
                          (JsText.lit "pitcrew-mcp server started on stdio transport")])%list |})
            end
        | _ =>
            let httpServer := TheHttpServer in
            let (o, x) :=
              node_listen httpServer (Cli.port options) (Cli.host options) (ext w) in
            match o with
            | Rejected =>
                (Throw,
                 {| proc_world :=
                      {| activeSessions := activeSessions w;
                         activeHttpServer := activeHttpServer w;
                         activeStdioServer := activeStdioServer w;
                         next_oid := next_oid w;
                         ext := x; trace := trace w |};
                    started :=
                      (started p ++
                       [EvListen httpServer (Cli.port options) (Cli.host options)])%list |})
            | Fulfilled =>
                (Normal tt,
                 {| proc_world :=
                      {| activeSessions := activeSessions w;
                         activeHttpServer := Some httpServer;
                         activeStdioServer := activeStdioServer w;
                         next_oid := next_oid w;
                         ext := x; trace := trace w |};
                    started :=
                      (started p ++
                       [EvListen httpServer (Cli.port options) (Cli.host options);
                        EvConsoleLog (http_started_message options)])%list |})
            end
        end
    end.

(** [main().catch((err) => { console.error("Fatal server error:", err);
    process.exit(1); })] *)
Definition start (process_argv : list JsText.t) : Async Process unit :=
  try_catch (main process_argv)
    (fun p =>
       let (r, w) :=
         bind (console_error "Fatal server error:") (fun _ => process_exit 1)
              (proc_world p) in
       (r, {| proc_world := w; started := started p |})).

(** The process as the module is loaded: no session, no server. *)
Definition boot (x : Ext) : Process :=
  {| proc_world := {| activeSessions := JsMap.empty SessionState;
                      activeHttpServer := None; activeStdioServer := None;
                      next_oid := 0; ext := x; trace := [] |};
     started := [] |}.

End Startup.

(* ------------------------------------------------------------------ *)
(** ** The text helpers of [agent-runner.js] *)

Module AgentRunner.

(** [String(text ?? "")] for an argument that is a string, [null] or
    [undefined]. *)
Definition to_text (text : option JsText.t) : JsText.t :=
  match text with
  | Some s => s
  | None => []
  end.

(** [s.replace(/\s+/g, " ")]: every run of white space becomes one space;
    [in_run] says that the previous unit was white space. *)
Fixpoint collapse (in_run : bool) (s : JsText.t) : JsText.t :=
  match s with
  | [] => []
  | c :: r =>
      if JsText.is_space c
      then (if in_run then collapse true r else 32%N :: collapse true r)
      else c :: collapse false r
  end.

(** [words] *)
Definition words (text : option JsText.t) : JsText.t :=
  JsText.trim (collapse false (to_text text)).

(** [words(text).split(" ").filter(Boolean)] *)
Definition word_parts (text : option JsText.t) : list JsText.t :=
  filter JsText.nonempty (JsText.split 32 (words text)).

(** [trimWords] *)
Definition trimWords (text : option JsText.t) (maxWords : nat) : JsText.t :=
  let parts := word_parts text in
  if (List.length parts <=? maxWords)%nat
  then JsText.join (JsText.lit " ") parts
  else (JsText.join (JsText.lit " ") (firstn maxWords parts) ++ JsText.lit "...")%list.

(** [s.split(/\s+/)]: the text is cut at every maximal run of white space;
    [in_run] says that the previous unit was white space.  A text that
    starts or ends with white space gets an empty first or last part, and
    the empty text gives one empty part. *)
Fixpoint split_spaces (in_run : bool) (s : JsText.t) : list JsText.t :=
  match s with
  | [] => [[]]
  | c :: r =>
      if JsText.is_space c
      then (if in_run then split_spaces true r else [] :: split_spaces true r)
      else match split_spaces false r with
           | p :: ps => (c :: p) :: ps
           | [] => [[c]]
           end
  end.

(** [String(markdown ?? "").trim().split(/\s+/).filter(Boolean)] *)
Definition markdown_parts (markdown : option JsText.t) : list JsText.t :=
  filter JsText.nonempty (split_spaces false (JsText.trim (to_text markdown))).

(** [trimMarkdownWords] *)
Definition trimMarkdownWords (markdown : option JsText.t) (maxWords : nat)
  : JsText.t :=
  let parts := markdown_parts markdown in
  if (List.length parts <=? maxWords)%nat
  then JsText.trim (to_text markdown)
  else (JsText.join (JsText.lit " ") (firstn maxWords parts) ++ JsText.lit "...")%list.

(** [shortIncident] *)
Definition shortIncident (incident : option JsText.t) : JsText.t :=
  trimWords incident 36.

(** [parseIncidentServices] *)
Definition parseIncidentServices (incident : option JsText.t) : list JsText.t :=
  let lowered := JsText.toLowerCase (to_text incident) in
  let services :=
    ((if JsText.includes lowered (JsText.lit "checkout-api")
      then [JsText.lit "checkout-api"] else []) ++
     (if JsText.includes lowered (JsText.lit "payments-service")
      then [JsText.lit "payments-service"] else []))%list in
  match services with
  | _ :: _ => services
  | [] => [JsText.lit "checkout-api"; JsText.lit "payments-service"]
  end.

(** The class [[A-Za-z0-9-]]. *)
Definition is_severity_unit (c : N) : bool :=
  (((65 <=? c) && (c <=? 90)) || ((97 <=? c) && (c <=? 122))
   || ((48 <=? c) && (c <=? 57)) || (c =? 45))%N%bool.

(** A prefix compared without regard to ASCII case, as the [i] flag does
    for a pattern of ASCII letters. *)
Fixpoint startsWith_ci (p s : JsText.t) : bool :=
  match p, s with
  | [], _ => true
  | a :: p', b :: s' =>
      (N.eqb (JsText.upper_unit a) (JsText.upper_unit b) && startsWith_ci p' s')%bool
  | _ :: _, [] => false
  end.

(** [/severity\s*[:=]\s*"?([A-Za-z0-9-]+)"?/i] tried at the start of [s]:
    the captured group.  Each step has one way to match: a separator is not
    white space, a quote is not in the class, and the closing quote is
    optional. *)
Definition severity_here (s : JsText.t) : option JsText.t :=
  if startsWith_ci (JsText.lit "severity") s then
    match JsText.trimStart (skipn 8 s) with
    | c :: r =>
        if ((c =? 58) || (c =? 61))%N%bool then
          let r := JsText.trimStart r in
          let r := match r with
                   | 34%N :: r' => r'
                   | _ => r
                   end in
          match JsText.takeWhile is_severity_unit r with
          | [] => None
          | (_ :: _) as group => Some group
          end
        else None
    | [] => None
    end
  else None.

(** [text.match(...)]: the leftmost position where the pattern matches. *)
Fixpoint severity_match (s : JsText.t) : option JsText.t :=
  match severity_here s with
  | Some group => Some group
  | None =>
      match s with
      | [] => None
      | _ :: r => severity_match r
      end
  end.

(** [parseIncidentSeverity] *)
Definition parseIncidentSeverity (incident : option JsText.t) : JsText.t :=
  match severity_match (to_text incident) with
  | Some group => JsText.toUpperCase group
  | None => JsText.lit "SEV-1"
  end.

(** The maximal runs of units that are not white space: the words of a
    text. *)
Fixpoint runs (s : JsText.t) : list JsText.t :=
  match s with
  | [] => []
  | c :: r =>
      if JsText.is_space c then runs r
      else match r with
           | [] => [[c]]
           | d :: _ =>
               if JsText.is_space d then [c] :: runs r
               else match runs r with
                    | p :: ps => (c :: p) :: ps
                    | [] => [[c]]
                    end
           end
  end.

(** A word: not empty, no white space. *)
Definition is_word (p : JsText.t) : bool :=
  (JsText.nonempty p && forallb (fun c => negb (JsText.is_space c)) p)%bool.

End AgentRunner.

(** The scripted collaborator as a host: [connect] on stdio settles as
    [connect] does, [listen] as the listener's [close] does. *)
Definition scripted_host : @Host Scripted.scripted :=
  @Build_Host Scripted.scripted
    (fun _ _ (x : Scripted.Script) => (Scripted.connect_settles x, x))
    (fun _ _ _ (x : Scripted.Script) => (Scripted.listener_settles x, x)).


(* ================================================================== *)
(** * Properties *)

(** ** Facts about [Map] *)

Module JsMapFacts.
Section WithValue.
Variable V : Type.
Implicit Types (m : JsMap.t V) (k : string) (v : V).

Lemma get_in_entries m k v :
  JsMap.get k m = Some v -> In (k, v) (JsMap.entries m).
Proof.
  induction m as [|[[k' v']|] r IH]; simpl; intros H; try discriminate; auto.
  destruct (String.eqb_spec k' k) as [->|].
  - injection H as ->. now left.
  - right. auto.
Qed.

Lemma get_none_not_in m k :
  JsMap.get k m = None -> ~ In k (map fst (JsMap.entries m)).
Proof.
  induction m as [|[[k' v']|] r IH]; simpl; intros H; auto.
  destruct (String.eqb_spec k' k) as [->|]; [discriminate|].
  intros [E|E]; [congruence | now apply IH].
Qed.

Lemma not_in_get_none m k :
  ~ In k (map fst (JsMap.entries m)) -> JsMap.get k m = None.
Proof.
  induction m as [|[[k' v']|] r IH]; simpl; intros H; auto.
  destruct (String.eqb_spec k' k) as [->|]; [tauto|].
  apply IH. tauto.
Qed.

Lemma has_true m k : JsMap.has k m = true <-> JsMap.get k m <> None.
Proof. unfold JsMap.has. destruct (JsMap.get k m); split; congruence. Qed.

Lemma has_false m k : JsMap.has k m = false <-> JsMap.get k m = None.
Proof. unfold JsMap.has. destruct (JsMap.get k m); split; congruence. Qed.

Lemma get_set_same m k v : JsMap.get k (JsMap.set k v m) = Some v.
Proof.
  induction m as [|[[k' v']|] r IH]; simpl.
  - now rewrite String.eqb_refl.
  - destruct (String.eqb_spec k' k) as [->|n]; simpl.
    + now rewrite String.eqb_refl.
    + apply String.eqb_neq in n. now rewrite n.
  - exact IH.
Qed.

Lemma get_set_other m k k' v :
  k <> k' -> JsMap.get k (JsMap.set k' v m) = JsMap.get k m.
Proof.
  intros D. induction m as [|[[k0 v0]|] r IH]; simpl.
  - apply not_eq_sym, String.eqb_neq in D. now rewrite D.
  - destruct (String.eqb_spec k0 k') as [->|n]; simpl.
    + apply not_eq_sym, String.eqb_neq in D. now rewrite D.
    + now rewrite IH.
  - exact IH.
Qed.

Lemma get_delete_other m k k' :
  k <> k' -> JsMap.get k (JsMap.delete k' m) = JsMap.get k m.
Proof.
  intros D. induction m as [|[[k0 v0]|] r IH]; simpl; auto.
  destruct (String.eqb_spec k0 k') as [->|n]; simpl.
  - apply not_eq_sym, String.eqb_neq in D. now rewrite D.
  - now rewrite IH.
Qed.

Lemma entries_set_absent m k v :
  JsMap.get k m = None ->
  JsMap.entries (JsMap.set k v m) = (JsMap.entries m ++ [(k, v)])%list.
Proof.
  induction m as [|[[k0 v0]|] r IH]; simpl; auto.
  - destruct (String.eqb_spec k0 k) as [->|n]; [discriminate|].
    intros H. simpl. now rewrite IH.
Qed.

Lemma keys_delete_subset m k k' :
  In k (map fst (JsMap.entries (JsMap.delete k' m))) ->
  In k (map fst (JsMap.entries m)).
Proof.
  induction m as [|[[k0 v0]|] r IH]; simpl; auto.
  destruct (String.eqb k0 k'); simpl; tauto.
Qed.

Lemma wf_empty : JsMap.wf (@JsMap.empty V).
Proof. constructor. Qed.

Lemma wf_set m k v : JsMap.wf m -> JsMap.has k m = false -> JsMap.wf (JsMap.set k v m).
Proof.
  unfold JsMap.wf. intros W H. apply has_false in H.
  rewrite (entries_set_absent _ _ v H), map_app. simpl.
  apply NoDup_app; auto.
  - constructor; [intros []|constructor].
  - intros x Hx [<-|[]]. exact (get_none_not_in _ _ H Hx).
Qed.

Lemma wf_delete m k : JsMap.wf m -> JsMap.wf (JsMap.delete k m).
Proof.
  unfold JsMap.wf. induction m as [|[[k0 v0]|] r IH]; simpl; auto.
  intros W. inversion W as [|? ? N W']; subst.
  destruct (String.eqb k0 k); simpl; auto.
  constructor; auto. intros I. apply N. eapply keys_delete_subset; eauto.
Qed.

Lemma get_delete_same m k : JsMap.wf m -> JsMap.get k (JsMap.delete k m) = None.
Proof.
  unfold JsMap.wf. induction m as [|[[k0 v0]|] r IH]; simpl; auto.
  intros W. inversion W as [|? ? N W']; subst.
  destruct (String.eqb_spec k0 k) as [->|n]; simpl.
  - now apply not_in_get_none.
  - apply String.eqb_neq in n. rewrite n. auto.
Qed.

End WithValue.
End JsMapFacts.

(** ** Facts about strings and [JSON.stringify] *)

Lemma append_assoc (a b c : string) : ((a ++ b) ++ c = a ++ (b ++ c))%string.
Proof. induction a as [|x a IH]; simpl; [reflexivity | now rewrite IH]. Qed.

Lemma append_empty_r (a : string) : (a ++ EmptyString = a)%string.
Proof. induction a as [|x a IH]; simpl; [reflexivity | now rewrite IH]. Qed.

(** The text of a JSON-RPC error object, member by member. *)
Lemma jsonrpc_error_text (code : Z) (message : string) :
  Json.stringify (jsonrpc_error code message) =
  ("{" ++ Json.quote "jsonrpc" ++ ":" ++ Json.quote "2.0" ++ "," ++
   Json.quote "error" ++ ":{" ++
     Json.quote "code" ++ ":" ++ Json.number_to_string code ++ "," ++
     Json.quote "message" ++ ":" ++ Json.quote message ++ "}," ++
   Json.quote "id" ++ ":null}")%string.
Proof.
  unfold jsonrpc_error. cbn [Json.stringify].
  repeat rewrite append_assoc. reflexivity.
Qed.

Lemma quote_char_copied (c : ascii) :
  Json.copied c = true -> Json.quote_char c = String c EmptyString.
Proof.
  unfold Json.copied, Json.quote_char. cbv zeta.
  generalize (nat_of_ascii c). intros n H.
  apply andb_true_iff in H. destruct H as [H B].
  apply andb_true_iff in H. destruct H as [L Q].
  apply Nat.leb_le in L.
  apply negb_true_iff in Q, B. rewrite Q, B.
  repeat match goal with
         | |- context [(n =? ?k)%nat] =>
             destruct (Nat.eqb_spec n k); [lia|]
         end.
  destruct (Nat.ltb_spec n 32); [lia|]. reflexivity.
Qed.

Lemma quote_body_copied (s : string) :
  forallb Json.copied (list_ascii_of_string s) = true -> Json.quote_body s = s.
Proof.
  induction s as [|c s IH]; [reflexivity|].
  simpl. intros H. apply andb_true_iff in H. destruct H as [C H].
  now rewrite (quote_char_copied c C), (IH H).
Qed.

(** ** The runtime functions on small inputs *)

Example toUpperCase_post : JsString.toUpperCase "post" = "POST".
Proof. reflexivity. Qed.

Example split_head_query : JsString.split_head "?" "/mcp?x=1&y=?" = "/mcp".
Proof. reflexivity. Qed.

Example split_head_no_query : JsString.split_head "?" "/mcp/" = "/mcp/".
Proof. reflexivity. Qed.

Example includes_media_type :
  JsString.includes "text/html, application/json" "application/json" = true
  /\ JsString.includes "application/json" "text/event-stream" = false.
Proof. split; reflexivity. Qed.

Example number_to_string_code : Json.number_to_string (-32603) = "-32603".
Proof. reflexivity. Qed.

Example quote_escapes :
  Json.quote_body (String (ascii_of_nat 10) (String Json.dquote "a"))
  = String Json.backslash ("n" ++ String Json.backslash (String Json.dquote "a")).
Proof. reflexivity. Qed.

Example map_set_delete_set :
  JsMap.entries
    (JsMap.set "a" 3%nat (JsMap.delete "a" (JsMap.set "b" 2%nat (JsMap.set "a" 1%nat []))))
  = [("b", 2%nat); ("a", 3%nat)].
Proof. reflexivity. Qed.

Example ensureAcceptHeader_overwrites :
  accept (req_headers (ensureAcceptHeader
            {| url := Some "/mcp"; method := Some "POST";
               req_headers := {| accept := Some "application/json";
                                 mcp_session_id := None |} |}))
  = Some "application/json, text/event-stream".
Proof. reflexivity. Qed.

Example getSessionIdHeader_first_of_array :
  getSessionIdHeader
    {| url := None; method := None;
       req_headers := {| accept := None;
                         mcp_session_id := Some (HArray ["s1"; "s2"]) |} |}
  = Some "s1".
Proof. reflexivity. Qed.

(** The three errors of the router are told apart by their code alone,
    whatever the messages. *)
Lemma error_codes_distinct (m1 m2 : string) :
  Json.stringify (jsonrpc_error (-32001) m1) <> Json.stringify (jsonrpc_error (-32000) m2) /\
  Json.stringify (jsonrpc_error (-32001) m1) <> Json.stringify (jsonrpc_error (-32603) m2) /\
  Json.stringify (jsonrpc_error (-32000) m1) <> Json.stringify (jsonrpc_error (-32603) m2).
Proof.
  rewrite !jsonrpc_error_text.
  repeat split; intros H; cbv in H; discriminate H.
Qed.

(** ** The error-writing helper and the requests rejected up front *)

Section RouterFacts.
Context {sdk : Sdk}.

Lemma getSessionIdHeader_ensure (req : IncomingMessage) :
  getSessionIdHeader (ensureAcceptHeader req) = getSessionIdHeader req.
Proof.
  unfold ensureAcceptHeader.
  destruct (_ || _ || _)%bool; reflexivity.
Qed.

Lemma http_method_ensure (req : IncomingMessage) :
  http_method (ensureAcceptHeader req) = http_method req.
Proof.
  unfold ensureAcceptHeader.
  destruct (_ || _ || _)%bool; reflexivity.
Qed.

Lemma truthy_nonempty (id : string) :
  id <> EmptyString -> exists c r, id = String c r.
Proof. destruct id as [|c r]; [congruence | eauto]. Qed.

Lemma writeJsonError_sent (r : ServerResponse) (status code : Z) (message : string) :
  headersSent r = true -> writeJsonError r status code message = r.
Proof. unfold writeJsonError. now intros ->. Qed.

Lemma writeJsonError_idle (r : ServerResponse) (status code : Z) (message : string) :
  headersSent r = false ->
  writeJsonError r status code message =
  {| statusCode := status;
     res_headers :=
       ("content-type", "application/json") ::
       filter (fun h => negb (String.eqb (fst h) "content-type")) (res_headers r);
     phase := Ended;
     body := (body r ++ [Json.stringify (jsonrpc_error code message)])%list |}.
Proof.
  unfold writeJsonError, headersSent. intros H. 
  destruct r as [sc hs ph bd]; simpl in *.
  destruct ph; try discriminate; reflexivity.
Qed.

(** C10: [writeJsonError] leaves a response whose headers have been sent
    exactly as it is: nothing is overwritten, nothing appended.  On any other
    response, for a status code Node accepts and a code that is an integer
    of JavaScript, it sets the status and the JSON content type, writes one
    chunk and ends the response; the chunk is the text of the JSON-RPC error
    object with the code in decimal, the message between quotes, escaped as
    JSON escapes it (a message of ordinary characters stands as it is), and a
    null id. *)
Theorem writeJsonError_guarded_single_error
  (r : ServerResponse) (status code : Z) (message : string) :
  100 <= status <= 999 ->
  - 2 ^ 53 <= code <= 2 ^ 53 ->
  let q := String (ascii_of_nat 34) EmptyString in
  (headersSent r = true -> writeJsonError r status code message = r)
  /\ (headersSent r = false ->
      statusCode (writeJsonError r status code message) = status
      /\ getHeader "content-type" (writeJsonError r status code message)
         = Some "application/json"
      /\ phase (writeJsonError r status code message) = Ended
      /\ body (writeJsonError r status code message) =
           (body r ++
            [("{" ++ q ++ "jsonrpc" ++ q ++ ":" ++ q ++ "2.0" ++ q ++ "," ++
              q ++ "error" ++ q ++ ":{" ++
                q ++ "code" ++ q ++ ":"
                  ++ NilZero.string_of_int (Z.to_int code) ++ "," ++
                q ++ "message" ++ q ++ ":"
                  ++ q ++ Json.quote_body message ++ q ++ "}," ++
              q ++ "id" ++ q ++ ":null}")%string])%list)
  /\ (forallb Json.copied (list_ascii_of_string message) = true ->
      Json.quote_body message = message).
Proof.
  intros _ _ q. split; [apply writeJsonError_sent|]. split; [|apply quote_body_copied].
  intros H. rewrite (writeJsonError_idle _ _ _ _ H). cbn [statusCode phase body].
  repeat split.
  rewrite jsonrpc_error_text. unfold Json.quote, Json.number_to_string, Json.dquote.
  do 2 f_equal. subst q. cbn [Json.quote_body Json.quote_char].
  repeat (rewrite ?append_assoc; cbn [append]). reflexivity.
Qed.

(** C9: a request whose path, query string apart, is not [/mcp] is answered
    404 with the text [Not found]; the answer does not depend on the method
    or on any header (the session id header is never looked at), no session
    is constructed and the world, session table included, is untouched. *)
Theorem other_paths_not_found (req : IncomingMessage) (r : ServerResponse) (w : World) :
  http_path req <> "/mcp" ->
  handleHttpRequest req {| res := r; world := w |} =
    (Normal tt, {| res := res_end "Not found" (set_statusCode 404 r); world := w |})
  /\ (forall m h,
        handleHttpRequest {| url := url req; method := m; req_headers := h |}
                          {| res := r; world := w |}
        = handleHttpRequest req {| res := r; world := w |})
  /\ snd (serve req w) =
       {| res := {| statusCode := 404; res_headers := []; phase := Ended;
                    body := ["Not found"] |};
          world := w |}.
Proof.
  intros P.
  assert (E : forall q, http_path q = http_path req ->
                handleHttpRequest q {| res := r; world := w |} =
                (Normal tt, {| res := res_end "Not found" (set_statusCode 404 r);
                               world := w |})).
  { intros q Hq. unfold handleHttpRequest. rewrite Hq.
    apply String.eqb_neq in P. rewrite P. reflexivity. }
  split; [|split].
  - now apply E.
  - intros m h. rewrite (E req eq_refl). now apply E.
  - unfold serve, handleHttpRequest.
    apply String.eqb_neq in P. rewrite P. reflexivity.
Qed.

Lemma dispatch_unknown_session
  (req : IncomingMessage) (d : Dispatch) (id : string) :
  http_path req = "/mcp" ->
  getSessionIdHeader req = Some id ->
  id <> EmptyString ->
  JsMap.get id (activeSessions (world d)) = None ->
  handleHttpRequest req d =
    (Normal tt,
     {| res := writeJsonError (res d) 404 (-32001) "Session not found";
        world := world d |}).
Proof.
  intros P H N G.
  unfold handleHttpRequest. rewrite P. simpl (negb _).
  cbv iota zeta. rewrite getSessionIdHeader_ensure, H.
  destruct (truthy_nonempty N) as (c & s & ->).
  unfold bind, in_world, activeSessions_get, on_res, ret. simpl.
  rewrite G. reflexivity.
Qed.

(** C5: a request to [/mcp] whose session id is not in the table is handed
    the session-not-found error (status 404, code -32001) and nothing else
    happens: no session is constructed and the world, session table
    included, is left as it was.  On the response the listener provides the
    caller receives exactly that error, whose text differs from that of the
    missing-session-id (-32000) and internal (-32603) errors whatever their
    messages. *)
Theorem unknown_session_rejected
  (req : IncomingMessage) (r : ServerResponse) (w : World) (id : string) :
  http_path req = "/mcp" ->
  getSessionIdHeader req = Some id ->
  id <> EmptyString ->
  JsMap.get id (activeSessions w) = None ->
  handleHttpRequest req {| res := r; world := w |} =
    (Normal tt,
     {| res := writeJsonError r 404 (-32001) "Session not found"; world := w |})
  /\ serve req w =
       (Normal tt,
        {| res := {| statusCode := 404;
                     res_headers := [("content-type", "application/json")];
                     phase := Ended;
                     body := [Json.stringify
                                (jsonrpc_error (-32001) "Session not found")] |};
           world := w |})
  /\ (forall m,
        Json.stringify (jsonrpc_error (-32001) "Session not found")
          <> Json.stringify (jsonrpc_error (-32000) m) /\
        Json.stringify (jsonrpc_error (-32001) "Session not found")
          <> Json.stringify (jsonrpc_error (-32603) m)).
Proof.
  intros P H N G. split; [|split].
  - now rewrite (dispatch_unknown_session req {| res := r; world := w |} P H N G).
  - unfold serve.
    now rewrite (dispatch_unknown_session req
                   {| res := fresh_response; world := w |} P H N G).
  - intros m. destruct (error_codes_distinct "Session not found" m) as (A & B & _).
    now split.
Qed.

(** C6: a request to [/mcp] without a session id whose method is not [POST]
    is handed the missing-session-id error (status 400, code -32000) and
    nothing else happens: no session is constructed and the world, session
    table included, is left as it was.  On the response the listener
    provides the caller receives exactly that error. *)
Theorem missing_session_id_rejected
  (req : IncomingMessage) (r : ServerResponse) (w : World) :
  http_path req = "/mcp" ->
  JsString.truthy (getSessionIdHeader req) = false ->
  http_method req <> "POST" ->
  handleHttpRequest req {| res := r; world := w |} =
    (Normal tt,
     {| res := writeJsonError r 400 (-32000)
                 "Bad Request: Mcp-Session-Id header is required";
        world := w |})
  /\ serve req w =
       (Normal tt,
        {| res := {| statusCode := 400;
                     res_headers := [("content-type", "application/json")];
                     phase := Ended;
                     body := [Json.stringify
                                (jsonrpc_error (-32000)
                                   "Bad Request: Mcp-Session-Id header is required")] |};
           world := w |}).
Proof.
  intros P H M.
  assert (E : forall r0 : ServerResponse,
            handleHttpRequest req {| res := r0; world := w |} =
            (Normal tt,
             {| res := writeJsonError r0 400 (-32000)
                         "Bad Request: Mcp-Session-Id header is required";
                world := w |})).
  { intros r0. unfold handleHttpRequest. rewrite P. simpl (negb _). cbv iota zeta.
    rewrite getSessionIdHeader_ensure, http_method_ensure.
    apply String.eqb_neq in M. rewrite M.
    destruct (getSessionIdHeader req) as [[|c s]|]; try discriminate H;
      reflexivity. }
  split; [apply E|]. unfold serve. now rewrite E.
Qed.

End RouterFacts.

(** ** What a dispatch may do to the session table *)

(** Case analysis on the next answer of a collaborator, and the unfolding
    of the router's operations. *)
Ltac oracle :=
  match goal with
  | |- context [sdk_handleRequest ?a ?b ?c ?d] =>
      destruct (sdk_handleRequest a b c d) as [[[] ?] ?] eqn:?
  | |- context [sdk_sessionId ?a ?b] =>
      destruct (sdk_sessionId a b) as [[|? ?]|] eqn:?
  | |- context [JsMap.has ?a ?b] => destruct (JsMap.has a b) eqn:?
  | |- context [sdk_transport_close ?a ?b] =>
      destruct (sdk_transport_close a b) as [[] ?] eqn:?
  | |- context [sdk_server_close ?a ?b] =>
      destruct (sdk_server_close a b) as [[] ?] eqn:?
  | |- context [String.eqb ?m "DELETE"] =>
      destruct (String.eqb_spec m "DELETE")
  end; simpl.

Ltac unfold_ops :=
  unfold try_catch, forward, on_fault, swallow, try_catch, bind, in_world,
    transport_handleRequest, transport_sessionId, transport_close,
    server_close, console_error, activeSessions_has, activeSessions_set,
    activeSessions_delete, on_res, ret, settle; simpl.

Section DispatchFacts.
Context {sdk : Sdk}.

Lemma guarded_dispatch_table
  (req : IncomingMessage) (method : string) (sid : option string)
  (st : SessionState) (created : bool) (d : Dispatch) :
  exists ins del,
    activeSessions (world (snd (try_catch (forward req method sid st created)
                                          (on_fault st created) d)))
      = removed del (registered ins (activeSessions (world d)))
    /\ (forall e s, ins = Some (e, s) ->
          s = st /\ e <> EmptyString /\
          JsMap.has e (activeSessions (world d)) = false /\
          exists r1 x1,
            sdk_handleRequest (transport st) req (res d) (ext (world d))
              = (Fulfilled, r1, x1)
            /\ sdk_sessionId (transport st) x1 = Some e)
    /\ (forall k, del = Some k ->
          method = "DELETE" /\ sid = Some k /\ k <> EmptyString /\
          exists r1 x1,
            sdk_handleRequest (transport st) req (res d) (ext (world d))
              = (Fulfilled, r1, x1)).
Proof.
  destruct d as [r w]. unfold_ops.
  destruct created, sid as [[|c s]|]; repeat oracle.
  all: first
    [ exists None, None; split; [reflexivity|];
      split; [intros ? ? [=] | intros ? [=]]
    | eexists (Some (_, _)), None; split; [reflexivity|];
      split; [intros ? ? [=]; subst; repeat split; eauto; discriminate
             | intros ? [=]]
    | eexists None, (Some _); split; [reflexivity|];
      split; [intros ? ? [=]
             | intros ? [=]; subst; repeat split; eauto; discriminate]
    | eexists (Some (_, _)), (Some _); split; [reflexivity|];
      split; [intros ? ? [=]; subst; repeat split; eauto; discriminate
             | intros ? [=]; subst; repeat split; eauto; discriminate] ].
Qed.

Lemma table_change_none (req : IncomingMessage) (m : JsMap.t SessionState) :
  table_change req m m.
Proof. exists None, None. repeat split; intros; discriminate. Qed.

Lemma dispatch_table (req : IncomingMessage) (d : Dispatch) :
  table_change req (activeSessions (world d))
               (activeSessions (world (snd (handleHttpRequest req d)))).
Proof.
  unfold handleHttpRequest.
  destruct (negb (http_path req =? "/mcp")%string); [apply table_change_none|].
  cbv zeta. rewrite getSessionIdHeader_ensure, http_method_ensure.
  destruct (getSessionIdHeader req) as [[|c s]|] eqn:H.
  2:{ unfold bind at 1; unfold bind at 1; unfold in_world at 1, activeSessions_get.
      destruct (JsMap.get (String c s) (activeSessions (world d))) as [st|] eqn:G;
        simpl; [| apply table_change_none].
      destruct (guarded_dispatch_table (ensureAcceptHeader req) (http_method req)
                  (Some (String c s)) st false d) as (ins & del & E & I & D).
      destruct d as [r w]. simpl in *.
      exists ins, del; split; [exact E|]; split.
      - intros e s0 Hi. destruct (I e s0 Hi) as (-> & ? & ? & r1 & x1 & ? & ?).
        repeat split; eauto 10.
      - intros k Hk. destruct (D k Hk) as (? & Q & N & r1 & x1 & F).
        injection Q as <-. repeat split; eauto 10. }
  all: destruct (String.eqb (http_method req) "POST") eqn:M;
    [| unfold bind, on_res, ret; simpl; apply table_change_none].
  all: unfold bind at 1; unfold bind at 1; unfold in_world at 1;
    unfold createSessionState;
    destruct (sdk_connect _ _ _) as [[] x0] eqn:C; simpl;
    [| apply table_change_none].
  all: match goal with
       | |- context [try_catch (forward ?q ?m ?i ?st ?c) _ ?d0] =>
           destruct (guarded_dispatch_table q m i st c d0)
             as (ins & del & E & I & D)
       end;
    exists ins, del; split; [exact E|]; split;
    [ intros e s0 Hi; destruct (I e s0 Hi) as (-> & ? & ? & r1 & x1 & ? & ?);
      repeat split; eauto 10
    | intros k Hk; destruct (D k Hk) as (_ & Q & N & _);
      try discriminate Q; injection Q as <-; congruence ].
Qed.
End DispatchFacts.

(** ** Dispatches on a registered session *)

Section RegisteredSession.
Context {sdk : Sdk}.

Lemma dispatch_known_session
  (req : IncomingMessage) (d : Dispatch) (id : string) (st : SessionState) :
  http_path req = "/mcp" ->
  getSessionIdHeader req = Some id ->
  id <> EmptyString ->
  JsMap.get id (activeSessions (world d)) = Some st ->
  handleHttpRequest req d =
    try_catch (forward (ensureAcceptHeader req) (http_method req) (Some id) st false)
              (on_fault st false) d.
Proof.
  intros P H N G.
  unfold handleHttpRequest. rewrite P. simpl (negb _). cbv iota zeta.
  rewrite getSessionIdHeader_ensure, http_method_ensure, H.
  destruct (truthy_nonempty N) as (c & s & ->).
  unfold bind at 1. unfold bind at 1. unfold in_world at 1, activeSessions_get.
  rewrite G. reflexivity.
Qed.

Lemma present_after_registered (m : JsMap.t SessionState)
  (ins : option (string * SessionState)) (k : string) :
  JsMap.get k m <> None -> JsMap.get k (registered ins m) <> None.
Proof.
  destruct ins as [[e s]|]; simpl; auto.
  intros H. destruct (String.eqb_spec k e) as [->|D].
  - rewrite JsMapFacts.get_set_same. discriminate.
  - now rewrite JsMapFacts.get_set_other.
Qed.

(** C7 (amended): when forwarding to a registered session raises a fault,
    the table is left exactly as it was, no close routine is called and the
    fault is logged.  What the caller receives depends on how far the
    transport had got: when it had sent no headers, the response is the
    internal error (500, -32603), written in one chunk; when it had started
    the response, the response stays as the transport left it and no error
    is written.  In general an id present before a dispatch and absent after
    it was carried by a [DELETE] request whose forwarding was fulfilled. *)
Theorem fault_keeps_registered_session :
  (forall (req : IncomingMessage) (r : ServerResponse) (w : World) (id : string)
          (st : SessionState) (r1 : ServerResponse) (x1 : Ext),
     http_path req = "/mcp" ->
     getSessionIdHeader req = Some id ->
     id <> EmptyString ->
     JsMap.get id (activeSessions w) = Some st ->
     sdk_handleRequest (transport st) (ensureAcceptHeader req) r (ext w)
       = (Rejected, r1, x1) ->
     let q := String (ascii_of_nat 34) EmptyString in
     exists d',
       handleHttpRequest req {| res := r; world := w |} = (Normal tt, d')
       /\ activeSessions (world d') = activeSessions w
       /\ JsMap.get id (activeSessions (world d')) = Some st
       /\ trace (world d') =
            (trace w ++ [EvHandleRequest (transport st) (ensureAcceptHeader req);
                         EvConsoleError "HTTP transport request error:"])%list
       /\ (headersSent r1 = true -> res d' = r1)
       /\ (headersSent r1 = false ->
           res d' =
             {| statusCode := 500;
                res_headers :=
                  ("content-type", "application/json") ::
                  filter (fun h => negb (String.eqb (fst h) "content-type"))
                         (res_headers r1);
                phase := Ended;
                body :=
                  (body r1 ++
                   [("{" ++ q ++ "jsonrpc" ++ q ++ ":" ++ q ++ "2.0" ++ q ++ "," ++
                     q ++ "error" ++ q ++ ":{" ++
                       q ++ "code" ++ q ++ ":-32603," ++
                       q ++ "message" ++ q ++ ":"
                         ++ q ++ "Internal server error" ++ q ++ "}," ++
                     q ++ "id" ++ q ++ ":null}")%string])%list |}))
  /\ (forall (req : IncomingMessage) (d : Dispatch) (k : string),
        JsMap.get k (activeSessions (world d)) <> None ->
        JsMap.get k (activeSessions (world (snd (handleHttpRequest req d)))) = None ->
        http_method req = "DELETE" /\ getSessionIdHeader req = Some k /\
        exists st r0 x0 r1 x1,
          JsMap.get k (activeSessions (world d)) = Some st /\
          sdk_handleRequest (transport st) (ensureAcceptHeader req) r0 x0
            = (Fulfilled, r1, x1)).
Proof.
  split.
  - intros req r w id st r1 x1 P H N G F q.
    rewrite (dispatch_known_session req {| res := r; world := w |} P H N G).
    unfold try_catch, forward, bind at 1.
    unfold transport_handleRequest at 1. simpl. rewrite F. simpl.
    eexists. split; [reflexivity|]. split; [reflexivity|]. split; [exact G|].
    split; [simpl; now rewrite <- app_assoc|]. cbn [res]. split.
    + apply writeJsonError_sent.
    + intros S. rewrite (writeJsonError_idle _ _ _ _ S). reflexivity.
  - intros req d k Before After.
    destruct (dispatch_table req d) as (ins & del & E & _ & D).
    rewrite E in After.
    assert (Mid := Before). apply present_after_registered with (ins := ins) in Mid.
    destruct del as [k'|]; simpl in After; [|contradiction].
    destruct (String.eqb_spec k k') as [->|Dk].
    + destruct (D k' eq_refl) as (M & Hd & _ & W). auto.
    + rewrite JsMapFacts.get_delete_other in After by assumption. contradiction.
Qed.

End RegisteredSession.

(** ** Dispatches that construct a session *)

Section NewSession.
Context {sdk : Sdk}.

Lemma dispatch_new_session
  (req : IncomingMessage) (r : ServerResponse) (w : World) (x0 : Ext) :
  http_path req = "/mcp" ->
  JsString.truthy (getSessionIdHeader req) = false ->
  http_method req = "POST" ->
  sdk_connect (server (fresh_session w)) (transport (fresh_session w)) (ext w)
    = (Fulfilled, x0) ->
  handleHttpRequest req {| res := r; world := w |} =
    try_catch (forward (ensureAcceptHeader req) "POST" (getSessionIdHeader req)
                       (fresh_session w) true)
              (on_fault (fresh_session w) true)
      {| res := r;
         world := {| activeSessions := activeSessions w;
                     activeHttpServer := activeHttpServer w;
                     activeStdioServer := activeStdioServer w;
                     next_oid := S (S (next_oid w));
                     ext := x0;
                     trace := (trace w ++ [EvConnect (server (fresh_session w))
                                             (transport (fresh_session w))])%list |} |}.
Proof.
  intros P H M C.
  unfold handleHttpRequest. rewrite P. simpl (negb _). cbv iota zeta.
  rewrite getSessionIdHeader_ensure, http_method_ensure, M.
  unfold fresh_session in C. simpl in C.
  destruct (getSessionIdHeader req) as [[|c s]|]; try discriminate H;
    simpl; unfold bind at 1; unfold bind at 1;
    unfold in_world at 1, createSessionState; simpl; rewrite C; reflexivity.
Qed.

(** C3 (amended): when forwarding on a session constructed for the request
    raises a fault, the router calls the close of its transport and of its
    handler, logs the fault, leaves the table as it was, and hands the
    internal error (500, -32603) to [writeJsonError]: the error response is
    written when no headers had been sent, and the response is left as the
    transport left it when they had. *)
Theorem fault_on_new_session_tears_down
  (req : IncomingMessage) (r : ServerResponse) (w : World)
  (x0 : Ext) (r1 : ServerResponse) (x1 : Ext) :
  http_path req = "/mcp" ->
  JsString.truthy (getSessionIdHeader req) = false ->
  http_method req = "POST" ->
  sdk_connect (server (fresh_session w)) (transport (fresh_session w)) (ext w)
    = (Fulfilled, x0) ->
  sdk_handleRequest (transport (fresh_session w)) (ensureAcceptHeader req) r x0
    = (Rejected, r1, x1) ->
  exists w',
    handleHttpRequest req {| res := r; world := w |} =
      (Normal tt,
       {| res := writeJsonError r1 500 (-32603) "Internal server error";
          world := w' |})
    /\ activeSessions w' = activeSessions w
    /\ trace w' =
         (trace w ++
          [EvConnect (server (fresh_session w)) (transport (fresh_session w));
           EvHandleRequest (transport (fresh_session w)) (ensureAcceptHeader req);
           EvTransportClose (transport (fresh_session w));
           EvServerClose (server (fresh_session w));
           EvConsoleError "HTTP transport request error:"])%list
    /\ (headersSent r1 = false ->
        statusCode (writeJsonError r1 500 (-32603) "Internal server error") = 500
        /\ phase (writeJsonError r1 500 (-32603) "Internal server error") = Ended
        /\ body (writeJsonError r1 500 (-32603) "Internal server error") =
             (body r1 ++
              [Json.stringify (jsonrpc_error (-32603) "Internal server error")])%list)
    /\ (headersSent r1 = true ->
        writeJsonError r1 500 (-32603) "Internal server error" = r1).
Proof.
  intros P H M C F.
  rewrite (@dispatch_new_session req r w x0 P H M C).
  unfold fresh_session in *. simpl in F.
  unfold try_catch, forward, bind at 1.
  unfold transport_handleRequest at 1. simpl. rewrite F. simpl.
  unfold on_fault, bind, in_world, swallow, try_catch, transport_close,
    server_close, console_error, on_res, ret, settle. simpl.
  destruct (sdk_transport_close _ x1) as [[] x2]; simpl;
    destruct (sdk_server_close _ x2) as [[] x3]; simpl.
  all: eexists; split; [reflexivity|]; split; [reflexivity|]; split;
    [simpl; rewrite <- !app_assoc; reflexivity|]; split.
  all: try (intros S; rewrite (writeJsonError_idle _ _ _ _ S); simpl; auto).
  all: apply writeJsonError_sent.
Qed.

(** C2, first half: what a dispatch does when the session it constructed
    reports no identifier after a fulfilled forwarding. *)
Lemma unestablished_session_discarded
  (req : IncomingMessage) (r : ServerResponse) (w : World)
  (x0 : Ext) (r1 : ServerResponse) (x1 : Ext) :
  http_path req = "/mcp" ->
  JsString.truthy (getSessionIdHeader req) = false ->
  http_method req = "POST" ->
  sdk_connect (server (fresh_session w)) (transport (fresh_session w)) (ext w)
    = (Fulfilled, x0) ->
  sdk_handleRequest (transport (fresh_session w)) (ensureAcceptHeader req) r x0
    = (Fulfilled, r1, x1) ->
  JsString.truthy (sdk_sessionId (transport (fresh_session w)) x1) = false ->
  exists d' tail,
    handleHttpRequest req {| res := r; world := w |} = (Normal tt, d')
    /\ activeSessions (world d') = activeSessions w
    /\ trace (world d') =
         (trace w ++
          [EvConnect (server (fresh_session w)) (transport (fresh_session w));
           EvHandleRequest (transport (fresh_session w)) (ensureAcceptHeader req);
           EvTransportClose (transport (fresh_session w))] ++ tail)%list
    /\ In (EvServerClose (server (fresh_session w))) tail
    /\ (fst (sdk_transport_close (transport (fresh_session w)) x1) = Fulfilled ->
        fst (sdk_server_close (server (fresh_session w))
               (snd (sdk_transport_close (transport (fresh_session w)) x1)))
          = Fulfilled ->
        tail = [EvServerClose (server (fresh_session w))] /\ res d' = r1).
Proof.
  intros P H M C F E.
  rewrite (@dispatch_new_session req r w x0 P H M C).
  unfold try_catch, forward, on_fault, swallow, try_catch, bind, in_world,
    transport_handleRequest, transport_sessionId, transport_close,
    server_close, console_error, on_res, ret, settle.
  unfold fresh_session in *. simpl in F, E.
  simpl. rewrite F. simpl.
  destruct (sdk_sessionId _ x1) as [[|c s]|]; try discriminate E; simpl.
  all: destruct (getSessionIdHeader req) as [[|c' s']|]; try discriminate H; simpl.
  all: repeat oracle.
  all: eexists; eexists; split; [reflexivity|]; split; [reflexivity|]; split;
    [simpl; rewrite <- !app_assoc; simpl; reflexivity|]; split;
    [simpl; tauto|]; intros A B; try discriminate A; try discriminate B;
    split; reflexivity.
Qed.

End NewSession.

(** ** Invariants of the session table *)

Section TableInvariants.
Context {sdk : Sdk}.

Lemma table_change_wf (req : IncomingMessage) (m m' : JsMap.t SessionState) :
  JsMap.wf m -> table_change req m m' -> JsMap.wf m'.
Proof.
  intros W (ins & del & -> & I & _).
  assert (W1 : JsMap.wf (registered ins m)).
  { destruct ins as [[e s]|]; simpl; auto.
    destruct (I e s eq_refl) as (_ & A & _). now apply JsMapFacts.wf_set. }
  destruct del as [k|]; simpl; auto. now apply JsMapFacts.wf_delete.
Qed.

Lemma table_change_entry (req : IncomingMessage) (m m' : JsMap.t SessionState)
  (k : string) (st : SessionState) :
  JsMap.wf m -> table_change req m m' ->
  JsMap.get k m' = Some st ->
  JsMap.get k m = Some st \/
  (k <> EmptyString /\ JsMap.has k m = false /\
   exists r0 x0 r1 x1,
     sdk_handleRequest (transport st) (ensureAcceptHeader req) r0 x0
       = (Fulfilled, r1, x1)
     /\ sdk_sessionId (transport st) x1 = Some k).
Proof.
  intros W (ins & del & -> & I & _) G.
  assert (W1 : JsMap.wf (registered ins m)).
  { destruct ins as [[e s]|]; simpl; auto.
    destruct (I e s eq_refl) as (_ & A & _). now apply JsMapFacts.wf_set. }
  assert (G1 : JsMap.get k (registered ins m) = Some st).
  { destruct del as [k'|]; simpl in G; auto.
    destruct (String.eqb_spec k k') as [->|D].
    - rewrite JsMapFacts.get_delete_same in G by assumption. discriminate.
    - now rewrite JsMapFacts.get_delete_other in G by assumption. }
  destruct ins as [[e s]|]; simpl in G1; auto.
  destruct (String.eqb_spec k e) as [->|D].
  - rewrite JsMapFacts.get_set_same in G1. injection G1 as ->.
    right. destruct (I e st eq_refl) as (A & B & C). auto.
  - left. now rewrite JsMapFacts.get_set_other in G1 by assumption.
Qed.

Lemma reachable_wf (w : World) : reachable w -> JsMap.wf (activeSessions w).
Proof.
  induction 1 as [x | req r w R IH].
  - apply JsMapFacts.wf_empty.
  - exact (table_change_wf IH (dispatch_table req {| res := r; world := w |})).
Qed.

(** C2: a dispatch that constructs a session which, after a fulfilled
    forwarding, reports no identifier leaves the table as it was and, once
    the response is written, calls the transport's close and the handler's
    close; and in every world the server reaches, each entry of the table is
    held under a non-empty id that the entry's transport reported after a
    fulfilled forwarding. *)
Theorem only_established_sessions_registered :
  (forall (req : IncomingMessage) (r : ServerResponse) (w : World)
          (x0 : Ext) (r1 : ServerResponse) (x1 : Ext),
     http_path req = "/mcp" ->
     JsString.truthy (getSessionIdHeader req) = false ->
     http_method req = "POST" ->
     sdk_connect (server (fresh_session w)) (transport (fresh_session w)) (ext w)
       = (Fulfilled, x0) ->
     sdk_handleRequest (transport (fresh_session w)) (ensureAcceptHeader req) r x0
       = (Fulfilled, r1, x1) ->
     JsString.truthy (sdk_sessionId (transport (fresh_session w)) x1) = false ->
     exists d' tail,
       handleHttpRequest req {| res := r; world := w |} = (Normal tt, d')
       /\ activeSessions (world d') = activeSessions w
       /\ trace (world d') =
            (trace w ++
             [EvConnect (server (fresh_session w)) (transport (fresh_session w));
              EvHandleRequest (transport (fresh_session w)) (ensureAcceptHeader req);
              EvTransportClose (transport (fresh_session w))] ++ tail)%list
       /\ In (EvServerClose (server (fresh_session w))) tail
       /\ (fst (sdk_transport_close (transport (fresh_session w)) x1) = Fulfilled ->
           fst (sdk_server_close (server (fresh_session w))
                  (snd (sdk_transport_close (transport (fresh_session w)) x1)))
             = Fulfilled ->
           tail = [EvServerClose (server (fresh_session w))] /\ res d' = r1))
  /\ (forall w : World, reachable w ->
      forall (k : string) (st : SessionState),
        JsMap.get k (activeSessions w) = Some st ->
        k <> EmptyString /\
        exists req r0 x0 r1 x1,
          sdk_handleRequest (transport st) req r0 x0 = (Fulfilled, r1, x1)
          /\ sdk_sessionId (transport st) x1 = Some k).
Proof.
  split.
  - intros. now apply unestablished_session_discarded with (x0 := x0).
  - induction 1 as [x | req r w R IH]; intros k st G.
    + discriminate G.
    + destruct (@table_change_entry req _ _ k st (reachable_wf R)
                  (dispatch_table req {| res := r; world := w |}) G)
        as [Old | (N & _ & r0 & x0 & r1 & x1 & F & S)].
      * now apply IH.
      * split; [exact N|]. eauto 10.
Qed.

End TableInvariants.

(** ** Shutdown *)

Section Shutdown.
Context {sdk : Sdk}.

Lemma entries_all_empty (V : Type) (n : nat) :
  JsMap.entries (repeat (@None (string * V)) n) = [].
Proof. induction n; simpl; auto. Qed.

Lemma get_all_empty (V : Type) (n : nat) (k : string) :
  JsMap.get k (repeat (@None (string * V)) n) = None.
Proof. induction n; simpl; auto. Qed.

Lemma entries_skip_empty (V : Type) (n : nat) (m : JsMap.t V) :
  JsMap.entries (repeat None n ++ m)%list = JsMap.entries m.
Proof. induction n; simpl; auto. Qed.

Lemma delete_first_live (V : Type) (n : nat) (k : string) (v : V) (rest : JsMap.t V) :
  JsMap.delete k (repeat None n ++ Some (k, v) :: rest)%list
  = (repeat None n ++ None :: rest)%list.
Proof.
  induction n; simpl.
  - now rewrite String.eqb_refl.
  - now rewrite IHn.
Qed.

Lemma empties_snoc (V : Type) (n : nat) (rest : JsMap.t V) :
  (repeat None n ++ None :: rest)%list = (repeat None (S n) ++ rest)%list.
Proof.
  change (None :: rest) with ([@None (string * V)] ++ rest)%list.
  rewrite app_assoc, <- repeat_cons. reflexivity.
Qed.

Lemma nth_error_after_empties (V : Type) (n : nat) (m : JsMap.t V) :
  nth_error (repeat None n ++ m)%list n = nth_error m 0.
Proof.
  rewrite nth_error_app2; rewrite repeat_length; [|lia].
  now rewrite Nat.sub_diag.
Qed.

(** One turn of the loop: the entry is removed and both close routines are
    called, however they settle. *)
Lemma drain_one_run (k : string) (st : SessionState) (w : World) :
  exists w',
    drain_one k st w = (Normal tt, w')
    /\ activeSessions w' = JsMap.delete k (activeSessions w)
    /\ activeHttpServer w' = activeHttpServer w
    /\ activeStdioServer w' = activeStdioServer w
    /\ trace w' = (trace w ++ teardown st)%list.
Proof.
  unfold drain_one, bind, swallow, try_catch, activeSessions_delete,
    transport_close, server_close, ret, settle, teardown. simpl.
  destruct (sdk_transport_close _ _) as [[] x1]; simpl;
    destruct (sdk_server_close _ _) as [[] x2]; simpl;
    eexists; repeat split; simpl; now rewrite <- app_assoc.
Qed.

(** The loop visits every live entry after the iterator's position. *)
Lemma drain_loop (suffix : JsMap.t SessionState) :
  forall (fuel index : nat) (w : World),
    activeSessions w = (repeat None index ++ suffix)%list ->
    (List.length suffix <= fuel)%nat ->
    exists w',
      for_of_activeSessions fuel index drain_one w = (Normal tt, w')
      /\ activeSessions w' = repeat None (index + List.length suffix)
      /\ activeHttpServer w' = activeHttpServer w
      /\ activeStdioServer w' = activeStdioServer w
      /\ trace w' =
           (trace w ++ flat_map (fun e => teardown (snd e)) (JsMap.entries suffix))%list.
Proof.
  induction suffix as [|slot rest IH]; intros fuel index w E L.
  - exists w. rewrite app_nil_r in E.
    assert (N : nth_error (activeSessions w) index = None).
    { rewrite E. apply nth_error_None. rewrite repeat_length. lia. }
    destruct fuel; simpl; rewrite N; simpl;
      rewrite Nat.add_0_r, app_nil_r; auto.
  - assert (N : nth_error (activeSessions w) index = Some slot).
    { rewrite E, nth_error_after_empties. reflexivity. }
    destruct fuel as [|fuel]; [simpl in L; lia|].
    simpl in L. simpl. rewrite N.
    destruct slot as [[k st]|].
    + destruct (drain_one_run k st w) as (w1 & R1 & S1 & H1 & D1 & T1).
      unfold bind. rewrite R1.
      rewrite E, delete_first_live, empties_snoc in S1.
      destruct (IH fuel (S index) w1 S1 ltac:(lia)) as (w' & R & S' & H' & D' & T').
      exists w'. split; [exact R|].
      split; [rewrite S'; f_equal; lia|].
      split; [congruence|]. split; [congruence|].
      rewrite T', T1. simpl. now rewrite <- app_assoc.
    + rewrite empties_snoc in E.
      destruct (IH fuel (S index) w E ltac:(lia)) as (w' & R & S' & H' & D' & T').
      exists w'. split; [exact R|].
      split; [rewrite S'; f_equal; lia|]. auto.
Qed.

(** C8 (amended): when there is no listener, or the listener closes without
    an error, [shutdown] removes every entry of the table and calls, for
    each entry in turn, the transport's close and the handler's close once,
    whether or not those calls fail; it then exits with status 0. *)
Theorem shutdown_drains_every_session (fuel : nat) (w : World) :
  (forall h, activeHttpServer w = Some h ->
             fst (node_http_close h (ext w)) = Fulfilled) ->
  (List.length (activeSessions w) <= fuel)%nat ->
  exists w',
    shutdown fuel w = (Normal tt, w')
    /\ JsMap.size (activeSessions w') = 0%nat
    /\ (forall k, JsMap.get k (activeSessions w') = None)
    /\ trace w' =
         (trace w ++
          match activeHttpServer w with Some _ => [EvHttpClose] | None => [] end ++
          flat_map (fun e => teardown (snd e)) (JsMap.entries (activeSessions w)) ++
          match activeStdioServer w with Some s => [EvServerClose s] | None => [] end ++
          [EvExit 0])%list.
Proof.
  intros Listener Fuel.
  assert (Start : exists w0,
            (match activeHttpServer w with
             | Some h => httpServer_close h
             | None => ret tt
             end) w = (Normal tt, w0)
            /\ activeSessions w0 = activeSessions w
            /\ activeHttpServer w0 = activeHttpServer w
            /\ activeStdioServer w0 = activeStdioServer w
            /\ trace w0 =
                 (trace w ++ match activeHttpServer w with
                             | Some _ => [EvHttpClose] | None => [] end)%list).
  { destruct (activeHttpServer w) as [h|] eqn:A.
    - specialize (Listener h eq_refl). unfold httpServer_close.
      destruct (node_http_close h (ext w)) as [o x]. simpl in Listener. subst o.
      eexists. repeat split; simpl; auto.
    - exists w. unfold ret. rewrite app_nil_r. auto. }
  destruct Start as (w0 & R0 & S0 & H0 & D0 & T0).
  destruct (@drain_loop (activeSessions w) fuel 0%nat w0) as (w1 & R1 & S1 & H1 & D1 & T1);
    [simpl; exact S0 | exact Fuel |].
  unfold shutdown, bind. rewrite R0, R1.
  assert (Stdio : exists w2,
            (match activeStdioServer w1 with
             | Some s => swallow (server_close s) w1
             | None => ret tt w1
             end) = (Normal tt, w2)
            /\ activeSessions w2 = activeSessions w1
            /\ trace w2 =
                 (trace w1 ++ match activeStdioServer w with
                              | Some s => [EvServerClose s] | None => [] end)%list).
  { rewrite D1, D0. destruct (activeStdioServer w) as [s|].
    - unfold swallow, try_catch, server_close, ret, settle.
      destruct (sdk_server_close s (ext w1)) as [[] x]; simpl; eexists;
        (split; [reflexivity|]; split; reflexivity).
    - exists w1. unfold ret. rewrite app_nil_r. auto. }
  destruct Stdio as (w2 & R2 & S2 & T2).
  rewrite R2. unfold process_exit. eexists. split; [reflexivity|].
  simpl. rewrite S2, S1. simpl.
  split; [unfold JsMap.size; now rewrite entries_all_empty|].
  split; [intros k; apply get_all_empty|].
  rewrite T2, T1, T0. now rewrite <- !app_assoc.
Qed.

End Shutdown.

(* ------------------------------------------------------------------ *)
(** ** The statements at concrete inputs *)

Import Scripted.

Lemma unknown_session_rejected_witness :
  serve (request "GET" (Some "nope"))
        (world_of one_session true 2 (calm [(1%nat, "abc")]))
  = (Normal tt,
     {| res := {| statusCode := 404;
                  res_headers := [("content-type", "application/json")];
                  phase := Ended;
                  body := [Json.stringify (jsonrpc_error (-32001) "Session not found")] |};
        world := world_of one_session true 2 (calm [(1%nat, "abc")]) |}).
Proof.
  refine (proj1 (proj2 (@unknown_session_rejected scripted
            (request "GET" (Some "nope")) fresh_response
            (world_of one_session true 2 (calm [(1%nat, "abc")])) "nope"
            _ _ _ _)));
    [reflexivity | reflexivity | discriminate | reflexivity].
Defined.

Lemma missing_session_id_rejected_witness :
  serve (request "get" None)
        (world_of one_session true 2 (calm [(1%nat, "abc")]))
  = (Normal tt,
     {| res := {| statusCode := 400;
                  res_headers := [("content-type", "application/json")];
                  phase := Ended;
                  body := [Json.stringify
                             (jsonrpc_error (-32000)
                                "Bad Request: Mcp-Session-Id header is required")] |};
        world := world_of one_session true 2 (calm [(1%nat, "abc")]) |}).
Proof.
  refine (proj2 (@missing_session_id_rejected scripted (request "get" None)
            fresh_response (world_of one_session true 2 (calm [(1%nat, "abc")]))
            _ _ _));
    [reflexivity | reflexivity | discriminate].
Defined.

Lemma other_paths_not_found_witness :
  snd (serve {| url := Some "/mcp/x?session=abc"; method := Some "POST";
                req_headers := {| accept := None;
                                  mcp_session_id := Some (HString "abc") |} |}
             (world_of one_session true 2 (calm [(1%nat, "abc")])))
  = {| res := {| statusCode := 404; res_headers := []; phase := Ended;
                 body := ["Not found"] |};
       world := world_of one_session true 2 (calm [(1%nat, "abc")]) |}.
Proof.
  apply (@other_paths_not_found scripted
           {| url := Some "/mcp/x?session=abc"; method := Some "POST";
              req_headers := {| accept := None;
                                mcp_session_id := Some (HString "abc") |} |}
           fresh_response (world_of one_session true 2 (calm [(1%nat, "abc")]))).
  vm_compute. discriminate.
Defined.

Lemma writeJsonError_guarded_single_error_witness :
  let q := String (ascii_of_nat 34) EmptyString in
  statusCode (writeJsonError fresh_response 404 (-32001) "Session not found") = 404
  /\ body (writeJsonError fresh_response 404 (-32001) "Session not found") =
       [("{" ++ q ++ "jsonrpc" ++ q ++ ":" ++ q ++ "2.0" ++ q ++ "," ++
         q ++ "error" ++ q ++ ":{" ++
           q ++ "code" ++ q ++ ":-32001," ++
           q ++ "message" ++ q ++ ":" ++ q ++ "Session not found" ++ q ++ "}," ++
         q ++ "id" ++ q ++ ":null}")%string].
Proof.
  destruct (@writeJsonError_guarded_single_error fresh_response 404 (-32001)
              "Session not found") as (_ & Written & _).
  - lia.
  - split; apply Z.leb_le; reflexivity.
  - destruct (Written eq_refl) as (St & _ & _ & Bd). split; [exact St | exact Bd].
Defined.

Lemma fault_keeps_registered_session_witness :
  exists d',
    handleHttpRequest (request "GET" (Some "abc"))
      {| res := fresh_response; world := world_of one_session true 2 faulty_silent |}
    = (Normal tt, d')
    /\ activeSessions (world d') = one_session
    /\ statusCode (res d') = 500
    /\ phase (res d') = Ended
    /\ body (res d') =
         [Json.stringify (jsonrpc_error (-32603) "Internal server error")].
Proof.
  destruct (proj1 (@fault_keeps_registered_session scripted)
              (request "GET" (Some "abc")) fresh_response
              (world_of one_session true 2 faulty_silent) "abc" (session 0)
              fresh_response faulty_silent)
    as (d' & E & T & _ & _ & _ & R);
    [reflexivity | reflexivity | discriminate | reflexivity | reflexivity |].
  exists d'. rewrite (R eq_refl). repeat split; assumption.
Defined.

(** C7, as stated, fails: the transport of the registered session [abc]
    starts the response and then raises a fault; the entry stays in the
    table, and what the caller gets is the started 200 response, with no
    error in it. *)
Lemma fault_on_started_response_surfaces_no_error :
  let w := world_of one_session true 2 faulty_stream in
  let req := request "GET" (Some "abc") in
  JsMap.get "abc" (activeSessions w) = Some (session 0)
  /\ fst (fst (sdk_handleRequest (transport (session 0))
                 (ensureAcceptHeader req) fresh_response (ext w))) = Rejected
  /\ fst (serve req w) = Normal tt
  /\ activeSessions (world (snd (serve req w))) = one_session
  /\ res (snd (serve req w)) =
       {| statusCode := 200; res_headers := []; phase := Streaming;
          body := ["partial"] |}
  /\ ~ In (Json.stringify (jsonrpc_error (-32603) "Internal server error"))
          (body (res (snd (serve req w)))).
Proof.
  repeat split; try reflexivity.
  vm_compute. intros [H|[]]. discriminate H.
Qed.

Lemma fault_on_new_session_tears_down_witness :
  exists w',
    handleHttpRequest (request "POST" None)
      {| res := fresh_response; world := world_of one_session true 2 faulty_silent |}
    = (Normal tt,
       {| res := writeJsonError fresh_response 500 (-32603) "Internal server error";
          world := w' |})
    /\ activeSessions w' = one_session.
Proof.
  destruct (@fault_on_new_session_tears_down scripted (request "POST" None)
              fresh_response (world_of one_session true 2 faulty_silent)
              faulty_silent fresh_response faulty_silent)
    as (w' & E & T & _);
    [reflexivity | reflexivity | reflexivity | reflexivity | reflexivity |].
  exists w'. split; [exact E | exact T].
Defined.

(** C3, as stated, fails: the transport starts the response and then raises
    a fault; the constructed session is closed and not registered, and what
    the caller gets is the started 200 response, with no internal error in
    it. *)
Lemma fault_after_headers_sent_writes_no_error :
  let w := world_of one_session true 2 faulty_stream in
  let req := request "POST" None in
  JsString.truthy (getSessionIdHeader req) = false
  /\ fst (fst (sdk_handleRequest (transport (fresh_session w))
                 (ensureAcceptHeader req) fresh_response (ext w))) = Rejected
  /\ activeSessions (world (snd (serve req w))) = one_session
  /\ trace (world (snd (serve req w))) =
       [EvConnect (server (fresh_session w)) (transport (fresh_session w));
        EvHandleRequest (transport (fresh_session w)) (ensureAcceptHeader req);
        EvTransportClose (transport (fresh_session w));
        EvServerClose (server (fresh_session w));
        EvConsoleError "HTTP transport request error:"]
  /\ res (snd (serve req w)) =
       {| statusCode := 200; res_headers := []; phase := Streaming;
          body := ["partial"] |}
  /\ ~ In (Json.stringify (jsonrpc_error (-32603) "Internal server error"))
          (body (res (snd (serve req w)))).
Proof.
  repeat split; try reflexivity.
  vm_compute. intros [H|[]]. discriminate H.
Qed.

Lemma only_established_sessions_registered_witness :
  exists d' tail,
    handleHttpRequest (request "POST" None)
      {| res := fresh_response;
         world := world_of one_session true 2 (calm [(1%nat, "abc")]) |}
    = (Normal tt, d')
    /\ activeSessions (world d') = one_session
    /\ tail = [EvServerClose (mkServer 2)]
    /\ res d' = write (Replies "ok") fresh_response.
Proof.
  destruct (proj1 (@only_established_sessions_registered scripted)
              (request "POST" None) fresh_response
              (world_of one_session true 2 (calm [(1%nat, "abc")]))
              (calm [(1%nat, "abc")]) (write (Replies "ok") fresh_response)
              (calm [(1%nat, "abc")]))
    as (d' & tail & E & T & _ & _ & Calm);
    [reflexivity | reflexivity | reflexivity | reflexivity | reflexivity
    | reflexivity |].
  destruct (Calm eq_refl eq_refl) as (Tl & R).
  exists d', tail. repeat split; assumption.
Defined.

Lemma shutdown_drains_every_session_witness :
  exists w',
    shutdown 3 (world_of two_sessions true 4 stubborn) = (Normal tt, w')
    /\ JsMap.size (activeSessions w') = 0%nat
    /\ trace w' =
         [EvHttpClose;
          EvTransportClose (mkTransport 1); EvServerClose (mkServer 0);
          EvTransportClose (mkTransport 3); EvServerClose (mkServer 2);
          EvExit 0].
Proof.
  destruct (@shutdown_drains_every_session scripted 3%nat
              (world_of two_sessions true 4 stubborn))
    as (w' & E & Z & _ & T).
  - intros h _. reflexivity.
  - simpl. lia.
  - exists w'. repeat split; assumption.
Defined.

(** C8, as stated, fails: when the listener's close reports an error,
    [shutdown] is rejected before the loop; the entry stays in the table and
    no close routine of the session is called. *)
Lemma shutdown_stops_when_listener_fails :
  let w := world_of one_session true 2 deaf_listener in
  JsMap.size (activeSessions w) = 1%nat
  /\ fst (shutdown 1 w) = Throw
  /\ JsMap.size (activeSessions (snd (shutdown 1 w))) = 1%nat
  /\ activeSessions (snd (shutdown 1 w)) = one_session
  /\ trace (snd (shutdown 1 w)) = [EvHttpClose].
Proof. repeat split; reflexivity. Qed.

(** The life of one session: a handshake registers it, three reads leave it
    registered, a [DELETE] removes it, and the next request with its id is
    answered with the session-not-found error. *)
Example session_lifecycle :
  let step req w := world (snd (serve req w)) in
  let w0 := world_of (JsMap.empty SessionState) true 0 (calm [(1%nat, "abc")]) in
  let w1 := step (request "POST" None) w0 in
  let w4 := step (request "GET" (Some "abc"))
              (step (request "POST" (Some "abc"))
                 (step (request "GET" (Some "abc")) w1)) in
  let w5 := step (request "DELETE" (Some "abc")) w4 in
  JsMap.size (activeSessions w1) = 1%nat
  /\ JsMap.get "abc" (activeSessions w1) = Some (session 0)
  /\ JsMap.size (activeSessions w4) = 1%nat
  /\ JsMap.size (activeSessions w5) = 0%nat
  /\ res (snd (serve (request "GET" (Some "abc")) w5))
     = writeJsonError fresh_response 404 (-32001) "Session not found".
Proof. repeat split; reflexivity. Qed.

(** Two handshakes whose transports report distinct ids give two entries. *)
Example two_handshakes :
  let step req w := world (snd (serve req w)) in
  let w0 := world_of (JsMap.empty SessionState) true 0
              (calm [(1%nat, "abc"); (3%nat, "def")]) in
  JsMap.entries (activeSessions (step (request "POST" None)
                                   (step (request "POST" None) w0)))
  = [("abc", session 0); ("def", session 2)].
Proof. reflexivity. Qed.

(* ================================================================== *)
(** * Further properties of the router *)

Section DispatchOutcomes.
Context {sdk : Sdk}.

(** Once a session is resolved, the [try]/[catch] of [handleHttpRequest]
    always completes: the [catch] block swallows what its own close calls
    raise.  It allocates no object and leaves the two server variables
    alone. *)
Lemma guarded_dispatch_completes
  (req : IncomingMessage) (method : string) (sid : option string)
  (st : SessionState) (created : bool) (d : Dispatch) :
  fst (try_catch (forward req method sid st created) (on_fault st created) d)
    = Normal tt
  /\ next_oid (world (snd (try_catch (forward req method sid st created)
                                     (on_fault st created) d)))
     = next_oid (world d)
  /\ activeHttpServer (world (snd (try_catch (forward req method sid st created)
                                             (on_fault st created) d)))
     = activeHttpServer (world d)
  /\ activeStdioServer (world (snd (try_catch (forward req method sid st created)
                                              (on_fault st created) d)))
     = activeStdioServer (world d).
Proof.
  destruct d as [r w]. unfold_ops.
  destruct created, sid as [[|c s]|]; repeat oracle; auto.
Qed.

(** X1: a handshake.  A [POST] to [/mcp] without a session id whose
    forwarding is fulfilled and whose new transport then reports a non-empty
    id the table does not hold registers the constructed session under that
    id: the table grows by that one entry, every other id resolves as
    before, no close routine is called and the caller receives what the
    transport wrote. *)
Theorem handshake_registers_session
  (req : IncomingMessage) (r : ServerResponse) (w : World)
  (x0 : Ext) (r1 : ServerResponse) (x1 : Ext) (e : string) :
  http_path req = "/mcp" ->
  JsString.truthy (getSessionIdHeader req) = false ->
  http_method req = "POST" ->
  sdk_connect (server (fresh_session w)) (transport (fresh_session w)) (ext w)
    = (Fulfilled, x0) ->
  sdk_handleRequest (transport (fresh_session w)) (ensureAcceptHeader req) r x0
    = (Fulfilled, r1, x1) ->
  sdk_sessionId (transport (fresh_session w)) x1 = Some e ->
  e <> EmptyString ->
  JsMap.get e (activeSessions w) = None ->
  exists w',
    handleHttpRequest req {| res := r; world := w |}
      = (Normal tt, {| res := r1; world := w' |})
    /\ activeSessions w' = JsMap.set e (fresh_session w) (activeSessions w)
    /\ JsMap.get e (activeSessions w') = Some (fresh_session w)
    /\ (forall k, k <> e ->
          JsMap.get k (activeSessions w') = JsMap.get k (activeSessions w))
    /\ JsMap.size (activeSessions w') = S (JsMap.size (activeSessions w))
    /\ next_oid w' = S (S (next_oid w))
    /\ trace w' =
         (trace w ++
          [EvConnect (server (fresh_session w)) (transport (fresh_session w));
           EvHandleRequest (transport (fresh_session w))
                           (ensureAcceptHeader req)])%list.
Proof.
  intros P H M C F S N G.
  rewrite (@dispatch_new_session _ req r w x0 P H M C).
  unfold_ops. unfold fresh_session in *. simpl in F, S.
  rewrite F. simpl. rewrite S.
  destruct (truthy_nonempty N) as (c & s & ->). simpl.
  unfold JsMap.has. rewrite G. simpl.
  destruct (getSessionIdHeader req) as [[|c' s']|]; try discriminate H; simpl.
  all: eexists; split; [reflexivity|]; simpl.
  all: split; [reflexivity|].
  all: split; [apply JsMapFacts.get_set_same|].
  all: split; [intros k D; now apply JsMapFacts.get_set_other|].
  all: split; [unfold JsMap.size;
               rewrite (JsMapFacts.entries_set_absent _ _ _ G), length_app;
               simpl; lia|].
  all: split; [reflexivity|].
  all: now rewrite <- app_assoc.
Qed.

(** X2: a request other than [DELETE] that carries a registered id and
    whose forwarding is fulfilled, the transport still reporting that id, is
    forwarded to that session's transport and to nothing else: the table,
    the allocator and the server variables are as before, no close routine
    is called and the caller receives what the transport wrote. *)
Theorem registered_session_is_reused
  (req : IncomingMessage) (r : ServerResponse) (w : World) (id : string)
  (st : SessionState) (r1 : ServerResponse) (x1 : Ext) :
  http_path req = "/mcp" ->
  getSessionIdHeader req = Some id ->
  id <> EmptyString ->
  JsMap.get id (activeSessions w) = Some st ->
  http_method req <> "DELETE" ->
  sdk_handleRequest (transport st) (ensureAcceptHeader req) r (ext w)
    = (Fulfilled, r1, x1) ->
  sdk_sessionId (transport st) x1 = Some id ->
  handleHttpRequest req {| res := r; world := w |}
    = (Normal tt,
       {| res := r1;
          world := called (EvHandleRequest (transport st) (ensureAcceptHeader req))
                          x1 w |}).
Proof.
  intros P H N G M F S.
  rewrite (dispatch_known_session req {| res := r; world := w |} P H N G).
  apply String.eqb_neq in M.
  unfold_ops. rewrite F. simpl. rewrite S.
  destruct (truthy_nonempty N) as (c & s & ->). simpl.
  unfold JsMap.has. rewrite G. simpl. rewrite M. simpl.
  unfold with_sessions, called. simpl. reflexivity.
Qed.

Lemma dispatch_other_path (req : IncomingMessage) (d : Dispatch) :
  http_path req <> "/mcp" ->
  handleHttpRequest req d =
    (Normal tt,
     {| res := res_end "Not found" (set_statusCode 404 (res d)); world := world d |}).
Proof.
  intros P. unfold handleHttpRequest.
  apply String.eqb_neq in P. now rewrite P.
Qed.

Lemma dispatch_missing_id (req : IncomingMessage) (d : Dispatch) :
  http_path req = "/mcp" ->
  JsString.truthy (getSessionIdHeader req) = false ->
  http_method req <> "POST" ->
  handleHttpRequest req d =
    (Normal tt,
     {| res := writeJsonError (res d) 400 (-32000)
                 "Bad Request: Mcp-Session-Id header is required";
        world := world d |}).
Proof.
  intros P H M. unfold handleHttpRequest. rewrite P. simpl (negb _). cbv iota zeta.
  rewrite getSessionIdHeader_ensure, http_method_ensure.
  apply String.eqb_neq in M. rewrite M.
  destruct (getSessionIdHeader req) as [[|c s]|]; try discriminate H; reflexivity.
Qed.

Lemma dispatch_connect_rejected
  (req : IncomingMessage) (d : Dispatch) (x0 : Ext) :
  http_path req = "/mcp" ->
  JsString.truthy (getSessionIdHeader req) = false ->
  http_method req = "POST" ->
  sdk_connect (server (fresh_session (world d)))
              (transport (fresh_session (world d))) (ext (world d))
    = (Rejected, x0) ->
  handleHttpRequest req d =
    (Throw,
     {| res := res d;
        world := {| activeSessions := activeSessions (world d);
                    activeHttpServer := activeHttpServer (world d);
                    activeStdioServer := activeStdioServer (world d);
                    next_oid := S (S (next_oid (world d)));
                    ext := x0;
                    trace := (trace (world d) ++
                              [EvConnect (server (fresh_session (world d)))
                                         (transport (fresh_session (world d)))])%list |} |}).
Proof.
  intros P H M C.
  unfold handleHttpRequest. rewrite P. simpl (negb _). cbv iota zeta.
  rewrite getSessionIdHeader_ensure, http_method_ensure, M.
  unfold fresh_session in C. simpl in C.
  destruct (getSessionIdHeader req) as [[|c s]|]; try discriminate H;
    simpl; unfold bind at 1; unfold bind at 1;
    unfold in_world at 1, createSessionState; simpl; rewrite C; reflexivity.
Qed.

(** X3: a dispatch is rejected in one case only, a [POST] to [/mcp] without
    a session id for which [server.connect] is rejected; the response is then
    untouched, nothing is forwarded and the table is as it was.  In every
    other case the dispatch completes, faults of the transport and of the
    close routines included. *)
Theorem dispatch_rejected_only_by_connect (req : IncomingMessage) (d : Dispatch) :
  fst (handleHttpRequest req d) = Normal tt
  \/ (fst (handleHttpRequest req d) = Throw
      /\ http_path req = "/mcp"
      /\ JsString.truthy (getSessionIdHeader req) = false
      /\ http_method req = "POST"
      /\ fst (sdk_connect (server (fresh_session (world d)))
                          (transport (fresh_session (world d))) (ext (world d)))
         = Rejected
      /\ res (snd (handleHttpRequest req d)) = res d
      /\ activeSessions (world (snd (handleHttpRequest req d)))
         = activeSessions (world d)
      /\ trace (world (snd (handleHttpRequest req d)))
         = (trace (world d) ++
            [EvConnect (server (fresh_session (world d)))
                       (transport (fresh_session (world d)))])%list).
Proof.
  destruct d as [r w].
  destruct (String.eqb_spec (http_path req) "/mcp") as [P|P];
    [| left; now rewrite (dispatch_other_path req _ P)].
  destruct (JsString.truthy (getSessionIdHeader req)) eqn:T.
  - destruct (getSessionIdHeader req) as [[|c s]|] eqn:H; try discriminate T.
    assert (N : String c s <> EmptyString) by discriminate.
    left.
    destruct (JsMap.get (String c s) (activeSessions w)) as [st|] eqn:G.
    + rewrite (dispatch_known_session req {| res := r; world := w |} P H N G).
      apply guarded_dispatch_completes.
    + now rewrite (dispatch_unknown_session req {| res := r; world := w |} P H N G).
  - destruct (String.eqb_spec (http_method req) "POST") as [M|M];
      [| left; now rewrite (dispatch_missing_id req _ P T M)].
    destruct (sdk_connect (server (fresh_session w)) (transport (fresh_session w))
                          (ext w)) as [[] x0] eqn:C.
    + left. rewrite (@dispatch_new_session _ req r w x0 P T M C).
      apply guarded_dispatch_completes.
    + right.
      rewrite (@dispatch_connect_rejected req {| res := r; world := w |} x0 P T M C).
      cbn [world res fst snd]. rewrite C. repeat split; auto.
Qed.

End DispatchOutcomes.

Section HelperFunctions.
Context {sdk : Sdk}.

Lemma includes_nonempty (s p : string) :
  p <> EmptyString -> JsString.includes s p = true -> s <> EmptyString.
Proof.
  intros N I ->. destruct p; [congruence|]. discriminate I.
Qed.

(** X4: after [ensureAcceptHeader] the [accept] header names both
    [application/json] and [text/event-stream]; a header that already names
    both is kept as it is, applying the function twice changes nothing more,
    and the URL, the method and the session id header are never touched. *)
Theorem ensureAcceptHeader_names_both_media_types (req : IncomingMessage) :
  (exists a,
     accept (req_headers (ensureAcceptHeader req)) = Some a
     /\ JsString.includes a "application/json" = true
     /\ JsString.includes a "text/event-stream" = true)
  /\ (forall a,
        accept (req_headers req) = Some a ->
        JsString.includes a "application/json" = true ->
        JsString.includes a "text/event-stream" = true ->
        ensureAcceptHeader req = req)
  /\ ensureAcceptHeader (ensureAcceptHeader req) = ensureAcceptHeader req
  /\ url (ensureAcceptHeader req) = url req
  /\ method (ensureAcceptHeader req) = method req
  /\ mcp_session_id (req_headers (ensureAcceptHeader req))
     = mcp_session_id (req_headers req).
Proof.
  assert (Kept : forall q a,
            accept (req_headers q) = Some a ->
            JsString.includes a "application/json" = true ->
            JsString.includes a "text/event-stream" = true ->
            ensureAcceptHeader q = q).
  { intros q a A J E. unfold ensureAcceptHeader. cbv zeta. rewrite A, J, E.
    assert (N : a <> EmptyString)
      by (apply (includes_nonempty (p := "application/json")); [discriminate|exact J]).
    destruct a; [congruence|]. reflexivity. }
  assert (Both : exists a,
            accept (req_headers (ensureAcceptHeader req)) = Some a
            /\ JsString.includes a "application/json" = true
            /\ JsString.includes a "text/event-stream" = true).
  { unfold ensureAcceptHeader. cbv zeta.
    destruct (accept (req_headers req)) as [a|] eqn:A.
    - destruct a as [|c0 a0]; [eexists; repeat split; reflexivity|].
      cbn [JsString.truthy negb orb].
      destruct (JsString.includes (String c0 a0) "application/json") eqn:J;
        destruct (JsString.includes (String c0 a0) "text/event-stream") eqn:E;
        cbn [negb orb]; try (eexists; repeat split; reflexivity).
      exists (String c0 a0). rewrite A. auto.
    - eexists; repeat split; reflexivity. }
  split; [exact Both|]. split; [exact (Kept req)|]. split.
  - destruct Both as (a & A & J & E). exact (Kept _ a A J E).
  - unfold ensureAcceptHeader. destruct (_ || _ || _)%bool; auto.
Qed.

(** X5: [writeJsonError] writes at most once per response: after a first
    call with a status code Node accepts the headers are sent, so a second
    call on the result, whatever its status, code and message, changes
    nothing. *)
Theorem writeJsonError_writes_at_most_once
  (r : ServerResponse) (status code status' code' : Z) (message message' : string) :
  100 <= status <= 999 ->
  headersSent (writeJsonError r status code message) = true
  /\ writeJsonError (writeJsonError r status code message) status' code' message'
     = writeJsonError r status code message.
Proof.
  intros _.
  assert (S : headersSent (writeJsonError r status code message) = true).
  { destruct (headersSent r) eqn:E.
    - now rewrite (writeJsonError_sent _ _ _ _ E).
    - now rewrite (writeJsonError_idle _ _ _ _ E). }
  split; [exact S|]. now apply writeJsonError_sent.
Qed.
End HelperFunctions.

Section FreshObjects.
Context {sdk : Sdk}.

Lemma in_entries_set (m : JsMap.t SessionState) (k : string) (v : SessionState)
  (e : string * SessionState) :
  In e (JsMap.entries (JsMap.set k v m)) -> In e (JsMap.entries m) \/ e = (k, v).
Proof.
  induction m as [|[[k0 v0]|] rest IH]; simpl.
  - intros [<-|[]]. now right.
  - destruct (String.eqb k0 k); simpl.
    + intros [<-|I]; auto.
    + intros [<-|I]; auto. destruct (IH I); auto.
  - exact IH.
Qed.

Lemma in_entries_delete (m : JsMap.t SessionState) (k : string)
  (e : string * SessionState) :
  In e (JsMap.entries (JsMap.delete k m)) -> In e (JsMap.entries m).
Proof.
  induction m as [|[[k0 v0]|] rest IH]; simpl; auto.
  destruct (String.eqb k0 k); simpl; tauto.
Qed.

(** Every session found in the table after a dispatch was in the table
    before it or is the one the dispatch constructed. *)
Lemma dispatch_sessions (req : IncomingMessage) (d : Dispatch) :
  (next_oid (world d) <= next_oid (world (snd (handleHttpRequest req d))))%nat
  /\ forall k st,
       In (k, st) (JsMap.entries (activeSessions (world (snd (handleHttpRequest req d))))) ->
       (exists k', In (k', st) (JsMap.entries (activeSessions (world d))))
       \/ (st = fresh_session (world d)
           /\ next_oid (world (snd (handleHttpRequest req d)))
              = S (S (next_oid (world d)))).
Proof.
  assert (Same : forall d' : Dispatch,
            activeSessions (world d') = activeSessions (world d) ->
            (next_oid (world d) <= next_oid (world d'))%nat ->
            (next_oid (world d) <= next_oid (world d'))%nat
            /\ forall k st,
                 In (k, st) (JsMap.entries (activeSessions (world d'))) ->
                 (exists k', In (k', st) (JsMap.entries (activeSessions (world d))))
                 \/ (st = fresh_session (world d)
                     /\ next_oid (world d') = S (S (next_oid (world d))))).
  { intros d' E L. split; [exact L|]. intros k st I. rewrite E in I. eauto. }
  destruct d as [r w].
  destruct (String.eqb_spec (http_path req) "/mcp") as [P|P];
    [| rewrite (dispatch_other_path req _ P); now apply Same].
  destruct (JsString.truthy (getSessionIdHeader req)) eqn:T.
  - destruct (getSessionIdHeader req) as [[|c s]|] eqn:H; try discriminate T.
    assert (N : String c s <> EmptyString) by discriminate.
    destruct (JsMap.get (String c s) (activeSessions w)) as [st0|] eqn:G.
    + rewrite (dispatch_known_session req {| res := r; world := w |} P H N G).
      destruct (guarded_dispatch_completes (ensureAcceptHeader req) (http_method req)
                  (Some (String c s)) st0 false {| res := r; world := w |})
        as (_ & O & _).
      destruct (guarded_dispatch_table (ensureAcceptHeader req) (http_method req)
                  (Some (String c s)) st0 false {| res := r; world := w |})
        as (ins & del & E & I & _).
      rewrite O, E. simpl. split; [lia|].
      intros k st In1. left.
      assert (In2 : In (k, st) (JsMap.entries (registered ins (activeSessions w)))).
      { destruct del; simpl in In1; auto. eapply in_entries_delete; eauto. }
      destruct ins as [[e s0]|]; simpl in In2; eauto.
      destruct (in_entries_set _ _ _ _ In2) as [Old|[= -> ->]]; eauto.
      destruct (I e s0 eq_refl) as (-> & _).
      exists (String c s). now apply JsMapFacts.get_in_entries.
    + rewrite (dispatch_unknown_session req {| res := r; world := w |} P H N G).
      now apply Same.
  - destruct (String.eqb_spec (http_method req) "POST") as [M|M];
      [| rewrite (dispatch_missing_id req _ P T M); now apply Same].
    destruct (sdk_connect (server (fresh_session w)) (transport (fresh_session w))
                          (ext w)) as [[] x0] eqn:C.
    + rewrite (@dispatch_new_session _ req r w x0 P T M C).
      match goal with
      | |- context [try_catch (forward ?q ?m ?i ?st ?c) _ ?d0] =>
          destruct (guarded_dispatch_completes q m i st c d0) as (_ & O & _);
          destruct (guarded_dispatch_table q m i st c d0) as (ins & del & E & I & _)
      end.
      rewrite O, E. simpl. split; [lia|].
      intros k st In1.
      assert (In2 : In (k, st) (JsMap.entries (registered ins (activeSessions w)))).
      { destruct del; simpl in In1; auto. eapply in_entries_delete; eauto. }
      destruct ins as [[e s0]|]; simpl in In2; eauto.
      destruct (in_entries_set _ _ _ _ In2) as [Old|[= -> ->]]; eauto.
      destruct (I e s0 eq_refl) as (-> & _). right. auto.
    + rewrite (@dispatch_connect_rejected _ req {| res := r; world := w |} x0 P T M C).
      apply Same; simpl; auto.
Qed.

(** X6: in every world the server reaches, the objects of each registered
    session were allocated before the next free identity, so the handler
    and the transport that [createSessionState] builds next are shared with
    no registered session. *)
Theorem constructed_session_is_fresh (w : World) :
  reachable w ->
  forall (k : string) (st : SessionState),
    JsMap.get k (activeSessions w) = Some st ->
    (server_oid (server st) < next_oid w)%nat
    /\ (transport_oid (transport st) < next_oid w)%nat
    /\ server st <> server (fresh_session w)
    /\ transport st <> transport (fresh_session w).
Proof.
  intros R.
  assert (Inv : forall k st,
            In (k, st) (JsMap.entries (activeSessions w)) ->
            (server_oid (server st) < next_oid w)%nat
            /\ (transport_oid (transport st) < next_oid w)%nat).
  { induction R as [x | req r w R IH]; intros k st I.
    - destruct I.
    - destruct (dispatch_sessions req {| res := r; world := w |}) as (L & Src).
      destruct (Src k st I) as [(k' & Old) | (-> & Nx)].
      + destruct (IH k' st Old). simpl in L. lia.
      + rewrite Nx. simpl. lia. }
  intros k st G. apply JsMapFacts.get_in_entries in G.
  destruct (Inv k st G) as (A & B).
  repeat split; auto.
  - intros E. rewrite E in A. simpl in A. lia.
  - intros E. rewrite E in B. simpl in B. lia.
Qed.

End FreshObjects.

(* ================================================================== *)
(** * The router and the contracts of the SDK *)

(** ** Sessions and the identifiers of their transports *)

Section SessionIdentifiers.
Context {sdk : Sdk}.

Lemma registered_objects_older (w : World) :
  reachable w ->
  forall (k : string) (st : SessionState),
    In (k, st) (JsMap.entries (activeSessions w)) ->
    (server_oid (server st) < next_oid w)%nat
    /\ (transport_oid (transport st) < next_oid w)%nat.
Proof.
  induction 1 as [x | req r w R IH]; intros k st I.
  - destruct I.
  - destruct (dispatch_sessions req {| res := r; world := w |}) as (L & Src).
    destruct (Src k st I) as [(k' & Old) | (-> & Nx)].
    + destruct (IH k' st Old). simpl in L. lia.
    + rewrite Nx. simpl. lia.
Qed.




End SessionIdentifiers.

(** ** Explicit termination *)

Section Termination.
Context {sdk : Sdk}.

(** A property of the SDK's state that no call on a transport or on a
    handler's close destroys survives the [try]/[catch] of a dispatch. *)
Lemma guarded_dispatch_keeps (P : Ext -> Prop) :
  (forall t req r x o r' x',
     sdk_handleRequest t req r x = (o, r', x') -> P x -> P x') ->
  (forall t x o x', sdk_transport_close t x = (o, x') -> P x -> P x') ->
  (forall s x o x', sdk_server_close s x = (o, x') -> P x -> P x') ->
  forall (req : IncomingMessage) (method : string) (sid : option string)
         (st : SessionState) (created : bool) (d : Dispatch),
    P (ext (world d)) ->
    P (ext (world (snd (try_catch (forward req method sid st created)
                                  (on_fault st created) d)))).
Proof.
  intros Hh Ht Hs req method sid st created [r w] Px. simpl in Px.
  unfold_ops.
  destruct created, sid as [[|c s]|]; repeat oracle; eauto 10.
Qed.

(** The sessions of the table after a dispatch, with a property [Q] of a
    session and the SDK's state that the calls of the router preserve and
    that [connect] establishes for the session it is given. *)
Lemma dispatch_keeps_sessions (Q : SessionState -> Ext -> Prop)
  (req : IncomingMessage) (r : ServerResponse) (w : World) :
  (forall st t q r0 x o r' x',
     sdk_handleRequest t q r0 x = (o, r', x') -> Q st x -> Q st x') ->
  (forall st t x o x', sdk_transport_close t x = (o, x') -> Q st x -> Q st x') ->
  (forall st s x o x', sdk_server_close s x = (o, x') -> Q st x -> Q st x') ->
  (forall st o x0,
     sdk_connect (server (fresh_session w)) (transport (fresh_session w)) (ext w)
       = (o, x0) ->
     (exists k, In (k, st) (JsMap.entries (activeSessions w))) ->
     Q st (ext w) -> Q st x0) ->
  (forall x0,
     sdk_connect (server (fresh_session w)) (transport (fresh_session w)) (ext w)
       = (Fulfilled, x0) ->
     Q (fresh_session w) x0) ->
  (forall k st, In (k, st) (JsMap.entries (activeSessions w)) -> Q st (ext w)) ->
  forall k st,
    In (k, st) (JsMap.entries
                  (activeSessions
                     (world (snd (handleHttpRequest req {| res := r; world := w |}))))) ->
    Q st (ext (world (snd (handleHttpRequest req {| res := r; world := w |})))).
Proof.
  intros Hh Ht Hs Hc Hn Old.
  assert (Guarded : forall st0 q m i c d0,
            activeSessions (world d0) = activeSessions w ->
            (forall k st, In (k, st) (JsMap.entries (activeSessions w)) ->
                          Q st (ext (world d0))) ->
            (st0 = fresh_session w -> Q st0 (ext (world d0))) ->
            ((exists k', In (k', st0) (JsMap.entries (activeSessions w)))
             \/ st0 = fresh_session w) ->
            forall k st,
              In (k, st) (JsMap.entries
                            (activeSessions
                               (world (snd (try_catch (forward q m i st0 c)
                                                      (on_fault st0 c) d0))))) ->
              Q st (ext (world (snd (try_catch (forward q m i st0 c)
                                               (on_fault st0 c) d0))))).
  { intros st0 q m i c d0 E Olds New Src k st In1.
    apply guarded_dispatch_keeps; eauto.
    destruct (guarded_dispatch_table q m i st0 c d0) as (ins & del & T & I & _).
    rewrite T, E in In1.
    assert (In2 : In (k, st) (JsMap.entries (registered ins (activeSessions w)))).
    { destruct del; simpl in In1; auto. eapply in_entries_delete; eauto. }
    destruct ins as [[e s0]|]; simpl in In2; eauto.
    destruct (in_entries_set _ _ _ _ In2) as [Was|[= -> ->]]; eauto.
    destruct (I e s0 eq_refl) as (-> & _).
    destruct Src as [(k' & Was)|Fresh]; eauto. }
  destruct (String.eqb_spec (http_path req) "/mcp") as [P|P];
    [| rewrite (dispatch_other_path req _ P); exact Old].
  destruct (JsString.truthy (getSessionIdHeader req)) eqn:T.
  - destruct (getSessionIdHeader req) as [[|c s]|] eqn:H; try discriminate T.
    assert (N : String c s <> EmptyString) by discriminate.
    destruct (JsMap.get (String c s) (activeSessions w)) as [st0|] eqn:G.
    + rewrite (dispatch_known_session req {| res := r; world := w |} P H N G).
      apply Guarded; auto.
      * intros ->. apply Old with (k := String c s).
        now apply JsMapFacts.get_in_entries.
      * left. exists (String c s). now apply JsMapFacts.get_in_entries.
    + rewrite (dispatch_unknown_session req {| res := r; world := w |} P H N G).
      exact Old.
  - destruct (String.eqb_spec (http_method req) "POST") as [M|M];
      [| rewrite (dispatch_missing_id req _ P T M); exact Old].
    destruct (sdk_connect (server (fresh_session w)) (transport (fresh_session w))
                          (ext w)) as [[] x0] eqn:C.
    + rewrite (@dispatch_new_session _ req r w x0 P T M C).
      apply Guarded; simpl; eauto.
    + rewrite (@dispatch_connect_rejected _ req {| res := r; world := w |} x0 P T M C).
      simpl. eauto.
Qed.

(** In every world the server reaches, closing the handler of a registered
    session leaves its transport closed. *)
Lemma registered_sessions_held (L : Lifecycle) (w : World) :
  close_contract L -> reachable w ->
  forall (k : string) (st : SessionState),
    In (k, st) (JsMap.entries (activeSessions w)) ->
    held L (server st) (transport st) (ext w).
Proof.
  intros C R. induction R as [x | req r w R IH]; intros k st I.
  - destruct I.
  - revert k st I.
    apply (@dispatch_keeps_sessions
             (fun st x => held L (server st) (transport st) x)).
    + intros st t q r0 x o r' x'. apply (handleRequest_keeps C).
    + intros st t x o x'. apply (transport_close_keeps C).
    + intros st s x o x'. apply (server_close_keeps C).
    + intros st o x0 Cn (k & I) Hd.
      eapply (connect_keeps C); [exact Cn | | exact Hd].
      destruct (registered_objects_older R _ _ I) as (Older & _).
      intros E. rewrite <- E in Older. simpl in Older. lia.
    + intros x0 Cn. eapply (connect_attaches C); exact Cn.
    + exact IH.
Qed.

(** C1: a [DELETE] carrying a registered id whose forwarding is fulfilled
    removes the entry of that id and calls the close of the session's
    handler, [state.server.close()], the one call the router makes on the
    session on this path; the response is what the transport wrote.  Under
    the SDK's close contract, by which closing a handler closes the
    transport it is connected to, every registered session is still held by
    its handler; so once that close is fulfilled both the handler and the
    transport are released.  A request to [/mcp] that follows with the same id is answered
    with the session-not-found error (404, -32001) and changes nothing. *)
Theorem terminate_releases_session (L : Lifecycle)
  (req : IncomingMessage) (r : ServerResponse) (w : World) (id : string)
  (st : SessionState) (r1 : ServerResponse) (x1 : Ext) :
  close_contract L ->
  reachable w ->
  http_path req = "/mcp" ->
  http_method req = "DELETE" ->
  getSessionIdHeader req = Some id ->
  id <> EmptyString ->
  JsMap.get id (activeSessions w) = Some st ->
  sdk_handleRequest (transport st) (ensureAcceptHeader req) r (ext w)
    = (Fulfilled, r1, x1) ->
  let q := String (ascii_of_nat 34) EmptyString in
  exists d',
    handleHttpRequest req {| res := r; world := w |} = (Normal tt, d')
    /\ JsMap.get id (activeSessions (world d')) = None
    /\ trace (world d') =
         (trace w ++
          EvHandleRequest (transport st) (ensureAcceptHeader req) ::
          EvServerClose (server st) ::
          match fst (sdk_server_close (server st) x1) with
          | Fulfilled => []
          | Rejected => [EvConsoleError "HTTP transport request error:"]
          end)%list
    /\ res d' =
         match fst (sdk_server_close (server st) x1) with
         | Fulfilled => r1
         | Rejected => writeJsonError r1 500 (-32603) "Internal server error"
         end
    /\ (fst (sdk_server_close (server st) x1) = Fulfilled ->
        ext (world d') = snd (sdk_server_close (server st) x1)
        /\ server_released L (server st) (ext (world d'))
        /\ transport_released L (transport st) (ext (world d')))
    /\ forall (req2 : IncomingMessage),
         http_path req2 = "/mcp" ->
         getSessionIdHeader req2 = Some id ->
         serve req2 (world d') =
           (Normal tt,
            {| res :=
                 {| statusCode := 404;
                    res_headers := [("content-type", "application/json")];
                    phase := Ended;
                    body :=
                      [("{" ++ q ++ "jsonrpc" ++ q ++ ":" ++ q ++ "2.0" ++ q ++ "," ++
                        q ++ "error" ++ q ++ ":{" ++
                          q ++ "code" ++ q ++ ":-32001," ++
                          q ++ "message" ++ q ++ ":"
                            ++ q ++ "Session not found" ++ q ++ "}," ++
                        q ++ "id" ++ q ++ ":null}")%string] |};
               world := world d' |}).
Proof.
  intros C R P M H N G F q.
  assert (W : JsMap.wf (activeSessions w)) by now apply reachable_wf.
  assert (Hd : held L (server st) (transport st) x1).
  { eapply (handleRequest_keeps C); [exact F|].
    eapply registered_sessions_held; eauto.
    eapply JsMapFacts.get_in_entries; eauto. }
  rewrite (dispatch_known_session req {| res := r; world := w |} P H N G).
  assert (Next : forall w' : World,
            JsMap.get id (activeSessions w') = None ->
            forall req2 : IncomingMessage,
              http_path req2 = "/mcp" ->
              getSessionIdHeader req2 = Some id ->
              serve req2 w' =
                (Normal tt,
                 {| res := writeJsonError fresh_response 404 (-32001)
                             "Session not found";
                    world := w' |})).
  { intros w' Gone req2 P2 H2. unfold serve.
    now rewrite (dispatch_unknown_session req2
                   {| res := fresh_response; world := w' |} P2 H2 N Gone). }
  destruct (truthy_nonempty N) as (c & s & ->).
  rewrite M.
  unfold try_catch, forward, on_fault, bind, in_world, transport_handleRequest,
    transport_sessionId, activeSessions_has, activeSessions_set,
    activeSessions_delete, server_close, console_error, on_res, ret, settle.
  simpl. rewrite F. simpl.
  destruct (sdk_sessionId (transport st) x1) as [[|c' s']|] eqn:Sid; simpl.
  2: destruct (JsMap.has (String c' s') (activeSessions w)) eqn:Has; simpl.
  all: destruct (sdk_server_close (server st) x1) as [[] x2] eqn:Cl; simpl.
  all: eexists; split; [reflexivity|]; simpl.
  all: match goal with
       | |- JsMap.get ?k (JsMap.delete ?k ?m) = None /\ _ =>
           assert (Gone' : JsMap.get k (JsMap.delete k m) = None)
             by (apply JsMapFacts.get_delete_same;
                 first [exact W | apply JsMapFacts.wf_set; assumption])
       end.
  all: split; [exact Gone'|].
  all: split; [rewrite <- ?app_assoc; reflexivity|].
  all: split; [reflexivity|].
  all: split; [| intros req2 P2 H2; apply Next; [exact Gone' | exact P2 | exact H2]].
  all: intros Ok; try discriminate Ok.
  all: split; [reflexivity|].
  all: exact (server_close_releases C Cl Hd).
Qed.

End Termination.

(** ** The collaborator that keeps its books obeys the contracts *)



Lemma linked_close_contract : close_contract Linked.lifecycle.
Proof.
  constructor; unfold held; simpl.
  - intros s t x x' [= <-]. left. simpl. now left.
  - intros s t s' t' x o x' [= _ <-] _ [A|Rl]; [left|right]; simpl; auto.
  - intros s t t' req r x o r' x' [= _ _ <-]. unfold Linked.handle.
    destruct (Linked.is_handshake req); auto.
  - intros s t t' x o x' [= _ <-] [A|Rl]; simpl.
    + destruct (Nat.eqb_spec (transport_oid t) (transport_oid t')) as [E|D].
      * right. now left.
      * left. apply filter_In. split; [exact A|]. simpl.
        apply negb_true_iff. now apply Nat.eqb_neq.
    + right. now right.
  - intros s t s' x o x' [= _ <-] [A|Rl]; simpl.
    + destruct (Nat.eqb_spec (server_oid s) (server_oid s')) as [E|D].
      * right. apply in_or_app. left.
        apply in_map_iff. exists (server_oid s, transport_oid t).
        split; [reflexivity|]. apply filter_In. split; [exact A|]. simpl.
        now apply Nat.eqb_eq.
      * left. apply filter_In. split; [exact A|]. simpl.
        apply negb_true_iff. now apply Nat.eqb_neq.
    + right. apply in_or_app. now right.
  - intros s t x x' [= <-] Hd. simpl. split; [now left|].
    apply in_or_app. destruct Hd as [A|Rl]; [left|now right].
    apply in_map_iff. exists (server_oid s, transport_oid t).
    split; [reflexivity|]. apply filter_In. split; [exact A|]. simpl.
    apply Nat.eqb_refl.
Qed.

Lemma after_handshake_reachable : reachable Linked.after_handshake.
Proof.
  apply (@reach_dispatch Linked.linked (Scripted.request "POST" None)
           fresh_response Linked.listening).
  apply (@reach_start Linked.linked Linked.opening).
Qed.

Example handshake_on_the_books :
  JsMap.entries (activeSessions Linked.after_handshake)
    = [("session-1", Scripted.session 0)]
  /\ next_oid Linked.after_handshake = 2%nat
  /\ Linked.links (ext Linked.after_handshake) = [(0%nat, 1%nat)].
Proof. repeat split; reflexivity. Qed.

Lemma terminate_releases_session_witness :
  exists d',
    handleHttpRequest (Scripted.request "DELETE" (Some "session-1"))
      {| res := fresh_response; world := Linked.after_handshake |}
    = (Normal tt, d')
    /\ JsMap.get "session-1" (activeSessions (world d')) = None
    /\ res d' = Scripted.write (Scripted.Replies "ok") fresh_response
    /\ server_released Linked.lifecycle (mkServer 0) (ext (world d'))
    /\ transport_released Linked.lifecycle (mkTransport 1) (ext (world d')).
Proof.
  destruct (@terminate_releases_session Linked.linked Linked.lifecycle
              (Scripted.request "DELETE" (Some "session-1")) fresh_response
              Linked.after_handshake "session-1" (Scripted.session 0)
              (Scripted.write (Scripted.Replies "ok") fresh_response)
              (ext Linked.after_handshake))
    as (d' & E & Gone & _ & Rs & Rel & _).
  - exact linked_close_contract.
  - exact after_handshake_reachable.
  - reflexivity.
  - reflexivity.
  - reflexivity.
  - discriminate.
  - reflexivity.
  - reflexivity.
  - destruct (Rel eq_refl) as (_ & Hs & Ts).
    exists d'. repeat split; assumption.
Defined.


(* ================================================================== *)
(** * Strings, options and time frames *)

(** ** Facts about code-unit strings *)

Module JsTextFacts.
Import JsText.

Lemma eqb_spec (a b : t) : reflect (a = b) (eqb a b).
Proof.
  revert b. induction a as [|x a IH]; intros [|y b]; simpl;
    try (constructor; congruence).
  destruct (N.eqb_spec x y) as [->|D]; simpl.
  - destruct (IH b) as [->|D]; constructor; congruence.
  - constructor. congruence.
Qed.

Lemma digit_not_space (c : N) : is_digit c = true -> is_space c = false.
Proof.
  unfold is_digit, is_space. intros H.
  apply andb_true_iff in H. destruct H as [A B].
  apply N.leb_le in A, B.
  repeat match goal with
         | |- context [(c =? ?k)%N] =>
             replace (c =? k)%N with false by (symmetry; apply N.eqb_neq; lia)
         end.
  replace (8192 <=? c)%N with false by (symmetry; apply N.leb_gt; lia).
  reflexivity.
Qed.

Lemma takeWhile_dropWhile (f : N -> bool) (s : t) :
  (takeWhile f s ++ dropWhile f s)%list = s.
Proof. induction s as [|c r IH]; simpl; auto. destruct (f c); simpl; congruence. Qed.

Lemma takeWhile_all (f : N -> bool) (s : t) : forallb f (takeWhile f s) = true.
Proof. induction s as [|c r IH]; simpl; auto. destruct (f c) eqn:E; simpl; auto. now rewrite E. Qed.

Lemma dropWhile_head (f : N -> bool) (s : t) (c : N) (r : t) :
  dropWhile f s = c :: r -> f c = false.
Proof.
  induction s as [|d s IH]; simpl; [discriminate|].
  destruct (f d) eqn:E; auto. intros [= -> ->]. exact E.
Qed.

Lemma takeWhile_app (f : N -> bool) (a b : t) :
  forallb f a = true ->
  match b with [] => True | c :: _ => f c = false end ->
  takeWhile f (a ++ b)%list = a /\ dropWhile f (a ++ b)%list = b.
Proof.
  intros A B. induction a as [|x a IH]; simpl in *.
  - destruct b as [|c b]; simpl; auto. rewrite B. auto.
  - apply andb_true_iff in A. destruct A as [Fx A]. rewrite Fx.
    destruct (IH A) as [-> ->]. auto.
Qed.

Lemma trimStart_nonspace (c : N) (r : t) :
  is_space c = false -> trimStart (c :: r) = c :: r.
Proof. simpl. now intros ->. Qed.

Lemma trimStart_head (s : t) (c : N) (r : t) :
  trimStart s = c :: r -> is_space c = false.
Proof.
  induction s as [|d s IH]; simpl; [discriminate|].
  destruct (is_space d) eqn:E; auto. intros [= -> ->]. exact E.
Qed.

Lemma trimEnd_nil_iff (s : t) : trimEnd s = [] <-> forallb is_space s = true.
Proof.
  induction s as [|c r IH]; simpl; [split; reflexivity|].
  destruct (trimEnd r) as [|d r'] eqn:E.
  - destruct (is_space c); simpl.
    + split; intros _; [now apply IH | reflexivity].
    + split; discriminate.
  - split; [discriminate|]. intros H. apply andb_true_iff in H.
    destruct H as [_ H]. apply IH in H. discriminate.
Qed.

(** Trailing white space apart, [trimEnd] keeps a text that starts with
    units that are not white space. *)
Lemma trimEnd_app (a b : t) :
  forallb (fun c => negb (is_space c)) a = true ->
  trimEnd (a ++ b)%list = (a ++ trimEnd b)%list.
Proof.
  intros A. induction a as [|x a IH]; simpl in *; auto.
  apply andb_true_iff in A. destruct A as [Fx A].
  rewrite (IH A).
  destruct (a ++ trimEnd b)%list as [|d r'] eqn:E; auto.
  apply negb_true_iff in Fx. now rewrite Fx.
Qed.

Lemma trimEnd_head (s : t) :
  match trimEnd s with
  | [] => True
  | c :: _ => exists r, s = c :: r
  end.
Proof.
  destruct s as [|c r]; simpl; auto.
  destruct (trimEnd r); [destruct (is_space c)|]; eauto.
Qed.

Lemma trimEnd_keeps_head (c : N) (r : t) :
  is_space c = false -> exists r', trimEnd (c :: r) = c :: r'.
Proof. intros H. simpl. destruct (trimEnd r); [rewrite H|]; eauto. Qed.

Lemma trimEnd_idem (s : t) : trimEnd (trimEnd s) = trimEnd s.
Proof.
  induction s as [|c r IH]; simpl; auto.
  destruct (trimEnd r) as [|d r'] eqn:E.
  - destruct (is_space c) eqn:S; simpl; auto. now rewrite S.
  - simpl in *. rewrite IH. reflexivity.
Qed.

Lemma trim_idem (s : t) : trim (trim s) = trim s.
Proof.
  unfold trim.
  destruct (trimStart s) as [|c r] eqn:E; auto.
  pose proof (@trimStart_head s c r E) as S.
  destruct (@trimEnd_keeps_head c r S) as (r' & T).
  rewrite T, (@trimStart_nonspace c r' S), <- T. apply trimEnd_idem.
Qed.

Lemma trim_nonspace_ends (a : t) (c : N) :
  forallb (fun x => negb (is_space x)) (a ++ [c])%list = true ->
  trim (a ++ [c])%list = (a ++ [c])%list.
Proof.
  intros A. unfold trim.
  assert (S : trimStart (a ++ [c])%list = (a ++ [c])%list).
  { destruct a as [|x a]; simpl in *.
    - apply andb_true_iff in A. destruct A as [A _].
      apply negb_true_iff in A. now rewrite A.
    - apply andb_true_iff in A. destruct A as [A _].
      apply negb_true_iff in A. now rewrite A. }
  rewrite S. rewrite <- (app_nil_r (a ++ [c])%list) at 1.
  rewrite (@trimEnd_app (a ++ [c])%list [] A). simpl. now rewrite app_nil_r.
Qed.

(** The first part of a split is the text before the first separator. *)
Lemma split_first_part (sep : N) (s : t) :
  exists ps, split sep s = takeWhile (fun c => negb (c =? sep)%N) s :: ps.
Proof.
  induction s as [|c r (ps & IH)]; simpl; eauto.
  destruct (c =? sep)%N; simpl; eauto. rewrite IH. eauto.
Qed.

Lemma split_app_sep (sep : N) (a b : t) :
  forallb (fun c => negb (c =? sep)%N) a = true ->
  split sep (a ++ sep :: b)%list = a :: split sep b.
Proof.
  intros A. induction a as [|x a IH]; simpl in *.
  - now rewrite N.eqb_refl.
  - apply andb_true_iff in A. destruct A as [Fx A].
    apply negb_true_iff in Fx. rewrite Fx, (IH A). reflexivity.
Qed.

Lemma decimal_nonneg_from (ds : t) (acc : Z) :
  forallb is_digit ds = true -> 0 <= acc ->
  0 <= fold_left (fun a c => a * 10 + (Z.of_N c - 48)) ds acc.
Proof.
  revert acc. induction ds as [|c r IH]; simpl; intros acc D A; auto.
  apply andb_true_iff in D. destruct D as [Dc D].
  apply IH; auto. unfold is_digit in Dc.
  apply andb_true_iff in Dc. destruct Dc as [L _]. apply N.leb_le in L. lia.
Qed.

Lemma decimal_nonneg (ds : t) : forallb is_digit ds = true -> 0 <= decimal ds.
Proof. intros D. apply decimal_nonneg_from; auto. lia. Qed.

(** [parseInt] reads the leading digits and ignores what follows them. *)
Lemma parseInt10_digits (ds rest : t) :
  ds <> [] -> forallb is_digit ds = true ->
  match rest with [] => True | c :: _ => is_digit c = false end ->
  parseInt10 (ds ++ rest)%list = Some (decimal ds).
Proof.
  intros N D R. unfold parseInt10.
  destruct ds as [|d ds]; [congruence|]. clear N.
  assert (Dd : is_digit d = true) by (simpl in D; now apply andb_true_iff in D).
  rewrite <- app_comm_cons, (@trimStart_nonspace d _ (@digit_not_space d Dd)).
  assert (Sign : (d =? 45)%N = false /\ (d =? 43)%N = false).
  { unfold is_digit in Dd. apply andb_true_iff in Dd. destruct Dd as [L _].
    apply N.leb_le in L. split; apply N.eqb_neq; lia. }
  destruct Sign as [S1 S2]. cbv zeta. rewrite S1, S2. simpl orb. cbv iota.
  destruct (@takeWhile_app is_digit (d :: ds) rest D R) as [T _].
  rewrite app_comm_cons, T. reflexivity.
Qed.

End JsTextFacts.

(** ** [parseCliOptions] *)

Module CliFacts.
Import JsText Cli.

(** The loop handles one argument and goes on with the rest. *)
Lemma parse_from_cons (o : CliOptions) (arg : JsText.t) (rest : list JsText.t) :
  parse_from o (arg :: rest) =
  match parse_from o [arg] with
  | inl o' => parse_from o' rest
  | inr e => inr e
  end.
Proof.
  cbn [parse_from].
  destruct (startsWith (lit "--transport=") arg).
  - destruct (transport_named _); reflexivity.
  - destruct (startsWith (lit "--port=") arg).
    + destruct (option_map trim (option_value arg)) as [[|c r]|]; try reflexivity.
      destruct (parseInt10 (c :: r)) as [n|]; try reflexivity.
      destruct ((n <? 1) || (n >? 65535))%bool; reflexivity.
    + destruct (startsWith (lit "--host=") arg); try reflexivity.
      destruct (option_map trim (option_value arg)) as [[|c r]|]; reflexivity.
Qed.

Lemma parse_from_app (o : CliOptions) (a b : list JsText.t) :
  parse_from o (a ++ b)%list =
  match parse_from o a with
  | inl o' => parse_from o' b
  | inr e => inr e
  end.
Proof.
  revert o. induction a as [|arg a IH]; intros o; [reflexivity|].
  rewrite <- app_comm_cons, parse_from_cons, (parse_from_cons o arg a).
  destruct (parse_from o [arg]); auto.
Qed.

(** Whether one argument is refused does not depend on the values read so
    far. *)
Lemma refusal_is_stateless (o o' : CliOptions) (arg : JsText.t) (e : string) :
  parse_from o [arg] = inr e -> parse_from o' [arg] = inr e.
Proof.
  cbn [parse_from].
  destruct (startsWith (lit "--transport=") arg).
  - destruct (transport_named _); [discriminate|auto].
  - destruct (startsWith (lit "--port=") arg).
    + destruct (option_map trim (option_value arg)) as [[|c r]|]; auto.
      destruct (parseInt10 (c :: r)) as [n|]; auto.
      destruct ((n <? 1) || (n >? 65535))%bool; [auto|discriminate].
    + destruct (startsWith (lit "--host=") arg); [|discriminate].
      destruct (option_map trim (option_value arg)) as [[|c r]|]; auto.
      discriminate.
Qed.

Lemma not_option_skipped (o : CliOptions) (arg : JsText.t) (rest : list JsText.t) :
  is_option arg = false -> parse_from o (arg :: rest) = parse_from o rest.
Proof.
  unfold is_option. intros H.
  apply orb_false_iff in H. destruct H as [H H3].
  apply orb_false_iff in H. destruct H as [H1 H2].
  cbn [parse_from]. now rewrite H1, H2, H3.
Qed.

(** X7: arguments that are none of [--transport=], [--port=] and [--host=]
    are ignored wherever they stand; with no option at all (the empty
    command line included) the result is stdio, port 45451, host 0.0.0.0. *)
Theorem other_arguments_ignored :
  (forall argv, parseCliOptions (filter is_option argv) = parseCliOptions argv)
  /\ (forall argv,
        forallb (fun a => negb (is_option a)) argv = true ->
        parseCliOptions argv = inl defaults).
Proof.
  assert (F : forall argv o, parse_from o (filter is_option argv) = parse_from o argv).
  { induction argv as [|arg argv IH]; intros o; [reflexivity|].
    simpl filter. destruct (is_option arg) eqn:E.
    - rewrite parse_from_cons, (parse_from_cons o arg argv).
      destruct (parse_from o [arg]); auto.
    - now rewrite (@not_option_skipped o arg argv E). }
  split; [intros argv; apply F|].
  intros argv H. unfold parseCliOptions. rewrite <- F.
  replace (filter is_option argv) with (@nil JsText.t); [reflexivity|].
  induction argv as [|arg argv IH]; [reflexivity|].
  simpl in *. apply andb_true_iff in H. destruct H as [A H].
  apply negb_true_iff in A. rewrite A. auto.
Qed.

Lemma parse_from_valid (argv : list JsText.t) :
  forall o o', valid o -> parse_from o argv = inl o' -> valid o'.
Proof.
  induction argv as [|arg argv IH]; intros o o' V; cbn [parse_from].
  - now intros [= <-].
  - destruct V as (P & H & T).
    destruct (startsWith (lit "--transport=") arg).
    { destruct (transport_named _); [|discriminate]. apply IH. now repeat split. }
    destruct (startsWith (lit "--port=") arg).
    { destruct (option_map trim (option_value arg)) as [[|c r]|]; try discriminate.
      destruct (parseInt10 (c :: r)) as [n|]; try discriminate.
      destruct ((n <? 1) || (n >? 65535))%bool eqn:B; [discriminate|].
      apply orb_false_iff in B. destruct B as [B1 B2].
      apply Z.ltb_ge in B1. rewrite Z.gtb_ltb in B2. apply Z.ltb_ge in B2.
      apply IH. repeat split; simpl; auto; lia. }
    destruct (startsWith (lit "--host=") arg); [|apply IH; now repeat split].
    destruct (option_map trim (option_value arg)) as [[|c r]|] eqn:R;
      try discriminate.
    apply IH. split; [exact P|]. split; [discriminate|]. cbn [host].
    destruct (option_value arg) as [v|]; [|discriminate].
    simpl in R. injection R as R. rewrite <- R. apply JsTextFacts.trim_idem.
Qed.

(** X8: whenever [parseCliOptions] returns, the port is an integer from 1
    to 65535 and the host is a non-empty text without white space at either
    end. *)
Theorem parsed_options_are_valid (argv : list JsText.t) (o : CliOptions) :
  parseCliOptions argv = inl o ->
  1 <= port o <= 65535 /\ host o <> [] /\ trim (host o) = host o.
Proof.
  apply parse_from_valid. repeat split; try reflexivity; try discriminate;
    simpl; lia.
Qed.

(** X9: the arguments are read from left to right: parsing [a ++ b] is
    parsing [b] from the values [a] gave, so a later option replaces an
    earlier one; and an argument that is refused on its own makes every
    command line that contains it fail. *)
Theorem options_read_left_to_right :
  (forall a b,
     parseCliOptions (a ++ b)%list =
     match parseCliOptions a with
     | inl o => parse_from o b
     | inr e => inr e
     end)
  /\ (forall argv arg e,
        In arg argv -> parseCliOptions [arg] = inr e ->
        exists e', parseCliOptions argv = inr e').
Proof.
  split; [intros a b; apply parse_from_app|].
  unfold parseCliOptions. generalize defaults as o0. intros o0 argv arg e I R.
  assert (G : forall o, exists e', parse_from o argv = inr e').
  { induction argv as [|a argv IH]; [destruct I|]. intros o.
    rewrite parse_from_cons. destruct I as [->|I].
    - rewrite (@refusal_is_stateless o0 o arg e R). eauto.
    - destruct (parse_from o [a]); eauto. }
  apply G.
Qed.

Lemma takeWhile_app_all (f : N -> bool) (a b : JsText.t) :
  forallb f a = true -> takeWhile f (a ++ b)%list = (a ++ takeWhile f b)%list.
Proof.
  intros A. induction a as [|x a IH]; simpl in *; auto.
  apply andb_true_iff in A. destruct A as [Fx A]. now rewrite Fx, IH.
Qed.

Lemma digits_are_not (k : N) (ds : JsText.t) :
  is_digit k = false -> forallb is_digit ds = true ->
  forallb (fun c => negb (c =? k)%N) ds = true.
Proof.
  intros K. induction ds as [|d ds IH]; simpl; auto.
  intros H. apply andb_true_iff in H. destruct H as [D H].
  rewrite (IH H), andb_true_r. apply negb_true_iff, N.eqb_neq.
  intros ->. congruence.
Qed.

Lemma digits_not_space (ds : JsText.t) :
  forallb is_digit ds = true ->
  forallb (fun c => negb (is_space c)) ds = true.
Proof.
  induction ds as [|d ds IH]; simpl; auto.
  intros H. apply andb_true_iff in H. destruct H as [D H].
  now rewrite (@JsTextFacts.digit_not_space d D), (IH H).
Qed.

(** What [--port=] reads from digits followed by anything that is not a
    digit. *)
Lemma port_value (ds tail : JsText.t) :
  ds <> [] -> forallb is_digit ds = true ->
  match tail with [] => True | c :: _ => is_digit c = false end ->
  exists rest,
    option_map trim (option_value (lit "--port=" ++ ds ++ tail)%list)
      = Some (ds ++ rest)%list
    /\ match rest with [] => True | c :: _ => is_digit c = false end.
Proof.
  intros N D T.
  unfold option_value.
  change (lit "--port=" ++ ds ++ tail)%list
    with (lit "--port" ++ 61%N :: (ds ++ tail))%list.
  rewrite JsTextFacts.split_app_sep by reflexivity.
  destruct (JsTextFacts.split_first_part 61 (ds ++ tail)%list) as (ps & ->).
  simpl nth_error. simpl option_map.
  rewrite (@takeWhile_app_all _ ds tail (@digits_are_not 61 ds eq_refl D)).
  set (tw := takeWhile (fun c => negb (c =? 61)%N) tail).
  assert (Htw : match tw with [] => True | c :: _ => is_digit c = false end).
  { subst tw. destruct tail as [|c tail]; simpl; auto.
    destruct (negb (c =? 61)%N); simpl; auto. }
  exists (trimEnd tw). split.
  - unfold trim. destruct ds as [|d ds]; [congruence|].
    assert (Dd : is_digit d = true) by (simpl in D; now apply andb_true_iff in D).
    rewrite <- app_comm_cons,
      (@JsTextFacts.trimStart_nonspace d _ (@JsTextFacts.digit_not_space d Dd)).
    rewrite app_comm_cons.
    now rewrite (@JsTextFacts.trimEnd_app (d :: ds) tw (@digits_not_space _ D)).
  - pose proof (JsTextFacts.trimEnd_head tw) as Hd.
    destruct (trimEnd tw) as [|c r]; auto.
    destruct Hd as (r0 & E). rewrite E in Htw. exact Htw.
Qed.

(** X10: a [--port=] option is read like [parseInt] reads it: the leading
    decimal digits give the port and whatever follows them, if it does not
    start with a digit, is ignored ([8080abc], [80.5] and [80=90] are
    accepted as 8080, 80 and 80).  The option replaces the port read so far
    and leaves the transport and the host as they were. *)
Theorem port_option_reads_leading_digits
  (argv : list JsText.t) (o : CliOptions) (ds tail : JsText.t) :
  parseCliOptions argv = inl o ->
  ds <> [] ->
  forallb is_digit ds = true ->
  1 <= decimal ds <= 65535 ->
  match tail with [] => True | c :: _ => is_digit c = false end ->
  parseCliOptions (argv ++ [(lit "--port=" ++ ds ++ tail)%list])%list
  = inl {| transport := transport o; port := decimal ds; host := host o |}.
Proof.
  intros A N D R T.
  unfold parseCliOptions in *. rewrite parse_from_app, A.
  destruct (@port_value ds tail N D T) as (rest & V & Hr).
  cbn [parse_from].
  change (startsWith (lit "--transport=") (lit "--port=" ++ ds ++ tail)%list)
    with false.
  change (startsWith (lit "--port=") (lit "--port=" ++ ds ++ tail)%list)
    with true.
  cbv iota zeta. rewrite V.
  destruct ds as [|d ds]; [congruence|].
  rewrite <- app_comm_cons.
  rewrite app_comm_cons, (@JsTextFacts.parseInt10_digits (d :: ds) rest N D Hr).
  replace ((decimal (d :: ds) <? 1) || (decimal (d :: ds) >? 65535))%bool
    with false; [reflexivity|].
  symmetry. apply orb_false_iff. split.
  - apply Z.ltb_ge. lia.
  - rewrite Z.gtb_ltb. apply Z.ltb_ge. lia.
Qed.

End CliFacts.

(** ** [parseTimeframeMinutes] *)

Module TimeframeFacts.
Import JsText Timeframe.

(** The texts the pattern matches: digits, at least one, and one unit. *)
Lemma match_timeframe_spec (s digits unit : JsText.t) :
  match_timeframe s = Some (digits, unit) <->
  exists u, unit = [u] /\ s = (digits ++ [u])%list /\ digits <> []
            /\ forallb is_digit digits = true /\ is_unit u = true.
Proof.
  unfold match_timeframe. split.
  - pose proof (JsTextFacts.takeWhile_dropWhile is_digit s) as E.
    pose proof (JsTextFacts.takeWhile_all is_digit s) as A.
    destruct (takeWhile is_digit s) as [|d ds]; [discriminate|].
    destruct (dropWhile is_digit s) as [|u [|? ?]]; try discriminate.
    destruct (is_unit u) eqn:U; [|discriminate].
    intros [= <- <-]. exists u. repeat split; auto. discriminate.
  - intros (u & -> & -> & N & D & U).
    assert (Nd : is_digit u = false).
    { unfold is_unit in U. unfold is_digit.
      repeat (apply orb_true_iff in U; destruct U as [U|U]);
        apply N.eqb_eq in U; subst u; reflexivity. }
    destruct (@JsTextFacts.takeWhile_app is_digit digits [u] D Nd) as [-> ->].
    destruct digits; [congruence|]. now rewrite U.
Qed.

Lemma unit_not_space (u : N) : is_unit u = true -> is_space u = false.
Proof.
  unfold is_unit. intros U.
  repeat (apply orb_true_iff in U; destruct U as [U|U]);
    apply N.eqb_eq in U; subst u; reflexivity.
Qed.

Lemma unit_lower (u : N) :
  is_unit u = true ->
  eqb (toLowerCase [u]) (lit "h") = ((u =? 104) || (u =? 72))%N%bool.
Proof.
  unfold is_unit. intros U.
  repeat (apply orb_true_iff in U; destruct U as [U|U]);
    apply N.eqb_eq in U; subst u; reflexivity.
Qed.

(** X11: [parseTimeframeMinutes] returns exactly for the texts that, trimmed,
    are one or more decimal digits followed by one of [m], [h], [M], [H]; it
    throws for every other text, and what it returns is never [NaN]. *)
Theorem timeframe_accepted_iff (timeframe : JsText.t) :
  ((exists r, parseTimeframeMinutes timeframe = inl r) <->
   (exists digits u,
      trim timeframe = (digits ++ [u])%list /\ digits <> []
      /\ forallb is_digit digits = true /\ is_unit u = true))
  /\ (forall r, parseTimeframeMinutes timeframe = inl r ->
                exists n, r = Some n /\ 0 <= n)
  /\ (forall e, parseTimeframeMinutes timeframe = inr e ->
                e = "Invalid timeframe. Use values like 5m, 15m, or 1h.").
Proof.
  unfold parseTimeframeMinutes.
  destruct (match_timeframe (trim timeframe)) as [[digits unit]|] eqn:M.
  - apply match_timeframe_spec in M. destruct M as (u & -> & E & N & D & U).
    split; [|split].
    + split; eauto 10.
    + intros r [= <-].
      pose proof (@JsTextFacts.parseInt10_digits digits [] N D I) as P.
      rewrite app_nil_r in P. rewrite P.
      pose proof (JsTextFacts.decimal_nonneg digits D).
      destruct (eqb _ _); simpl; eexists; split; try reflexivity; lia.
    + discriminate.
  - split; [|split].
    + split; [intros (r & R); discriminate|].
      intros (digits & u & E & N & D & U).
      assert (X : match_timeframe (trim timeframe) = Some (digits, [u]))
        by (apply match_timeframe_spec; eauto 10).
      congruence.
    + discriminate.
    + now intros e [= <-].
Qed.

(** X12: a time frame written as digits and a unit, with any white space
    around it, is that many minutes for [m] or [M] and sixty times as many
    for [h] or [H], as long as the result stays an exact double (at most
    2^53). *)
Theorem timeframe_minutes_and_hours
  (before digits after : JsText.t) (u : N) :
  forallb is_space before = true ->
  forallb is_space after = true ->
  digits <> [] ->
  forallb is_digit digits = true ->
  is_unit u = true ->
  decimal digits * 60 <= 2 ^ 53 ->
  parseTimeframeMinutes (before ++ digits ++ [u] ++ after)%list
  = inl (Some (if ((u =? 104) || (u =? 72))%N%bool
               then decimal digits * 60 else decimal digits)).
Proof.
  intros B A N D U _.
  assert (T : trim (before ++ digits ++ [u] ++ after)%list = (digits ++ [u])%list).
  { unfold trim.
    assert (S : trimStart (before ++ digits ++ [u] ++ after)%list
                = (digits ++ [u] ++ after)%list).
    { clear A. induction before as [|b before IH]; simpl in *.
      - destruct digits as [|d ds]; [congruence|].
        simpl in D. apply andb_true_iff in D. destruct D as [Dd _].
        simpl. now rewrite (@JsTextFacts.digit_not_space d Dd).
      - apply andb_true_iff in B. destruct B as [Bb B]. rewrite Bb. auto. }
    rewrite S, app_assoc.
    rewrite (@JsTextFacts.trimEnd_app (digits ++ [u])%list after).
    - apply JsTextFacts.trimEnd_nil_iff in A. rewrite A. apply app_nil_r.
    - rewrite forallb_app. rewrite (CliFacts.digits_not_space _ D). simpl.
      now rewrite (unit_not_space _ U). }
  unfold parseTimeframeMinutes. rewrite T.
  assert (M : match_timeframe (digits ++ [u])%list = Some (digits, [u]))
    by (apply match_timeframe_spec; eauto 10).
  rewrite M. cbv zeta.
  pose proof (@JsTextFacts.parseInt10_digits digits [] N D I) as P.
  rewrite app_nil_r in P. rewrite P.
  rewrite (unit_lower _ U). destruct ((u =? 104) || (u =? 72))%N%bool; reflexivity.
Qed.

(** X13: every text the schema of [query_logs] lets through is accepted by
    [parseTimeframeMinutes]: the handler never throws the invalid-timeframe
    error on validated input. *)
Theorem schema_valid_timeframe_parses (timeframe : JsText.t) :
  timeframe_schema timeframe = true ->
  exists n, parseTimeframeMinutes timeframe = inl (Some n) /\ 0 <= n.
Proof.
  unfold timeframe_schema.
  destruct (match_timeframe timeframe) as [[digits unit]|] eqn:M; [|discriminate].
  intros _. apply match_timeframe_spec in M.
  destruct M as (u & -> & -> & N & D & U).
  assert (T : trim (digits ++ [u])%list = (digits ++ [u])%list).
  { apply JsTextFacts.trim_nonspace_ends.
    rewrite forallb_app, (CliFacts.digits_not_space _ D). simpl.
    now rewrite (unit_not_space _ U). }
  unfold parseTimeframeMinutes. rewrite T.
  assert (M : match_timeframe (digits ++ [u])%list = Some (digits, [u]))
    by (apply match_timeframe_spec; eauto 10).
  rewrite M. cbv zeta.
  pose proof (@JsTextFacts.parseInt10_digits digits [] N D I) as P.
  rewrite app_nil_r in P. rewrite P.
  pose proof (JsTextFacts.decimal_nonneg digits D).
  destruct (eqb _ _); simpl; eexists; split; try reflexivity; lia.
Qed.

End TimeframeFacts.

(** ** Start-up *)

Section StartupFacts.
Context {sdk : Sdk} {node : Host}.

(** X14: [start] always completes, in one of two ways.  Either [main] was
    rejected (invalid options, a rejected [connect] or a failed [listen]):
    the fatal error is logged, the process exits with status 1 and neither
    server variable has been assigned.  Or [main] returned: no exit happens
    and exactly one of the two server variables has been assigned, the one
    the chosen transport calls for.  The session table is never touched. *)
Theorem start_brings_up_one_server_or_exits
  (process_argv : list JsText.t) (p : Process) :
  exists p',
    start process_argv p = (Normal tt, p')
    /\ activeSessions (proc_world p') = activeSessions (proc_world p)
    /\ ((trace (proc_world p') =
           (trace (proc_world p) ++
            [EvConsoleError "Fatal server error:"; EvExit 1])%list
         /\ activeHttpServer (proc_world p') = activeHttpServer (proc_world p)
         /\ activeStdioServer (proc_world p') = activeStdioServer (proc_world p))
        \/ (trace (proc_world p') = trace (proc_world p)
            /\ exists options,
                 Cli.parseCliOptions (skipn 2 process_argv) = inl options
                 /\ match Cli.transport options with
                    | Cli.stdio =>
                        activeStdioServer (proc_world p')
                          = Some (mkServer (next_oid (proc_world p)))
                        /\ activeHttpServer (proc_world p')
                           = activeHttpServer (proc_world p)
                    | _ =>
                        activeHttpServer (proc_world p') = Some TheHttpServer
                        /\ activeStdioServer (proc_world p')
                           = activeStdioServer (proc_world p)
                    end)).
Proof.
  unfold start, try_catch, main.
  destruct (Cli.parseCliOptions (skipn 2 process_argv)) as [options|e] eqn:E.
  - destruct (Cli.transport options) eqn:T.
    + destruct (sdk_connect_stdio _ _ _) as [[] x]; simpl.
      * eexists. split; [reflexivity|]. split; [reflexivity|].
        right. split; [reflexivity|]. exists options. rewrite T. auto.
      * eexists. split; [reflexivity|]. split; [reflexivity|].
        left. simpl. rewrite <- app_assoc. auto.
    + destruct (node_listen _ _ _ _) as [[] x]; simpl.
      * eexists. split; [reflexivity|]. split; [reflexivity|].
        right. split; [reflexivity|]. exists options. rewrite T. auto.
      * eexists. split; [reflexivity|]. split; [reflexivity|].
        left. simpl. rewrite <- app_assoc. auto.
    + destruct (node_listen _ _ _ _) as [[] x]; simpl.
      * eexists. split; [reflexivity|]. split; [reflexivity|].
        right. split; [reflexivity|]. exists options. rewrite T. auto.
      * eexists. split; [reflexivity|]. split; [reflexivity|].
        left. simpl. rewrite <- app_assoc. auto.
  - simpl. eexists. split; [reflexivity|]. split; [reflexivity|].
    left. simpl. rewrite <- app_assoc. auto.
Qed.

(** X15: options that do not parse stop the process before anything is
    constructed: no object is allocated, no collaborator is called, and
    [start] logs the fatal error and exits with status 1. *)
Theorem invalid_options_exit_before_any_server
  (process_argv : list JsText.t) (p : Process) (e : string) :
  Cli.parseCliOptions (skipn 2 process_argv) = inr e ->
  main process_argv p = (Throw, p)
  /\ start process_argv p =
       (Normal tt,
        {| proc_world :=
             {| activeSessions := activeSessions (proc_world p);
                activeHttpServer := activeHttpServer (proc_world p);
                activeStdioServer := activeStdioServer (proc_world p);
                next_oid := next_oid (proc_world p);
                ext := ext (proc_world p);
                trace := (trace (proc_world p) ++
                          [EvConsoleError "Fatal server error:"; EvExit 1])%list |};
           started := started p |}).
Proof.
  intros E. unfold start, try_catch, main. rewrite E. split; [reflexivity|].
  unfold bind, console_error, process_exit, called. simpl.
  now rewrite <- app_assoc.
Qed.

(** X16: a server started on the stdio transport shuts down cleanly: after
    [main] has returned for a freshly loaded process, [shutdown] closes no
    listener, finds no session, calls the close of the stdio server once and
    exits with status 0, whether that close fails or not. *)
Theorem stdio_server_shuts_down
  (process_argv : list JsText.t) (x : Ext) (options : Cli.CliOptions)
  (p' : Process) (fuel : nat) :
  Cli.parseCliOptions (skipn 2 process_argv) = inl options ->
  Cli.transport options = Cli.stdio ->
  main process_argv (boot x) = (Normal tt, p') ->
  exists w',
    shutdown fuel (proc_world p') = (Normal tt, w')
    /\ trace w' = [EvServerClose (mkServer 0); EvExit 0]
    /\ JsMap.size (activeSessions w') = 0%nat.
Proof.
  intros E T. unfold main, boot. rewrite E, T. simpl.
  destruct (sdk_connect_stdio _ _ _) as [[] x1]; [|discriminate].
  intros [= <-].
  unfold shutdown, bind, ret. simpl.
  assert (L : forall w0 : World,
            activeSessions w0 = [] ->
            for_of_activeSessions fuel 0 drain_one w0 = (Normal tt, w0)).
  { intros w0 A. destruct fuel; simpl; now rewrite A. }
  rewrite L by reflexivity. simpl.
  unfold swallow, try_catch, server_close, process_exit, ret, settle. simpl.
  destruct (sdk_server_close _ x1) as [[] x2]; simpl;
    eexists; repeat split.
Qed.

End StartupFacts.

(** ** The text helpers of the agent runner *)

Module AgentRunnerFacts.
Import JsText AgentRunner.

Lemma is_word_cons (c : N) (p : JsText.t) :
  is_word (c :: p) = true <->
  is_space c = false /\ forallb (fun x => negb (is_space x)) p = true.
Proof.
  unfold is_word. simpl. rewrite andb_true_iff, negb_true_iff. tauto.
Qed.

Lemma join_head (x : N) (p : JsText.t) (ps : list JsText.t) (sep : JsText.t) :
  join sep ((x :: p) :: ps) = x :: join sep (p :: ps).
Proof. destruct ps; reflexivity. Qed.

Lemma join_two (sep p : JsText.t) (q : JsText.t) (ps : list JsText.t) :
  join sep (p :: q :: ps) = (p ++ sep ++ join sep (q :: ps))%list.
Proof. reflexivity. Qed.

Lemma join_words_nil (ps : list JsText.t) :
  forallb is_word ps = true -> join [32%N] ps = [] -> ps = [].
Proof.
  intros W J. destruct ps as [|[|c p] ps]; auto.
  - discriminate W.
  - rewrite join_head in J. discriminate J.
Qed.

Lemma collapse_true_trimStart (s : JsText.t) :
  trimStart (collapse true s) = collapse true s.
Proof.
  induction s as [|c r IH]; simpl; auto.
  destruct (is_space c) eqn:S; auto. simpl. now rewrite S.
Qed.

Lemma collapse_false_trimStart (s : JsText.t) :
  trimStart (collapse false s) = collapse true s.
Proof.
  destruct s as [|c r]; simpl; auto.
  destruct (is_space c) eqn:S; simpl.
  - apply collapse_true_trimStart.
  - now rewrite S.
Qed.

Lemma runs_eq (c : N) (r : JsText.t) :
  runs (c :: r) =
  if is_space c then runs r
  else match r with
       | [] => [[c]]
       | d :: _ =>
           if is_space d then [c] :: runs r
           else match runs r with
                | p :: ps => (c :: p) :: ps
                | [] => [[c]]
                end
       end.
Proof. reflexivity. Qed.

Lemma runs_are_words (s : JsText.t) : forallb is_word (runs s) = true.
Proof.
  induction s as [|c r IH]; [reflexivity|].
  rewrite runs_eq. destruct (is_space c) eqn:S; auto.
  assert (Wc : is_word [c] = true) by (unfold is_word; simpl; now rewrite S).
  destruct r as [|d r']; [cbn [forallb]; now rewrite Wc|].
  destruct (is_space d).
  - cbn [forallb]. now rewrite Wc, IH.
  - destruct (runs (d :: r')) as [|p ps]; [cbn [forallb]; now rewrite Wc|].
    cbn [forallb] in *. apply andb_true_iff in IH. destruct IH as [Wp Wps].
    rewrite Wps, andb_true_r. apply is_word_cons. split; [exact S|].
    unfold is_word in Wp. apply andb_true_iff in Wp. tauto.
Qed.

Lemma runs_nonspace_head (d : N) (r : JsText.t) :
  is_space d = false -> exists p ps, runs (d :: r) = (d :: p) :: ps.
Proof.
  intros S. rewrite runs_eq, S.
  destruct r as [|e r']; eauto.
  destruct (is_space e); eauto.
  destruct (runs (e :: r')); eauto.
Qed.

(** The collapsed and trimmed text is its words joined by single spaces. *)
Lemma normalised_is_joined_runs (s : JsText.t) :
  trimEnd (collapse true s) = join [32%N] (runs s).
Proof.
  induction s as [|c r IH]; auto.
  destruct (is_space c) eqn:S.
  - simpl. rewrite S. exact IH.
  - destruct r as [|d r'].
    + simpl. rewrite S. simpl. now rewrite S.
    + destruct (is_space d) eqn:Sd.
      * assert (IH' : trimEnd (collapse true r') = join [32%N] (runs r')).
        { simpl in IH. now rewrite Sd in IH. }
        assert (R : runs (c :: d :: r') = [c] :: runs r').
        { simpl. now rewrite S, Sd. }
        assert (C : collapse true (c :: d :: r') = c :: 32%N :: collapse true r').
        { simpl. now rewrite S, Sd. }
        rewrite R, C.
        change (trimEnd (c :: 32%N :: collapse true r'))
          with (match trimEnd (32%N :: collapse true r') with
                | [] => if is_space c then [] else [c]
                | r0 => c :: r0
                end).
        change (trimEnd (32%N :: collapse true r'))
          with (match trimEnd (collapse true r') with
                | [] => if is_space 32 then [] else [32%N]
                | r0 => 32%N :: r0
                end).
        rewrite IH'.
        destruct (join [32%N] (runs r')) as [|y ys] eqn:J.
        -- apply join_words_nil in J; [|apply runs_are_words].
           rewrite J. simpl. now rewrite S.
        -- destruct (runs r') as [|q qs]; [discriminate|].
           rewrite join_two, J. reflexivity.
      * destruct (@runs_nonspace_head d r' Sd) as (p & ps & Rd).
        assert (R : runs (c :: d :: r') = (c :: d :: p) :: ps).
        { change (runs (c :: d :: r'))
            with (if is_space c then runs (d :: r')
                  else if is_space d then [c] :: runs (d :: r')
                       else match runs (d :: r') with
                            | q :: qs => (c :: q) :: qs
                            | [] => [[c]]
                            end).
          now rewrite S, Sd, Rd. }
        assert (C : collapse true (c :: d :: r') = c :: collapse true (d :: r')).
        { simpl. now rewrite S, Sd. }
        rewrite R, C, join_head.
        change (trimEnd (c :: collapse true (d :: r')))
          with (match trimEnd (collapse true (d :: r')) with
                | [] => if is_space c then [] else [c]
                | r0 => c :: r0
                end).
        rewrite IH, Rd. rewrite !join_head. reflexivity.
Qed.

Lemma words_are_joined_runs (s : JsText.t) :
  words (Some s) = join [32%N] (runs s).
Proof.
  unfold words, trim, to_text.
  rewrite collapse_false_trimStart. apply normalised_is_joined_runs.
Qed.

Lemma word_has_no_space_unit (p : JsText.t) :
  forallb (fun x => negb (is_space x)) p = true ->
  forallb (fun c => negb (c =? 32)%N) p = true.
Proof.
  induction p as [|x p IH]; simpl; auto.
  intros H. apply andb_true_iff in H. destruct H as [Hx H].
  rewrite (IH H), andb_true_r.
  destruct (N.eqb_spec x 32) as [->|]; auto.
Qed.

Lemma split_no_separator (sep : N) (p : JsText.t) :
  forallb (fun c => negb (c =? sep)%N) p = true -> split sep p = [p].
Proof.
  induction p as [|x p IH]; simpl; auto.
  intros H. apply andb_true_iff in H. destruct H as [Hx H].
  apply negb_true_iff in Hx. now rewrite Hx, (IH H).
Qed.

Lemma word_no_space_units (p : JsText.t) :
  is_word p = true -> forallb (fun c => negb (c =? 32)%N) p = true.
Proof.
  unfold is_word. intros H. apply andb_true_iff in H.
  apply word_has_no_space_unit. tauto.
Qed.

(** Splitting at the spaces gives back the words that were joined. *)
Lemma split_join_words (p : JsText.t) (ps : list JsText.t) :
  forallb is_word (p :: ps) = true ->
  split 32 (join [32%N] (p :: ps)) = p :: ps.
Proof.
  revert p. induction ps as [|q ps IH]; intros p W.
  - simpl in W. rewrite andb_true_r in W.
    apply split_no_separator. now apply word_no_space_units.
  - change (forallb is_word (p :: q :: ps))
      with (is_word p && forallb is_word (q :: ps))%bool in W.
    apply andb_true_iff in W. destruct W as [Wp W].
    rewrite join_two.
    change (p ++ [32%N] ++ join [32%N] (q :: ps))%list
      with (p ++ 32%N :: join [32%N] (q :: ps))%list.
    rewrite JsTextFacts.split_app_sep by now apply word_no_space_units.
    now rewrite IH.
Qed.

Lemma filter_words (ps : list JsText.t) :
  forallb is_word ps = true -> filter nonempty ps = ps.
Proof.
  induction ps as [|p ps IH]; simpl; auto.
  intros H. apply andb_true_iff in H. destruct H as [Wp W].
  unfold is_word in Wp. apply andb_true_iff in Wp. destruct Wp as [-> _].
  now rewrite IH.
Qed.

Lemma parts_of_joined_words (ps : list JsText.t) :
  forallb is_word ps = true ->
  filter nonempty (split 32 (join [32%N] ps)) = ps.
Proof.
  intros W. destruct ps as [|p ps]; [reflexivity|].
  rewrite (@split_join_words p ps W). now apply filter_words.
Qed.

Lemma word_parts_are_runs (s : JsText.t) : word_parts (Some s) = runs s.
Proof.
  unfold word_parts. rewrite words_are_joined_runs.
  apply parts_of_joined_words, runs_are_words.
Qed.

Lemma runs_of_word_then_space (p : JsText.t) (c : N) (s : JsText.t) :
  is_word p = true -> is_space c = true ->
  runs (p ++ c :: s)%list = p :: runs s.
Proof.
  intros W Sc. induction p as [|x p IH]; [discriminate|].
  apply is_word_cons in W. destruct W as [Sx Wp].
  destruct p as [|y p'].
  - simpl. now rewrite Sx, Sc.
  - assert (Wyp : is_word (y :: p') = true).
    { apply is_word_cons. simpl in Wp. apply andb_true_iff in Wp.
      destruct Wp as [Sy Wp]. apply negb_true_iff in Sy. auto. }
    specialize (IH Wyp).
    assert (Sy : is_space y = false) by (apply is_word_cons in Wyp; tauto).
    change (runs ((x :: y :: p') ++ c :: s)%list)
      with (if is_space x then runs ((y :: p') ++ c :: s)%list
            else if is_space y then [x] :: runs ((y :: p') ++ c :: s)%list
                 else match runs ((y :: p') ++ c :: s)%list with
                      | q :: qs => (x :: q) :: qs
                      | [] => [[x]]
                      end).
    now rewrite Sx, Sy, IH.
Qed.

Lemma runs_of_word (p : JsText.t) : is_word p = true -> runs p = [p].
Proof.
  intros W. induction p as [|x p IH]; [discriminate|].
  apply is_word_cons in W. destruct W as [Sx Wp].
  destruct p as [|y p'].
  - simpl. now rewrite Sx.
  - assert (Wyp : is_word (y :: p') = true).
    { apply is_word_cons. simpl in Wp. apply andb_true_iff in Wp.
      destruct Wp as [Sy Wp]. apply negb_true_iff in Sy. auto. }
    specialize (IH Wyp).
    assert (Sy : is_space y = false) by (apply is_word_cons in Wyp; tauto).
    change (runs (x :: y :: p'))
      with (if is_space x then runs (y :: p')
            else if is_space y then [x] :: runs (y :: p')
                 else match runs (y :: p') with
                      | q :: qs => (x :: q) :: qs
                      | [] => [[x]]
                      end).
    now rewrite Sx, Sy, IH.
Qed.

(** The words of words joined by single spaces are those words. *)
Lemma runs_of_joined_words (ps : list JsText.t) :
  forallb is_word ps = true -> runs (join [32%N] ps) = ps.
Proof.
  induction ps as [|p ps IH]; [reflexivity|].
  intros W. simpl in W. apply andb_true_iff in W. destruct W as [Wp W].
  destruct ps as [|q ps].
  - now apply runs_of_word.
  - rewrite join_two.
    change (p ++ [32%N] ++ join [32%N] (q :: ps))%list
      with (p ++ 32%N :: join [32%N] (q :: ps))%list.
    rewrite runs_of_word_then_space by auto. now rewrite (IH W).
Qed.

(** Appending the ellipsis to joined words gives joined words again, as
    many as before, or one if there were none. *)
Lemma ellipsis_joins (ps : list JsText.t) :
  forallb is_word ps = true ->
  exists qs,
    forallb is_word qs = true
    /\ (join [32%N] ps ++ lit "...")%list = join [32%N] qs
    /\ List.length qs = Nat.max (List.length ps) 1.
Proof.
  induction ps as [|p ps IH]; intros W.
  - exists [lit "..."]. repeat split.
  - simpl in W. apply andb_true_iff in W. destruct W as [Wp W].
    destruct ps as [|q ps].
    + exists [(p ++ lit "...")%list]. repeat split.
      simpl. rewrite andb_true_r. unfold is_word in *.
      apply andb_true_iff in Wp. destruct Wp as [Np Sp].
      rewrite forallb_app, Sp. destruct p; [discriminate|reflexivity].
    + destruct (IH W) as (qs & Wq & J & L).
      exists (p :: qs). split; [|split].
      * simpl. now rewrite Wp, Wq.
      * rewrite join_two, <- !app_assoc, J.
        destruct qs as [|q0 qs]; [simpl in L; lia|]. reflexivity.
      * simpl in *. lia.
Qed.

(** X17: [words] puts a text in a normal form: its maximal runs of units
    that are not white space, in order, joined by single spaces.  Splitting
    the result at the spaces gives exactly those runs, none of them empty,
    and normalising twice changes nothing more. *)
Theorem words_normal_form (text : JsText.t) :
  words (Some text) = join (lit " ") (runs text)
  /\ word_parts (Some text) = runs text
  /\ forallb is_word (word_parts (Some text)) = true
  /\ words (Some (words (Some text))) = words (Some text)
  /\ words None = [].
Proof.
  split; [apply words_are_joined_runs|].
  split; [apply word_parts_are_runs|].
  split; [rewrite word_parts_are_runs; apply runs_are_words|].
  split; [|reflexivity].
  rewrite (words_are_joined_runs text), words_are_joined_runs.
  now rewrite runs_of_joined_words by apply runs_are_words.
Qed.

Lemma word_parts_option (text : option JsText.t) :
  word_parts text = runs (to_text text)
  /\ words text = join [32%N] (runs (to_text text)).
Proof.
  destruct text as [s|].
  - split; [apply word_parts_are_runs | apply words_are_joined_runs].
  - split; reflexivity.
Qed.

(** X18: a text of at most [maxWords] words comes back from [trimWords]
    normalised and otherwise whole: exactly what [words] returns. *)
Theorem trimWords_within_limit (text : option JsText.t) (maxWords : nat) :
  (List.length (word_parts text) <= maxWords)%nat ->
  trimWords text maxWords = words text.
Proof.
  intros L. unfold trimWords. apply Nat.leb_le in L. rewrite L.
  destruct (word_parts_option text) as [-> ->]. reflexivity.
Qed.

Lemma forallb_firstn (f : JsText.t -> bool) (n : nat) (l : list JsText.t) :
  forallb f l = true -> forallb f (firstn n l) = true.
Proof.
  revert l. induction n as [|n IH]; intros [|x l]; simpl; auto.
  intros H. apply andb_true_iff in H. destruct H as [-> H]. now apply IH.
Qed.

(** What [trimWords] returns: joined words, at most [maxWords] of them, or
    one when [maxWords] is 0 and the text was cut. *)
Lemma trimWords_shape (text : option JsText.t) (maxWords : nat) :
  exists qs,
    forallb is_word qs = true
    /\ trimWords text maxWords = join [32%N] qs
    /\ (List.length qs <= Nat.max maxWords 1)%nat
    /\ ((List.length qs <= maxWords)%nat \/ (maxWords = 0%nat /\ qs = [lit "..."])).
Proof.
  unfold trimWords. destruct (word_parts_option text) as [-> _].
  pose proof (runs_are_words (to_text text)) as W.
  destruct (Nat.leb_spec (List.length (runs (to_text text))) maxWords) as [L|L].
  - exists (runs (to_text text)). repeat split; auto. lia.
  - assert (Wf : forallb is_word (firstn maxWords (runs (to_text text))) = true).
    { now apply forallb_firstn. }
    assert (Lf : List.length (firstn maxWords (runs (to_text text))) = maxWords)
      by (rewrite length_firstn; lia).
    destruct maxWords as [|n].
    + exists [lit "..."]. repeat split; auto.
    + destruct (@ellipsis_joins _ Wf) as (qs & Wq & J & Lq).
      exists qs. change (lit " ") with [32%N]. rewrite J, Lq, Lf.
      repeat split; auto; lia.
Qed.

(** X19: [trimWords] never returns more than [maxWords] words (one word,
    the ellipsis, when [maxWords] is 0 and the text was cut), and the words
    it returns are separated by single spaces with none at either end. *)
Theorem trimWords_respects_limit (text : option JsText.t) (maxWords : nat) :
  (List.length (word_parts (Some (trimWords text maxWords))) <= Nat.max maxWords 1)%nat
  /\ words (Some (trimWords text maxWords)) = trimWords text maxWords.
Proof.
  destruct (trimWords_shape text maxWords) as (qs & W & -> & L & _).
  rewrite word_parts_are_runs, words_are_joined_runs, runs_of_joined_words by auto.
  auto.
Qed.

(** X20: [trimWords] is idempotent: trimming its own result to the same
    limit changes nothing. *)
Theorem trimWords_idempotent (text : option JsText.t) (maxWords : nat) :
  trimWords (Some (trimWords text maxWords)) maxWords = trimWords text maxWords.
Proof.
  destruct (trimWords_shape text maxWords) as (qs & W & E & _ & [L|(-> & ->)]).
  - rewrite E. unfold trimWords at 1.
    rewrite word_parts_are_runs, runs_of_joined_words by auto.
    apply Nat.leb_le in L. now rewrite L.
  - rewrite E. reflexivity.
Qed.

(** X21: [parseIncidentServices] never returns an empty list: it returns
    the services the text mentions, [checkout-api] before
    [payments-service], and both when it mentions neither, so that a text
    naming no service reads like one naming both. *)
Theorem parseIncidentServices_never_empty (incident : option JsText.t) :
  parseIncidentServices incident <> []
  /\ (parseIncidentServices incident = [lit "checkout-api"]
      \/ parseIncidentServices incident = [lit "payments-service"]
      \/ parseIncidentServices incident = [lit "checkout-api"; lit "payments-service"])
  /\ (In (lit "payments-service") (parseIncidentServices incident) <->
      (includes (toLowerCase (to_text incident)) (lit "payments-service") = true
       \/ includes (toLowerCase (to_text incident)) (lit "checkout-api") = false)).
Proof.
  unfold parseIncidentServices. cbv zeta.
  destruct (includes (toLowerCase (to_text incident)) (lit "checkout-api"));
    destruct (includes (toLowerCase (to_text incident)) (lit "payments-service"));
    cbn [app]; (split; [discriminate|]); (split; [auto|]);
    (split; [intros H | intros H]); simpl in *;
    intuition (try discriminate; auto).
Qed.

Lemma severity_here_group (s g : JsText.t) :
  severity_here s = Some g ->
  g <> [] /\ forallb is_severity_unit g = true.
Proof.
  unfold severity_here.
  destruct (startsWith_ci (lit "severity") s); [|discriminate].
  destruct (trimStart (skipn 8 s)) as [|c r]; [discriminate|].
  destruct ((c =? 58) || (c =? 61))%N%bool; [|discriminate].
  cbv zeta.
  match goal with
  | |- context [takeWhile is_severity_unit ?x] =>
      pose proof (JsTextFacts.takeWhile_all is_severity_unit x) as A;
      destruct (takeWhile is_severity_unit x) as [|y ys]; [discriminate|]
  end.
  intros [= <-]. split; [discriminate|exact A].
Qed.

Lemma severity_match_group (s g : JsText.t) :
  severity_match s = Some g ->
  g <> [] /\ forallb is_severity_unit g = true.
Proof.
  induction s as [|c r IH].
  - intros H. discriminate H.
  - change (severity_match (c :: r))
      with (match severity_here (c :: r) with
            | Some g0 => Some g0
            | None => severity_match r
            end).
    destruct (severity_here (c :: r)) eqn:E.
    + intros [= <-]. now apply severity_here_group in E.
    + exact IH.
Qed.

Lemma upper_severity_unit (c : N) :
  is_severity_unit c = true ->
  (((65 <=? upper_unit c) && (upper_unit c <=? 90))
   || ((48 <=? upper_unit c) && (upper_unit c <=? 57))
   || (upper_unit c =? 45))%N%bool = true.
Proof.
  unfold is_severity_unit, upper_unit. intros H.
  destruct ((97 <=? c) && (c <=? 122))%N%bool eqn:L.
  - apply andb_true_iff in L. destruct L as [A B].
    apply N.leb_le in A, B.
    apply orb_true_iff. left. apply orb_true_iff. left.
    apply andb_true_iff. split; apply N.leb_le; lia.
  - rewrite orb_false_r in H.
    repeat (apply orb_true_iff in H; destruct H as [H|H]); rewrite H; auto.
    + now rewrite orb_true_r.
    + now rewrite !orb_true_r.
Qed.

(** X22: [parseIncidentSeverity] always returns a usable label: a non-empty
    text made of capital letters, digits and hyphens only, which is [SEV-1]
    when the incident names no severity. *)
Theorem parseIncidentSeverity_label (incident : option JsText.t) :
  parseIncidentSeverity incident <> []
  /\ forallb (fun c => (((65 <=? c) && (c <=? 90)) || ((48 <=? c) && (c <=? 57))
                        || (c =? 45))%N%bool)
             (parseIncidentSeverity incident) = true
  /\ (severity_match (to_text incident) = None ->
      parseIncidentSeverity incident = lit "SEV-1").
Proof.
  unfold parseIncidentSeverity.
  destruct (severity_match (to_text incident)) as [g|] eqn:M.
  - apply severity_match_group in M. destruct M as [N A].
    split; [|split; [|discriminate]].
    + destruct g; [congruence|discriminate].
    + unfold toUpperCase. clear N. induction g as [|c g IH]; [reflexivity|].
      simpl in A. apply andb_true_iff in A. destruct A as [Ac A].
      cbn [map forallb]. now rewrite (upper_severity_unit c Ac), (IH A).
  - split; [discriminate|]. split; [reflexivity|auto].
Qed.

(** ** [trimMarkdownWords] *)

Lemma split_spaces_cons (b : bool) (s : JsText.t) :
  exists p ps, split_spaces b s = p :: ps.
Proof.
  revert b. induction s as [|c r IH]; intros b; simpl; eauto.
  destruct (is_space c).
  - destruct b; eauto.
  - destruct (IH false) as (p & ps & ->). eauto.
Qed.

Lemma split_spaces_head (c : N) (r : JsText.t) (b : bool) :
  is_space c = false ->
  exists p ps, split_spaces b (c :: r) = (c :: p) :: ps
               /\ split_spaces false r = p :: ps.
Proof.
  intros S. simpl. rewrite S.
  destruct (split_spaces_cons false r) as (p & ps & ->). eauto.
Qed.

Lemma parts_of_split_spaces (s : JsText.t) (b : bool) :
  filter nonempty (split_spaces b s) = runs s.
Proof.
  revert b. induction s as [|c r IH]; intros b; [reflexivity|].
  rewrite runs_eq. destruct (is_space c) eqn:S.
  - simpl. rewrite S. destruct b; simpl; apply IH.
  - destruct (@split_spaces_head c r b S) as (p & ps & -> & E).
    pose proof (IH false) as F. rewrite E in F.
    cbn [filter nonempty].
    destruct r as [|d r']; [simpl in E; injection E as <- <-; reflexivity|].
    destruct (is_space d) eqn:Sd.
    + simpl in E. rewrite Sd in E. injection E as <- <-.
      simpl in F. now rewrite F.
    + destruct (@split_spaces_head d r' false Sd) as (p' & ps' & E' & _).
      rewrite E' in E. injection E as <- <-.
      cbn [filter nonempty] in F. now rewrite <- F.
Qed.

Lemma runs_trimStart (s : JsText.t) : runs (trimStart s) = runs s.
Proof.
  induction s as [|c r IH]; [reflexivity|].
  rewrite runs_eq. simpl trimStart. destruct (is_space c) eqn:S; auto.
  now rewrite runs_eq, S.
Qed.

Lemma runs_of_spaces (s : JsText.t) : forallb is_space s = true -> runs s = [].
Proof.
  induction s as [|c r IH]; [reflexivity|].
  simpl forallb. intros H. apply andb_true_iff in H. destruct H as [Sc H].
  rewrite runs_eq, Sc. auto.
Qed.

Lemma runs_trimEnd (s : JsText.t) : runs (trimEnd s) = runs s.
Proof.
  induction s as [|c r IH]; [reflexivity|].
  pose proof (JsTextFacts.trimEnd_head r) as Hd.
  simpl trimEnd. destruct (trimEnd r) as [|e r''] eqn:E.
  - apply JsTextFacts.trimEnd_nil_iff in E.
    rewrite (runs_eq c r), (runs_of_spaces _ E).
    destruct (is_space c) eqn:S; [reflexivity|].
    rewrite runs_eq, S.
    destruct r as [|d r']; [reflexivity|].
    simpl in E. apply andb_true_iff in E. destruct E as [-> _]. reflexivity.
  - destruct Hd as (r0 & ->).
    rewrite (runs_eq c (e :: r'')), (runs_eq c (e :: r0)), IH. reflexivity.
Qed.

Lemma runs_trim (s : JsText.t) : runs (trim s) = runs s.
Proof. unfold trim. now rewrite runs_trimEnd, runs_trimStart. Qed.

Lemma markdown_parts_are_runs (markdown : option JsText.t) :
  markdown_parts markdown = runs (to_text markdown).
Proof. unfold markdown_parts. now rewrite parts_of_split_spaces, runs_trim. Qed.

(** X23: [trimMarkdownWords] counts the same words as [trimWords].  When it
    cuts, it returns exactly what [trimWords] returns, on one line; when it
    does not, it returns the text trimmed, line breaks kept.  In both cases
    normalising its result with [words] gives the result of [trimWords]. *)
Theorem trimMarkdownWords_agrees_with_trimWords
  (markdown : option JsText.t) (maxWords : nat) :
  markdown_parts markdown = word_parts markdown
  /\ ((maxWords < List.length (word_parts markdown))%nat ->
      trimMarkdownWords markdown maxWords = trimWords markdown maxWords)
  /\ ((List.length (word_parts markdown) <= maxWords)%nat ->
      trimMarkdownWords markdown maxWords = trim (to_text markdown))
  /\ words (Some (trimMarkdownWords markdown maxWords)) = trimWords markdown maxWords.
Proof.
  destruct (word_parts_option markdown) as [P Wd].
  pose proof (markdown_parts_are_runs markdown) as M.
  assert (Cut : (maxWords < List.length (word_parts markdown))%nat ->
                trimMarkdownWords markdown maxWords = trimWords markdown maxWords).
  { intros L. unfold trimMarkdownWords, trimWords. cbv zeta.
    rewrite M, P. rewrite P in L.
    apply Nat.leb_gt in L. now rewrite L. }
  assert (Whole : (List.length (word_parts markdown) <= maxWords)%nat ->
                  trimMarkdownWords markdown maxWords = trim (to_text markdown)).
  { intros L. unfold trimMarkdownWords. cbv zeta. rewrite M, <- P.
    apply Nat.leb_le in L. now rewrite L. }
  split; [congruence|]. split; [exact Cut|]. split; [exact Whole|].
  destruct (Nat.le_gt_cases (List.length (word_parts markdown)) maxWords) as [L|L].
  - rewrite (Whole L), words_are_joined_runs, runs_trim.
    unfold trimWords. apply Nat.leb_le in L. now rewrite L, P.
  - rewrite (Cut L).
    destruct (trimWords_shape markdown maxWords) as (qs & W & -> & _).
    now rewrite words_are_joined_runs, runs_of_joined_words.
Qed.

End AgentRunnerFacts.

(* ------------------------------------------------------------------ *)
(** ** The further statements at concrete inputs *)

Lemma handshake_registers_session_witness :
  exists w',
    handleHttpRequest (Scripted.request "POST" None)
      {| res := fresh_response;
         world := Scripted.world_of Scripted.one_session true 2
                    (Scripted.calm [(1%nat, "abc"); (3%nat, "def")]) |}
    = (Normal tt,
       {| res := Scripted.write (Scripted.Replies "ok") fresh_response; world := w' |})
    /\ JsMap.get "def" (activeSessions w') = Some (Scripted.session 2)
    /\ JsMap.size (activeSessions w') = 2%nat.
Proof.
  destruct (@handshake_registers_session Scripted.scripted
              (Scripted.request "POST" None) fresh_response
              (Scripted.world_of Scripted.one_session true 2
                 (Scripted.calm [(1%nat, "abc"); (3%nat, "def")]))
              (Scripted.calm [(1%nat, "abc"); (3%nat, "def")])
              (Scripted.write (Scripted.Replies "ok") fresh_response)
              (Scripted.calm [(1%nat, "abc"); (3%nat, "def")])
              "def")
    as (w' & E & _ & G & _ & Z & _);
    [reflexivity | reflexivity | reflexivity | reflexivity | reflexivity
    | reflexivity | discriminate | reflexivity |].
  exists w'. repeat split; assumption.
Defined.

Lemma registered_session_is_reused_witness :
  handleHttpRequest (Scripted.request "GET" (Some "abc"))
    {| res := fresh_response;
       world := Scripted.world_of Scripted.one_session true 2
                  (Scripted.calm [(1%nat, "abc")]) |}
  = (Normal tt,
     {| res := Scripted.write (Scripted.Replies "ok") fresh_response;
        world :=
          @called Scripted.scripted
                 (EvHandleRequest (transport (Scripted.session 0))
                    (ensureAcceptHeader (Scripted.request "GET" (Some "abc"))))
                 (Scripted.calm [(1%nat, "abc")])
                 (Scripted.world_of Scripted.one_session true 2
                    (Scripted.calm [(1%nat, "abc")])) |}).
Proof.
  apply (@registered_session_is_reused Scripted.scripted
           (Scripted.request "GET" (Some "abc")) fresh_response
           (Scripted.world_of Scripted.one_session true 2
              (Scripted.calm [(1%nat, "abc")]))
           "abc" (Scripted.session 0)
           (Scripted.write (Scripted.Replies "ok") fresh_response)
           (Scripted.calm [(1%nat, "abc")]));
    [reflexivity | reflexivity | discriminate | reflexivity | discriminate
    | reflexivity | reflexivity].
Defined.

Lemma ensureAcceptHeader_names_both_media_types_witness :
  ensureAcceptHeader (Scripted.request "GET" None) = Scripted.request "GET" None.
Proof.
  apply (proj1 (proj2 (@ensureAcceptHeader_names_both_media_types
                         (Scripted.request "GET" None)))
           "application/json, text/event-stream");
    reflexivity.
Defined.

Lemma writeJsonError_writes_at_most_once_witness :
  writeJsonError (writeJsonError fresh_response 404 (-32001) "Session not found")
                 500 (-32603) "Internal server error"
  = writeJsonError fresh_response 404 (-32001) "Session not found".
Proof.
  refine (proj2 (@writeJsonError_writes_at_most_once fresh_response 404 (-32001)
                   500 (-32603) "Session not found" "Internal server error" _)).
  lia.
Defined.

Lemma constructed_session_is_fresh_witness :
  (server_oid (server (Scripted.session 0)) < 2)%nat
  /\ (transport_oid (transport (Scripted.session 0)) < 2)%nat
  /\ server (Scripted.session 0) <> mkServer 2
  /\ transport (Scripted.session 0) <> mkTransport 3.
Proof.
  apply (@constructed_session_is_fresh Scripted.scripted _
           (reach_dispatch (Scripted.request "POST" None) fresh_response
              (@reach_start Scripted.scripted (Scripted.calm [(1%nat, "abc")])))
           "abc" (Scripted.session 0)).
  reflexivity.
Defined.

Lemma other_arguments_ignored_witness :
  Cli.parseCliOptions [JsText.lit "serve"; JsText.lit "-v"; JsText.lit "--porter=1"]
  = inl Cli.defaults.
Proof.
  apply (proj2 CliFacts.other_arguments_ignored). reflexivity.
Defined.

Lemma parsed_options_are_valid_witness :
  1 <= 8080 <= 65535
  /\ JsText.lit "example.org" <> []
  /\ JsText.trim (JsText.lit "example.org") = JsText.lit "example.org".
Proof.
  apply (@CliFacts.parsed_options_are_valid
           [JsText.lit "--port=8080"; JsText.lit "--host= example.org "]
           {| Cli.transport := Cli.stdio; Cli.port := 8080;
              Cli.host := JsText.lit "example.org" |}).
  reflexivity.
Defined.

Lemma options_read_left_to_right_witness :
  exists e',
    Cli.parseCliOptions
      [JsText.lit "--host=example.org"; JsText.lit "--port=0";
       JsText.lit "--transport=http"]
    = inr e'.
Proof.
  apply (proj2 CliFacts.options_read_left_to_right
           [JsText.lit "--host=example.org"; JsText.lit "--port=0";
            JsText.lit "--transport=http"]
           (JsText.lit "--port=0")
           "Invalid --port value. Use an integer between 1 and 65535.").
  - right. left. reflexivity.
  - reflexivity.
Defined.

Lemma port_option_reads_leading_digits_witness :
  Cli.parseCliOptions [JsText.lit "--port=1"; JsText.lit "--port=8080abc"]
  = inl {| Cli.transport := Cli.stdio; Cli.port := 8080;
           Cli.host := JsText.lit "0.0.0.0" |}.
Proof.
  apply (@CliFacts.port_option_reads_leading_digits
           [JsText.lit "--port=1"]
           {| Cli.transport := Cli.stdio; Cli.port := 1;
              Cli.host := JsText.lit "0.0.0.0" |}
           (JsText.lit "8080") (JsText.lit "abc"));
    [reflexivity | discriminate | reflexivity
    | split; vm_compute; discriminate | reflexivity].
Defined.

Lemma timeframe_accepted_iff_witness :
  exists r, Timeframe.parseTimeframeMinutes (JsText.lit " 15m ") = inl r.
Proof.
  apply (proj2 (proj1 (TimeframeFacts.timeframe_accepted_iff (JsText.lit " 15m ")))).
  exists (JsText.lit "15"), 109%N. repeat split; try reflexivity. discriminate.
Defined.

Lemma timeframe_minutes_and_hours_witness :
  Timeframe.parseTimeframeMinutes (JsText.lit "  2H ") = inl (Some 120).
Proof.
  apply (@TimeframeFacts.timeframe_minutes_and_hours
           (JsText.lit "  ") (JsText.lit "2") (JsText.lit " ") 72%N);
    [reflexivity | reflexivity | discriminate | reflexivity | reflexivity
    | vm_compute; discriminate].
Defined.

Lemma schema_valid_timeframe_parses_witness :
  exists n, Timeframe.parseTimeframeMinutes (JsText.lit "15m") = inl (Some n) /\ 0 <= n.
Proof.
  apply (@TimeframeFacts.schema_valid_timeframe_parses (JsText.lit "15m")).
  reflexivity.
Defined.

Lemma invalid_options_exit_before_any_server_witness :
  @main Scripted.scripted scripted_host
    [JsText.lit "node"; JsText.lit "index.js"; JsText.lit "--port=70000"]
    (@boot Scripted.scripted (Scripted.calm []))
  = (Throw, @boot Scripted.scripted (Scripted.calm [])).
Proof.
  apply (proj1 (@invalid_options_exit_before_any_server Scripted.scripted scripted_host
                  [JsText.lit "node"; JsText.lit "index.js"; JsText.lit "--port=70000"]
                  (@boot Scripted.scripted (Scripted.calm []))
                  "Invalid --port value. Use an integer between 1 and 65535."
                  eq_refl)).
Defined.

Lemma stdio_server_shuts_down_witness :
  exists w',
    shutdown 0
      (proc_world (snd (@main Scripted.scripted scripted_host
                          [JsText.lit "node"; JsText.lit "index.js"]
                          (@boot Scripted.scripted Scripted.stubborn))))
    = (Normal tt, w')
    /\ trace w' = [EvServerClose (mkServer 0); EvExit 0]
    /\ JsMap.size (activeSessions w') = 0%nat.
Proof.
  apply (@stdio_server_shuts_down Scripted.scripted scripted_host
           [JsText.lit "node"; JsText.lit "index.js"] Scripted.stubborn
           Cli.defaults); reflexivity.
Defined.

Lemma trimWords_within_limit_witness :
  AgentRunner.trimWords (Some (JsText.lit "  SEV-1   checkout  failing ")) 3
  = AgentRunner.words (Some (JsText.lit "  SEV-1   checkout  failing ")).
Proof.
  apply AgentRunnerFacts.trimWords_within_limit. vm_compute. lia.
Defined.

Lemma trimMarkdownWords_agrees_with_trimWords_witness :
  AgentRunner.trimMarkdownWords
    (Some (JsText.lit "### Postmortem" ++ [10%N] ++ JsText.lit "- Severity: SEV-1")%list) 2
  = AgentRunner.trimWords
      (Some (JsText.lit "### Postmortem" ++ [10%N] ++ JsText.lit "- Severity: SEV-1")%list) 2.
Proof.
  apply (proj1 (proj2 (AgentRunnerFacts.trimMarkdownWords_agrees_with_trimWords
                         (Some (JsText.lit "### Postmortem" ++ [10%N]
                                ++ JsText.lit "- Severity: SEV-1")%list) 2))).
  vm_compute. lia.
Defined.

Lemma parseIncidentServices_never_empty_witness :
  In (JsText.lit "payments-service")
     (AgentRunner.parseIncidentServices (Some (JsText.lit "SEV-1: login is down"))).
Proof.
  apply (proj2 (proj2 (proj2 (AgentRunnerFacts.parseIncidentServices_never_empty
                                (Some (JsText.lit "SEV-1: login is down")))))).
  right. reflexivity.
Defined.

Lemma parseIncidentSeverity_label_witness :
  AgentRunner.parseIncidentSeverity (Some (JsText.lit "checkout failing, 5xx spike"))
  = JsText.lit "SEV-1".
Proof.
  apply (proj2 (proj2 (AgentRunnerFacts.parseIncidentSeverity_label
                         (Some (JsText.lit "checkout failing, 5xx spike"))))).
  reflexivity.
Defined.

(** The helpers on small inputs. *)

Example cli_full_command_line :
  Cli.parseCliOptions
    [JsText.lit "--transport= Streamable-HTTP"; JsText.lit "--port=8080";
     JsText.lit "--host=127.0.0.1"; JsText.lit "--port=9090"]
  = inl {| Cli.transport := Cli.streamable_http; Cli.port := 9090;
           Cli.host := JsText.lit "127.0.0.1" |}.
Proof. reflexivity. Qed.

Example cli_rejects_empty_host :
  Cli.parseCliOptions [JsText.lit "--host=   "]
  = inr "Invalid --host value. Use a non-empty host string.".
Proof. reflexivity. Qed.

Example cli_rejects_sign_only_port :
  Cli.parseCliOptions [JsText.lit "--port=-80"]
  = inr "Invalid --port value. Use an integer between 1 and 65535.".
Proof. reflexivity. Qed.

Example timeframe_rejects_spaced_unit :
  Timeframe.parseTimeframeMinutes (JsText.lit "2 h")
  = inr "Invalid timeframe. Use values like 5m, 15m, or 1h.".
Proof. reflexivity. Qed.

Example trimWords_cuts :
  AgentRunner.trimWords (Some (JsText.lit "  one two   three four ")) 2
  = JsText.lit "one two...".
Proof. reflexivity. Qed.

Example trimMarkdownWords_line_breaks :
  AgentRunner.trimMarkdownWords
    (Some (JsText.lit "### Postmortem" ++ [10%N] ++ JsText.lit "- Severity: SEV-1")%list) 3
  = JsText.lit "### Postmortem -..."
  /\ AgentRunner.trimMarkdownWords
       (Some ([32%N] ++ JsText.lit "### Postmortem" ++ [10%N]
              ++ JsText.lit "- Severity: SEV-1" ++ [10%N])%list) 5
     = (JsText.lit "### Postmortem" ++ [10%N] ++ JsText.lit "- Severity: SEV-1")%list.
Proof. split; reflexivity. Qed.

Example severity_found :
  AgentRunner.parseIncidentSeverity
    (Some (JsText.lit "Incident, Severity = sev-2 on checkout"))
  = JsText.lit "SEV-2".
Proof. reflexivity. Qed.

Example severity_skips_unfinished_match :
  AgentRunner.parseIncidentSeverity
    (Some (JsText.lit "severity unknown; severity:p3"))
  = JsText.lit "P3".
Proof. reflexivity. Qed.
